(** * workflow-world-cloudflare: a shallow embedding and its properties

    The first part embeds the code, one module per source file:
    - [JSON], [Base64]: the platform's JSON.stringify / JSON.parse and
      btoa / atob, which the code calls;
    - [Ids]: src/utils/ids.ts;
    - [R2]: src/utils/r2.ts, the tiered payload store, and [Tiered], the
      same two functions for any payload;
    - [Pagination]: src/utils/pagination.ts;
    - [RunRow], [StepRow], [MessageRow], [HookRow], [Env]: src/types.ts
      and the schema of the tables;
    - [Runs]: src/storage/runs.ts;
    - [Steps]: src/storage/steps.ts;
    - [Queue]: src/queue/index.ts;
    - [Hooks]: src/storage/hooks.ts;
    - [Streamer]: createStreamer;
    - [Worker]: the router of src/index.ts;
    - [Coordinator]: src/durable-objects/workflow-run.ts.
    The second part states and proves the properties.

    Conventions.  A JavaScript string is a [string] of code units up to
    0xFF; a [number] holding an integer (a length, a limit, a millisecond
    timestamp) is a [Z]; a value that may be [undefined] or [null] is an
    [option].  An [async] function that reads and writes the bindings of
    the worker is a function from the state of those bindings to a result
    and the state it leaves behind; a [throw] is the [Throw] result, and
    the writes made before it stay.  What the code draws from the
    platform at run time, an identifier from [crypto.getRandomValues] or
    the time from [Date.now()], is an argument of the function.  Where
    the code can produce a value that the types here have no term for (a
    number with a fraction out of [JSON.parse], a function read from a
    prototype), the model says so, with [JSON.Beyond] or the result
    [Throw Unmodelled], instead of giving a value of its own. *)

From Stdlib Require Import ZArith NArith String Ascii List Lia.
From Stdlib.Init Require Import Byte.
From Stdlib Require Import Decimal DecimalFacts DecimalPos DecimalN DecimalString.
From stdpp Require Import base gmap strings list.

Local Open Scope Z_scope.

(** ** Exceptions and the state-and-exception monad *)

Inductive Exn : Type :=
| NotInitialized                      (* Error('Workflow state not initialized') *)
| TypeError                           (* a runtime TypeError *)
| SyntaxError                         (* thrown by JSON.parse *)
| InvalidCharacterError               (* thrown by atob *)
| InvalidCursor                       (* Error('Invalid pagination cursor') *)
| R2ObjectNotFound (key : string)     (* Error(`R2 object not found: ${key}`) *)
| RunNotFound (id : string)           (* Error(`Workflow run not found: ${id}`) *)
| StepNotFound (id : string)          (* Error(`Step not found: ${stepId}`) *)
| StepNotOwned (stepId runId : string)(* Error(`Step ... does not belong to run ...`) *)
| D1Error                             (* D1 rejects the statement or a bound value *)
| Unmodelled.                         (* behaviour outside what is modelled *)

Inductive Result (A : Type) : Type :=
| Ok (a : A)
| Throw (e : Exn).
Arguments Ok {A} a.
Arguments Throw {A} e.

Definition M (S A : Type) : Type := S -> Result A * S.

Definition ret {S A} (a : A) : M S A := fun s => (Ok a, s).
Definition throw {S A} (e : Exn) : M S A := fun s => (Throw e, s).
Definition bind {S A B} (m : M S A) (k : A -> M S B) : M S B :=
  fun s => match m s with
           | (Ok a, s') => k a s'
           | (Throw e, s') => (Throw e, s')
           end.
Definition gets {S A} (f : S -> A) : M S A := fun s => (Ok (f s), s).
Definition modify {S} (f : S -> S) : M S unit := fun s => (Ok tt, f s).

Declare Scope js_scope.
Delimit Scope js_scope with js.
Notation "'let*' x ':=' m 'in' k" := (bind m (fun x => k))
  (at level 10, x name, m at level 100, k at level 200) : js_scope.
Notation "'do' m 'then' k" := (bind m (fun _ => k))
  (at level 10, m at level 100, k at level 200) : js_scope.

(** ** JSON values *)

#[warnings="-register-all"]
Inductive json : Type :=
| JNull
| JBool (b : bool)
| JNum (n : Z)
| JStr (s : string)
| JArr (l : list json)
| JObj (m : list (string * json)).

(** ** JSON.stringify and JSON.parse

    The platform's JSON codec, on the values above.  Numbers are the
    integers, printed in decimal (what JavaScript prints for an integer
    below 10^21 in absolute value); a number literal with a fraction or an
    exponent is read when it denotes an integer and has no value in the
    model otherwise.  Strings hold code units up to 0xFF, so a [\u] escape
    above that has no value in the model either.  An object is kept as its
    members in the order of the text. *)

Module JSON.

Definition dquote : ascii := ascii_of_N 34.
Definition backslash : ascii := ascii_of_N 92.
Definition str1 (c : ascii) : string := String c EmptyString.

Definition hex_digit (n : N) : ascii :=
  if (n <? 10)%N then ascii_of_N (48 + n) else ascii_of_N (87 + n).

Definition escape_char (c : ascii) : string :=
  let n := N_of_ascii c in
  if (n =? 34)%N then String backslash (str1 dquote)
  else if (n =? 92)%N then String backslash (str1 backslash)
  else if (n =? 8)%N then String backslash "b"
  else if (n =? 12)%N then String backslash "f"
  else if (n =? 10)%N then String backslash "n"
  else if (n =? 13)%N then String backslash "r"
  else if (n =? 9)%N then String backslash "t"
  else if (n <? 32)%N then
    String backslash ("u00" +:+ String (hex_digit (n / 16)) (str1 (hex_digit (n mod 16))))
  else str1 c.

Fixpoint escape (s : string) : string :=
  match s with
  | EmptyString => EmptyString
  | String c r => escape_char c +:+ escape r
  end.

Definition quote (s : string) : string := String dquote (escape s +:+ str1 dquote).

Definition number_to_string (n : Z) : string :=
  match n with
  | Z0 => "0"
  | Zpos p => NilEmpty.string_of_uint (Pos.to_uint p)
  | Zneg p => String "-" (NilEmpty.string_of_uint (Pos.to_uint p))
  end.

(** [f x1 , f x2 , ... , f xn]. *)
Definition join {A} (f : A -> string) : list A -> string :=
  fix go (l : list A) : string :=
    match l with
    | [] => EmptyString
    | x :: r =>
        match r with
        | [] => f x
        | _ :: _ => f x +:+ String "," (go r)
        end
    end.

Fixpoint stringify (v : json) : string :=
  match v with
  | JNull => "null"
  | JBool true => "true"
  | JBool false => "false"
  | JNum n => number_to_string n
  | JStr s => quote s
  | JArr l => String "[" (join stringify l +:+ "]")
  | JObj m =>
      String "{" (join (fun kv => quote (fst kv) +:+ String ":" (stringify (snd kv))) m +:+ "}")
  end.

(** *** Reading *)

Definition is_ws (c : ascii) : bool :=
  let n := N_of_ascii c in
  ((n =? 32) || (n =? 9) || (n =? 10) || (n =? 13))%N.

Fixpoint skip_ws (s : string) : string :=
  match s with
  | EmptyString => EmptyString
  | String c r => if is_ws c then skip_ws r else s
  end.

Fixpoint strip_prefix (p s : string) : option string :=
  match p with
  | EmptyString => Some s
  | String a p' =>
      match s with
      | EmptyString => None
      | String b s' => if Ascii.eqb a b then strip_prefix p' s' else None
      end
  end.

Definition hex_value (c : ascii) : option N :=
  let n := N_of_ascii c in
  if ((48 <=? n) && (n <=? 57))%N then Some (n - 48)%N
  else if ((97 <=? n) && (n <=? 102))%N then Some (n - 87)%N
  else if ((65 <=? n) && (n <=? 70))%N then Some (n - 55)%N
  else None.

Definition hex4 (a b c d : ascii) : option N :=
  match hex_value a, hex_value b, hex_value c, hex_value d with
  | Some x, Some y, Some z, Some w => Some (((x * 16 + y) * 16 + z) * 16 + w)%N
  | _, _, _, _ => None
  end.

Definition unescape (e : ascii) : option ascii :=
  let n := N_of_ascii e in
  if (n =? 34)%N then Some dquote
  else if (n =? 92)%N then Some backslash
  else if (n =? 47)%N then Some "/"%char
  else if (n =? 98)%N then Some (ascii_of_N 8)
  else if (n =? 102)%N then Some (ascii_of_N 12)
  else if (n =? 110)%N then Some (ascii_of_N 10)
  else if (n =? 114)%N then Some (ascii_of_N 13)
  else if (n =? 116)%N then Some (ascii_of_N 9)
  else None.

Definition cons_char (c : ascii) (r : option (string * string)) : option (string * string) :=
  match r with
  | Some (s, rest) => Some (String c s, rest)
  | None => None
  end.

(** The text after an opening quote: the string it spells and what
    follows the closing quote. *)
Fixpoint parse_string_body (s : string) : option (string * string) :=
  match s with
  | EmptyString => None
  | String c rest =>
      if Ascii.eqb c dquote then Some (EmptyString, rest)
      else if Ascii.eqb c backslash then
        match rest with
        | EmptyString => None
        | String e rest1 =>
            if Ascii.eqb e "u" then
              match rest1 with
              | String h1 (String h2 (String h3 (String h4 rest2))) =>
                  match hex4 h1 h2 h3 h4 with
                  | Some n =>
                      if (n <? 256)%N then cons_char (ascii_of_N n) (parse_string_body rest2)
                      else None
                  | None => None
                  end
              | _ => None
              end
            else
              match unescape e with
              | Some ch => cons_char ch (parse_string_body rest1)
              | None => None
              end
        end
      else if (N_of_ascii c <? 32)%N then None
      else cons_char c (parse_string_body rest)
  end.

Definition digit_of (c : ascii) : option (Decimal.uint -> Decimal.uint) :=
  match c with
  | "0" => Some Decimal.D0 | "1" => Some Decimal.D1 | "2" => Some Decimal.D2
  | "3" => Some Decimal.D3 | "4" => Some Decimal.D4 | "5" => Some Decimal.D5
  | "6" => Some Decimal.D6 | "7" => Some Decimal.D7 | "8" => Some Decimal.D8
  | "9" => Some Decimal.D9 | _ => None
  end%char.

Fixpoint read_digits (s : string) : Decimal.uint * string :=
  match s with
  | EmptyString => (Decimal.Nil, EmptyString)
  | String c r =>
      match digit_of c with
      | Some d => let (u, rest) := read_digits r in (d u, rest)
      | None => (Decimal.Nil, s)
      end
  end.

Definition is_nil (u : Decimal.uint) : bool :=
  match u with Decimal.Nil => true | _ => false end.

Definition leading_zero (u : Decimal.uint) : bool :=
  match u with
  | Decimal.D0 Decimal.Nil => false
  | Decimal.D0 _ => true
  | _ => false
  end.

Definition parse_frac (s : string) : option (Decimal.uint * string) :=
  match s with
  | String c r =>
      if Ascii.eqb c "." then
        let (f, rest) := read_digits r in
        if is_nil f then None else Some (f, rest)
      else Some (Decimal.Nil, s)
  | EmptyString => Some (Decimal.Nil, s)
  end.

Definition parse_exponent (r : string) : option (Z * string) :=
  let (neg, r1) :=
    match r with
    | String c r' =>
        if Ascii.eqb c "-" then (true, r')
        else if Ascii.eqb c "+" then (false, r')
        else (false, r)
    | EmptyString => (false, r)
    end in
  let (x, rest) := read_digits r1 in
  if is_nil x then None
  else Some (if neg then - Z.of_uint x else Z.of_uint x, rest).

Definition parse_exp (s : string) : option (Z * string) :=
  match s with
  | String c r =>
      if Ascii.eqb c "e" || Ascii.eqb c "E" then parse_exponent r else Some (0, s)
  | EmptyString => Some (0, s)
  end.

Definition split_sign (s : string) : bool * string :=
  match s with
  | String c r => if Ascii.eqb c "-" then (true, r) else (false, s)
  | EmptyString => (false, s)
  end.

(** The integer that the digits [ip], the fraction digits [fp] and the
    exponent [x] denote, when they denote one. *)
Definition number_value (neg : bool) (ip fp : Decimal.uint) (x : Z) : option Z :=
  let m := Z.of_uint (Decimal.app ip fp) in
  let e := x - Z.of_nat (Decimal.nb_digits fp) in
  let signed (v : Z) := if neg then - v else v in
  if 0 <=? e then Some (signed (m * 10 ^ e))
  else if m mod 10 ^ (- e) =? 0 then Some (signed (m / 10 ^ (- e)))
  else None.

Definition parse_unsigned (neg : bool) (s1 : string) : option (json * string) :=
  let (ip, s2) := read_digits s1 in
  if is_nil ip || leading_zero ip then None
  else
    match parse_frac s2 with
    | None => None
    | Some (fp, s3) =>
        match parse_exp s3 with
        | None => None
        | Some (x, s4) =>
            match number_value neg ip fp x with
            | Some v => Some (JNum v, s4)
            | None => None
            end
        end
    end.

Definition parse_number (s : string) : option (json * string) :=
  let (neg, s1) := split_sign s in parse_unsigned neg s1.

Definition starts_number (c : ascii) : bool :=
  Ascii.eqb c "-" || match digit_of c with Some _ => true | None => false end.

Definition literal (p : string) (v : json) (rest : string) : option (json * string) :=
  match strip_prefix p rest with
  | Some r => Some (v, r)
  | None => None
  end.

(** One value at the head of [s] (no leading white space), with [fuel]
    bounding the number of nested and successive values. *)
Fixpoint parse_value (fuel : nat) (s : string) {struct fuel} : option (json * string) :=
  match fuel with
  | O => None
  | S fuel =>
      match s with
      | EmptyString => None
      | String c rest =>
          if Ascii.eqb c "n" then literal "ull" JNull rest
          else if Ascii.eqb c "t" then literal "rue" (JBool true) rest
          else if Ascii.eqb c "f" then literal "alse" (JBool false) rest
          else if Ascii.eqb c dquote then
            match parse_string_body rest with
            | Some (str, r) => Some (JStr str, r)
            | None => None
            end
          else if Ascii.eqb c "[" then
            match skip_ws rest with
            | EmptyString => None
            | String c' r =>
                if Ascii.eqb c' "]" then Some (JArr [], r)
                else
                  match parse_elements fuel (String c' r) with
                  | Some (l, r') => Some (JArr l, r')
                  | None => None
                  end
            end
          else if Ascii.eqb c "{" then
            match skip_ws rest with
            | EmptyString => None
            | String c' r =>
                if Ascii.eqb c' "}" then Some (JObj [], r)
                else
                  match parse_members fuel (String c' r) with
                  | Some (m, r') => Some (JObj m, r')
                  | None => None
                  end
            end
          else if starts_number c then parse_number s
          else None
      end
  end
with parse_elements (fuel : nat) (s : string) {struct fuel} : option (list json * string) :=
  match fuel with
  | O => None
  | S fuel =>
      match parse_value fuel s with
      | None => None
      | Some (v, r) =>
          match skip_ws r with
          | EmptyString => None
          | String c r' =>
              if Ascii.eqb c "]" then Some ([v], r')
              else if Ascii.eqb c "," then
                match parse_elements fuel (skip_ws r') with
                | Some (l, r'') => Some (v :: l, r'')
                | None => None
                end
              else None
          end
      end
  end
with parse_members (fuel : nat) (s : string) {struct fuel}
  : option (list (string * json) * string) :=
  match fuel with
  | O => None
  | S fuel =>
      match s with
      | EmptyString => None
      | String c rest =>
          if Ascii.eqb c dquote then
            match parse_string_body rest with
            | None => None
            | Some (k, r) =>
                match skip_ws r with
                | EmptyString => None
                | String c1 r1 =>
                    if Ascii.eqb c1 ":" then
                      match parse_value fuel (skip_ws r1) with
                      | None => None
                      | Some (v, r2) =>
                          match skip_ws r2 with
                          | EmptyString => None
                          | String c2 r3 =>
                              if Ascii.eqb c2 "}" then Some ([(k, v)], r3)
                              else if Ascii.eqb c2 "," then
                                match parse_members fuel (skip_ws r3) with
                                | Some (m, r4) => Some ((k, v) :: m, r4)
                                | None => None
                                end
                              else None
                          end
                      end
                    else None
                end
            end
          else None
      end
  end.

(** [JSON.parse] on the texts of the model; [None] is the SyntaxError.
    A JSON text that is outside the model (a fraction, a [\u] escape
    above 0xFF) has no value here either: [read], below, tells the two
    apart. *)
Definition parse (s : string) : option json :=
  match parse_value (S (String.length s)) (skip_ws s) with
  | Some (v, rest) =>
      match skip_ws rest with
      | EmptyString => Some v
      | String _ _ => None
      end
  | None => None
  end.

(** What may follow a value inside a text: the end, a comma or a closing
    bracket. *)
Definition ends_value (s : string) : bool :=
  match s with
  | EmptyString => true
  | String c _ => Ascii.eqb c "," || Ascii.eqb c "]" || Ascii.eqb c "}"
  end.

(** What a value may start with, as far as the reader of arrays and
    objects looks: no white space and no closing bracket. *)
Definition value_head (s : string) : bool :=
  match s with
  | EmptyString => false
  | String c _ => negb (is_ws c) && negb (Ascii.eqb c "]") && negb (Ascii.eqb c "}")
  end.

(** The fuel that reading a value back takes. *)
Fixpoint need (v : json) : nat :=
  match v with
  | JArr l =>
      S ((fix go (l : list json) : nat :=
            match l with
            | [] => O
            | x :: r => S (Nat.max (need x) (go r))
            end) l)
  | JObj m =>
      S ((fix go (m : list (string * json)) : nat :=
            match m with
            | [] => O
            | kv :: r => S (Nat.max (need (snd kv)) (go r))
            end) m)
  | _ => 1%nat
  end.

Definition elements_need : list json -> nat :=
  fix go (l : list json) : nat :=
    match l with
    | [] => O
    | x :: r => S (Nat.max (need x) (go r))
    end.

Definition members_need : list (string * json) -> nat :=
  fix go (m : list (string * json)) : nat :=
    match m with
    | [] => O
    | kv :: r => S (Nat.max (need (snd kv)) (go r))
    end.

Definition member_text (kv : string * json) : string :=
  quote (fst kv) +:+ String ":" (stringify (snd kv)).

(** *** Texts and values outside the model

    [parse] has a value for the texts whose numbers are integers and
    whose strings hold code units up to 0xFF.  The recogniser below
    accepts every JSON text, whether it has a value here or not. *)

(** The text after an opening quote: what follows the closing quote,
    for any [\u] escape. *)
Fixpoint skip_string_body (s : string) : option string :=
  match s with
  | EmptyString => None
  | String c rest =>
      if Ascii.eqb c dquote then Some rest
      else if Ascii.eqb c backslash then
        match rest with
        | EmptyString => None
        | String e rest1 =>
            if Ascii.eqb e "u" then
              match rest1 with
              | String h1 (String h2 (String h3 (String h4 rest2))) =>
                  match hex4 h1 h2 h3 h4 with
                  | Some _ => skip_string_body rest2
                  | None => None
                  end
              | _ => None
              end
            else
              match unescape e with
              | Some _ => skip_string_body rest1
              | None => None
              end
        end
      else if (N_of_ascii c <? 32)%N then None
      else skip_string_body rest
  end.

(** A number: digits without a leading zero, then an optional fraction
    and an optional exponent, whatever it denotes. *)
Definition skip_unsigned (s1 : string) : option string :=
  let (ip, s2) := read_digits s1 in
  if is_nil ip || leading_zero ip then None
  else
    match parse_frac s2 with
    | None => None
    | Some (_, s3) =>
        match parse_exp s3 with
        | None => None
        | Some (_, s4) => Some s4
        end
    end.

Definition skip_number (s : string) : option string :=
  let (_, s1) := split_sign s in skip_unsigned s1.

(** One value at the head of [s], as [parse_value] reads it: what
    follows the value. *)
Fixpoint skip_value (fuel : nat) (s : string) {struct fuel} : option string :=
  match fuel with
  | O => None
  | S fuel =>
      match s with
      | EmptyString => None
      | String c rest =>
          if Ascii.eqb c "n" then strip_prefix "ull" rest
          else if Ascii.eqb c "t" then strip_prefix "rue" rest
          else if Ascii.eqb c "f" then strip_prefix "alse" rest
          else if Ascii.eqb c dquote then skip_string_body rest
          else if Ascii.eqb c "[" then
            match skip_ws rest with
            | EmptyString => None
            | String c' r =>
                if Ascii.eqb c' "]" then Some r
                else skip_elements fuel (String c' r)
            end
          else if Ascii.eqb c "{" then
            match skip_ws rest with
            | EmptyString => None
            | String c' r =>
                if Ascii.eqb c' "}" then Some r
                else skip_members fuel (String c' r)
            end
          else if starts_number c then skip_number s
          else None
      end
  end
with skip_elements (fuel : nat) (s : string) {struct fuel} : option string :=
  match fuel with
  | O => None
  | S fuel =>
      match skip_value fuel s with
      | None => None
      | Some r =>
          match skip_ws r with
          | EmptyString => None
          | String c r' =>
              if Ascii.eqb c "]" then Some r'
              else if Ascii.eqb c "," then skip_elements fuel (skip_ws r')
              else None
          end
      end
  end
with skip_members (fuel : nat) (s : string) {struct fuel} : option string :=
  match fuel with
  | O => None
  | S fuel =>
      match s with
      | EmptyString => None
      | String c rest =>
          if Ascii.eqb c dquote then
            match skip_string_body rest with
            | None => None
            | Some r =>
                match skip_ws r with
                | EmptyString => None
                | String c1 r1 =>
                    if Ascii.eqb c1 ":" then
                      match skip_value fuel (skip_ws r1) with
                      | None => None
                      | Some r2 =>
                          match skip_ws r2 with
                          | EmptyString => None
                          | String c2 r3 =>
                              if Ascii.eqb c2 "}" then Some r3
                              else if Ascii.eqb c2 "," then skip_members fuel (skip_ws r3)
                              else None
                          end
                      end
                    else None
                end
            end
          else None
      end
  end.

(** The text is JSON: [JSON.parse] does not throw on it. *)
Definition well_formed (s : string) : bool :=
  match skip_value (S (String.length s)) (skip_ws s) with
  | Some rest =>
      match skip_ws rest with
      | EmptyString => true
      | String _ _ => false
      end
  | None => false
  end.

(** [Number.isSafeInteger]: the integers that a number holds exactly
    and that are printed and read digit by digit. *)
Definition safe_integer (n : Z) : bool := Z.abs n <? 2 ^ 53.

Fixpoint distinct (l : list string) : bool :=
  match l with
  | [] => true
  | k :: r => negb (existsb (String.eqb k) r) && distinct r
  end.

(** A key that begins with a digit.  The keys that are array indices
    are among them: an object enumerates those first, in ascending
    order, wherever they stand in the text. *)
Definition index_like (k : string) : bool :=
  match k with
  | String c _ => let n := N_of_ascii c in ((48 <=? n) && (n <=? 57))%N
  | EmptyString => false
  end.

(** A value of the model that is a value of JavaScript as it stands:
    its numbers are safe integers, no object repeats a key and no object
    has a key that it would enumerate out of the order of the list. *)
Fixpoint exact (v : json) : bool :=
  match v with
  | JNum n => safe_integer n
  | JArr l => forallb exact l
  | JObj m =>
      distinct (map fst m) && forallb (fun k => negb (index_like k)) (map fst m)
      && forallb (fun kv => exact (snd kv)) m
  | _ => true
  end.

(** What [JSON.parse] returns: a value of the model, or a value that
    the model does not give (a number with a fraction or beyond the safe
    integers, a string with a code unit above 0xFF, an object read from
    a text that repeats a key or has a key that begins with a digit).
    The model does not tell -0 from 0. *)
Inductive Parsed : Type :=
| Known (v : json)
| Beyond.

(** [JSON.parse] on every text; [None] is the SyntaxError. *)
Definition read (text : string) : option Parsed :=
  match parse text with
  | Some v => Some (if exact v then Known v else Beyond)
  | None => if well_formed text then Some Beyond else None
  end.

End JSON.


(** ** btoa and atob

    The platform's base64 codec on binary strings: [btoa] writes the
    padded form, [atob] is the forgiving decoder (white space is dropped,
    padding is optional).  [None] is the InvalidCharacterError. *)

Module Base64.

Definition alphabet : list ascii :=
  list_ascii_of_string "ABCDEFGHIJKLMNOPQRSTUVWXYZabcdefghijklmnopqrstuvwxyz0123456789+/".

Definition char_of_index (i : N) : ascii := nth (N.to_nat i) alphabet "A"%char.

Definition index_of_char (c : ascii) : option N :=
  let n := N_of_ascii c in
  if ((65 <=? n) && (n <=? 90))%N then Some (n - 65)%N
  else if ((97 <=? n) && (n <=? 122))%N then Some (n - 71)%N
  else if ((48 <=? n) && (n <=? 57))%N then Some (n + 4)%N
  else if (n =? 43)%N then Some 62%N
  else if (n =? 47)%N then Some 63%N
  else None.

(** Bytes to 6-bit groups, most significant bits first. *)
Fixpoint sextets (l : list N) : list N :=
  match l with
  | a :: b :: c :: rest =>
      (a / 4 :: (a mod 4) * 16 + b / 16 :: (b mod 16) * 4 + c / 64 :: c mod 64
         :: sextets rest)%N
  | [a; b] => [a / 4; (a mod 4) * 16 + b / 16; (b mod 16) * 4]%N
  | [a] => [a / 4; (a mod 4) * 16]%N
  | [] => []
  end.

Definition padding (n : nat) : list ascii :=
  match (n mod 3)%nat with
  | 1%nat => ["="; "="]%char
  | 2%nat => ["="]%char
  | _ => []
  end.

Definition btoa (s : string) : string :=
  let bytes := map N_of_ascii (list_ascii_of_string s) in
  string_of_list_ascii (map char_of_index (sextets bytes) ++ padding (length bytes)).

Definition is_ascii_whitespace (c : ascii) : bool :=
  let n := N_of_ascii c in
  ((n =? 9) || (n =? 10) || (n =? 12) || (n =? 13) || (n =? 32))%N.

Definition is_pad (c : ascii) : bool := Ascii.eqb c "=".

(** A text whose length is a multiple of four loses the one or two [=]
    it ends with. *)
Definition strip_padding (data : list ascii) : list ascii :=
  if (length data mod 4 =? 0)%nat then
    match rev data with
    | c1 :: c2 :: r =>
        if is_pad c1 then (if is_pad c2 then rev r else rev (c2 :: r)) else data
    | _ => data
    end
  else data.

Fixpoint indices (data : list ascii) : option (list N) :=
  match data with
  | [] => Some []
  | c :: r =>
      match index_of_char c, indices r with
      | Some i, Some l => Some (i :: l)
      | _, _ => None
      end
  end.

(** 6-bit groups back to bytes; the bits left over after the last whole
    byte are dropped. *)
Fixpoint bytes_of_sextets (l : list N) : list N :=
  match l with
  | i1 :: i2 :: i3 :: i4 :: rest =>
      (i1 * 4 + i2 / 16 :: (i2 mod 16) * 16 + i3 / 4 :: (i3 mod 4) * 64 + i4
         :: bytes_of_sextets rest)%N
  | [i1; i2; i3] => [i1 * 4 + i2 / 16; (i2 mod 16) * 16 + i3 / 4]%N
  | [i1; i2] => [i1 * 4 + i2 / 16]%N
  | _ => []
  end.

Definition atob (s : string) : option string :=
  let data :=
    strip_padding
      (List.filter (fun c => negb (is_ascii_whitespace c)) (list_ascii_of_string s)) in
  if (length data mod 4 =? 1)%nat then None
  else
    match indices data with
    | None => None
    | Some sx => Some (string_of_list_ascii (map ascii_of_N (bytes_of_sextets sx)))
    end.

Definition is_byte (n : N) : Prop := (n < 256)%N.
Definition is_sextet (n : N) : Prop := (n < 64)%N.

(** Neither white space nor padding. *)
Definition plain (c : ascii) : Prop :=
  is_ascii_whitespace c = false /\ is_pad c = false.

End Base64.

(** ** Identifiers (src/utils/ids.ts)

    [randomValues] is what [crypto.getRandomValues] wrote into the
    array: a list of bytes. *)

Module Ids.

Definition chars : string := "abcdefghijklmnopqrstuvwxyz0123456789".

(** [chars[k]] appended to a string: the character, or the text of
    [undefined] past the end. *)
Definition char_at (s : string) (k : N) : string :=
  match String.get (N.to_nat k) s with
  | Some c => String c EmptyString
  | None => "undefined"
  end.

(** The loop [for (let i = 0; i < 16; i++)]. *)
Definition generateRandomId (randomValues : list N) : string :=
  fold_left
    (fun result i =>
       result +:+ char_at chars (nth i randomValues 0%N mod N.of_nat (String.length chars)))
    (seq 0 16) EmptyString.

Definition RUN : string := "wrun_".
Definition STEP : string := "wstp_".
Definition EVENT : string := "evnt_".
Definition HOOK : string := "hook_".
Definition MESSAGE : string := "msg_".
Definition STREAM : string := "strm_".

Definition generateId (prefix : string) (randomValues : list N) : string :=
  prefix +:+ generateRandomId randomValues.

Definition generateRunId := generateId RUN.
Definition generateStepId := generateId STEP.
Definition generateEventId := generateId EVENT.
Definition generateHookId := generateId HOOK.
Definition generateMessageId := generateId MESSAGE.
Definition generateStreamId := generateId STREAM.

(** [b.toString(16)] for a byte: one or two lower-case digits. *)
Definition toString16 (b : N) : string :=
  if (b <? 16)%N then String (JSON.hex_digit b) EmptyString
  else String (JSON.hex_digit (b / 16)) (String (JSON.hex_digit (b mod 16)) EmptyString).

(** [s.padStart(2, '0')]. *)
Definition padStart2 (s : string) : string :=
  match s with
  | EmptyString => "00"
  | String c EmptyString => String "0" (String c EmptyString)
  | _ => s
  end.

Definition generateHookToken (randomValues : list N) : string :=
  String.concat EmptyString (map (fun b => padStart2 (toString16 b)) randomValues).

(** A lower-case letter or a digit. *)
Definition is_id_char (c : ascii) : bool :=
  let n := N_of_ascii c in
  (((97 <=? n) && (n <=? 122)) || ((48 <=? n) && (n <=? 57)))%N.

(** A lower-case hexadecimal digit. *)
Definition is_hex_char (c : ascii) : bool :=
  let n := N_of_ascii c in
  (((97 <=? n) && (n <=? 102)) || ((48 <=? n) && (n <=? 57)))%N.

Definition all_chars (p : ascii -> bool) (s : string) : bool :=
  forallb p (list_ascii_of_string s).

End Ids.

(** ** The tiered payload store (src/utils/r2.ts) *)

Module R2.

Inductive RefType : Type := inline | r2.

Record DataReference : Type := mkRef {
  type : RefType;
  data : string;
}.

(** The bucket: the text stored under each key. *)
Abbreviation R2Bucket := (gmap string string).

Definition generateR2Key (prefix id field : string) : string :=
  prefix +:+ "/" +:+ id +:+ "/" +:+ field.

(** [jsonData.length <= threshold], the threshold being an integer. *)
Definition storeData (data : json) (keyPrefix id field : string) (threshold : Z)
  : M R2Bucket DataReference := fun bucket =>
  let jsonData := JSON.stringify data in
  if Z.of_nat (String.length jsonData) <=? threshold then
    (Ok {| type := inline; data := jsonData |}, bucket)
  else
    let key := generateR2Key keyPrefix id field in
    (Ok {| type := r2; data := key |}, <[key := jsonData]> bucket).

Definition JSON_parse (text : string) : M R2Bucket json := fun bucket =>
  match JSON.parse text with
  | Some v => (Ok v, bucket)
  | None => (Throw SyntaxError, bucket)
  end.

(** The result [null] is [JNull]. *)
Definition retrieveData (reference : option DataReference) : M R2Bucket json :=
  fun bucket =>
  match reference with
  | None => (Ok JNull, bucket)
  | Some ref =>
      match type ref with
      | inline => JSON_parse (data ref) bucket
      | r2 =>
          match bucket !! data ref with
          | None => (Throw (R2ObjectNotFound (data ref)), bucket)
          | Some text => JSON_parse text bucket
          end
      end
  end.


(** [!type || !data]: a missing type, missing data and empty data all
    give [null]. *)
Definition createDataReference (ty : option RefType) (d : option string)
  : option DataReference :=
  match ty, d with
  | Some t, Some (String c r) => Some {| type := t; data := String c r |}
  | _, _ => None
  end.

(** A string without a slash, as every key prefix the repositories use
    and every generated identifier. *)
Fixpoint slash_free (s : string) : bool :=
  match s with
  | EmptyString => true
  | String c r => negb (Ascii.eqb c "/") && slash_free r
  end.

End R2.

(** ** src/utils/r2.ts for any payload

    [storeData] takes its payload as [unknown] and [retrieveData] is
    generic in what it returns.  These are the two functions once more,
    for any type of values and any type of texts, with [JSON.stringify],
    [JSON.parse] and [.length] as the parameters they are to the code;
    [R2] is their instance at the values and texts of the JSON model. *)

Module Tiered.
Section Codec.
Context {value text : Type}.
(** [JSON.stringify], [JSON.parse] ([None] is the SyntaxError) and the
    [length] of a string. *)
Variable stringify : value -> text.
Variable parse : text -> option value.
Variable length : text -> Z.

(** [{ type: 'inline', data }] holds the text, [{ type: 'r2', data }]
    the key. *)
Inductive DataReference : Type :=
| inline (data : text)
| r2 (data : string).

Definition storeData (data : value) (keyPrefix id field : string) (threshold : Z)
  : M (gmap string text) DataReference := fun bucket =>
  let jsonData := stringify data in
  if length jsonData <=? threshold then (Ok (inline jsonData), bucket)
  else
    let key := R2.generateR2Key keyPrefix id field in
    (Ok (r2 key), <[key := jsonData]> bucket).

Definition JSON_parse (jsonText : text) : M (gmap string text) (option value) := fun bucket =>
  match parse jsonText with
  | Some v => (Ok (Some v), bucket)
  | None => (Throw SyntaxError, bucket)
  end.

(** The result [None] is [null]. *)
Definition retrieveData (reference : option DataReference)
  : M (gmap string text) (option value) := fun bucket =>
  match reference with
  | None => (Ok None, bucket)
  | Some (inline data) => JSON_parse data bucket
  | Some (r2 data) =>
      match bucket !! data with
      | None => (Throw (R2ObjectNotFound data), bucket)
      | Some object => JSON_parse object bucket
      end
  end.

End Codec.
Arguments DataReference : clear implicits.

(** The reference of [R2] that a reference over strings stands for. *)
Definition to_R2 (reference : DataReference string) : R2.DataReference :=
  match reference with
  | inline data => {| R2.type := R2.inline; R2.data := data |}
  | r2 data => {| R2.type := R2.r2; R2.data := data |}
  end.

(** The length of a text of the JSON model. *)
Definition string_length (s : string) : Z := Z.of_nat (String.length s).

End Tiered.

(** ** Cursor pagination (src/utils/pagination.ts) *)

Module Pagination.

Record PaginationCursor : Type := mkCursor {
  lastId : string;
  lastTimestamp : Z;
}.

(** The object literal [{lastId, lastTimestamp}] as a JSON value. *)
Definition cursor_json (c : PaginationCursor) : json :=
  JObj [("lastId", JStr (lastId c)); ("lastTimestamp", JNum (lastTimestamp c))].

Definition encodeCursor (cursor : PaginationCursor) : string :=
  Base64.btoa (JSON.stringify (cursor_json cursor)).

(** The cast [as PaginationCursor] does nothing at run time: the result
    is whatever value the text spells, one of the model or not. *)
Definition decodeCursor (cursor : string) : Result JSON.Parsed :=
  match Base64.atob cursor with
  | None => Throw InvalidCursor
  | Some text =>
      match JSON.read text with
      | None => Throw InvalidCursor
      | Some v => Ok v
      end
  end.

Inductive SortOrder : Type := asc | desc.

Record PaginationOptions : Type := mkPagination {
  limit : option Z;
  cursor : option string;
  sortOrder : option SortOrder;
}.

Record PaginatedResponse (T : Type) : Type := mkResponse {
  resp_data : list T;
  resp_cursor : option string;
  hasMore : bool;
}.
Arguments mkResponse {T} _ _ _.
Arguments resp_data {T} _.
Arguments resp_cursor {T} _.
Arguments hasMore {T} _.

(** The optional identifier fields of the items a response carries. *)
Class HasIds (T : Type) : Type := {
  get_runId : T -> option string;
  get_stepId : T -> option string;
  get_eventId : T -> option string;
  get_hookId : T -> option string;
}.

(** [a || b] on an optional string: [undefined] and the empty string are
    falsy. *)
Definition or_else (a : option string) (b : string) : string :=
  match a with
  | Some (String c r) => String c r
  | _ => b
  end.

(** [items.slice(0, n)]. *)
Definition slice0 {T} (items : list T) (n : Z) : list T :=
  if 0 <=? n then take (Z.to_nat n) items
  else take (Z.to_nat (Z.of_nat (length items) + n)) items.

Definition option_limit (pagination : option PaginationOptions) : option Z :=
  match pagination with
  | Some p => limit p
  | None => None
  end.

Definition createPaginatedResponse {T} `{HasIds T}
  (items : list T) (pagination : option PaginationOptions) (getTimestamp : T -> Z)
  : PaginatedResponse T :=
  match option_limit pagination with
  | None | Some 0 => {| resp_data := items; resp_cursor := None; hasMore := false |}
  | Some lim =>
      let more := lim <? Z.of_nat (length items) in
      let page := if more then slice0 items lim else items in
      let cur :=
        match more, last page with
        | true, Some x =>
            Some (encodeCursor
                    {| lastId :=
                         or_else (get_runId x)
                           (or_else (get_stepId x)
                              (or_else (get_eventId x)
                                 (or_else (get_hookId x) EmptyString)));
                       lastTimestamp := getTimestamp x |})
        | _, _ => None
        end in
      {| resp_data := page; resp_cursor := cur; hasMore := more |}
  end.

(** [v.k] on a parsed value, for a key that objects do not inherit: a
    TypeError on [null], [undefined] ([None]) when there is no such
    member, the last one when the text repeats the key. *)
Fixpoint member (k : string) (m : list (string * json)) : option json :=
  match m with
  | [] => None
  | (k', v) :: r =>
      match member k r with
      | Some w => Some w
      | None => if String.eqb k k' then Some v else None
      end
  end.

Definition property (v : json) (k : string) : Result (option json) :=
  match v with
  | JNull => Throw TypeError
  | JObj m => Ok (member k m)
  | _ => Ok None
  end.

(** A value bound to a [?] of a statement: [undefined], a value of the
    model, or one the model does not give. *)
Inductive Param : Type :=
| Undefined
| Bound (v : json)
| Unrepresented.

(** [decoded.k], for the two keys of a cursor. *)
Definition param (decoded : JSON.Parsed) (k : string) : Result Param :=
  match decoded with
  | JSON.Known v =>
      match property v k with
      | Throw e => Throw e
      | Ok (Some w) => Ok (Bound w)
      | Ok None => Ok Undefined
      end
  | JSON.Beyond => Ok Unrepresented
  end.

Record CursorClause : Type := mkClause {
  clause : string;
  params : list Param;
}.

Definition buildCursorWhereClause (cur : option string) (timestampColumn idColumn : string)
  (order : SortOrder) : Result CursorClause :=
  match cur with
  | None | Some EmptyString => Ok {| clause := EmptyString; params := [] |}
  | Some c =>
      match decodeCursor c with
      | Throw e => Throw e
      | Ok decoded =>
          match param decoded "lastTimestamp" with
          | Throw e => Throw e
          | Ok ts =>
              match param decoded "lastId" with
              | Throw e => Throw e
              | Ok id =>
                  match order with
                  | desc =>
                      Ok {| clause :=
                              "AND (" +:+ timestampColumn +:+ " < ? OR ("
                                +:+ timestampColumn +:+ " = ? AND " +:+ idColumn +:+ " < ?))";
                            params := [ts; ts; id] |}
                  | asc =>
                      Ok {| clause :=
                              "AND (" +:+ timestampColumn +:+ " > ? OR ("
                                +:+ timestampColumn +:+ " = ? AND " +:+ idColumn +:+ " > ?))";
                            params := [ts; ts; id] |}
                  end
              end
          end
      end
  end.

(** [whereClauses.join(' AND ')]. *)
Definition join_and (whereClauses : list string) : string :=
  String.concat " AND " whereClauses.

(** [hay.includes(needle)]. *)
Fixpoint includes (needle hay : string) : bool :=
  String.prefix needle hay
  || match hay with
     | EmptyString => false
     | String _ r => includes needle r
     end.

(** D1 parses the conditions of a WHERE clause that the repositories
    write unless the operator AND follows itself, with no operand
    between: that is a syntax error. *)
Definition where_parses (whereClauses : list string) : bool :=
  negb (includes "AND AND" (join_and whereClauses)).

(** A string that decodes to a value with a string [lastId] and an
    integer [lastTimestamp]. *)
Definition decodes_to_cursor (s : string) : Prop :=
  exists v id ts,
    decodeCursor s = Ok (JSON.Known v) /\
    property v "lastId" = Ok (Some (JStr id)) /\
    property v "lastTimestamp" = Ok (Some (JNum ts)).

End Pagination.

(** ** Database rows and the worker's bindings (src/types.ts)

    A D1 table is the list of its rows in insertion order.  A nullable
    column is an [option]. *)

Module RunRow.
Record WorkflowRunRow : Type := mkRow {
  run_id : string;
  deployment_id : string;
  workflow_name : string;
  status : string;
  input_type : R2.RefType;
  input_data : option string;
  output_type : option R2.RefType;
  output_data : option string;
  execution_context : option string;
  error : option string;
  error_code : option string;
  created_at : Z;
  updated_at : Z;
  started_at : option Z;
  completed_at : option Z;
}.

Definition set_updated_at (v : Z) (r : WorkflowRunRow) : WorkflowRunRow :=
  mkRow (run_id r) (deployment_id r) (workflow_name r) (status r) (input_type r)
    (input_data r) (output_type r) (output_data r) (execution_context r) (error r)
    (error_code r) (created_at r) v (started_at r) (completed_at r).
Definition set_status (v : string) (r : WorkflowRunRow) : WorkflowRunRow :=
  mkRow (run_id r) (deployment_id r) (workflow_name r) v (input_type r)
    (input_data r) (output_type r) (output_data r) (execution_context r) (error r)
    (error_code r) (created_at r) (updated_at r) (started_at r) (completed_at r).
Definition set_started_at (v : Z) (r : WorkflowRunRow) : WorkflowRunRow :=
  mkRow (run_id r) (deployment_id r) (workflow_name r) (status r) (input_type r)
    (input_data r) (output_type r) (output_data r) (execution_context r) (error r)
    (error_code r) (created_at r) (updated_at r) (Some v) (completed_at r).
Definition set_completed_at (v : Z) (r : WorkflowRunRow) : WorkflowRunRow :=
  mkRow (run_id r) (deployment_id r) (workflow_name r) (status r) (input_type r)
    (input_data r) (output_type r) (output_data r) (execution_context r) (error r)
    (error_code r) (created_at r) (updated_at r) (started_at r) (Some v).
Definition set_output (ref : R2.DataReference) (r : WorkflowRunRow) : WorkflowRunRow :=
  mkRow (run_id r) (deployment_id r) (workflow_name r) (status r) (input_type r)
    (input_data r) (Some (R2.type ref)) (Some (R2.data ref)) (execution_context r)
    (error r) (error_code r) (created_at r) (updated_at r) (started_at r) (completed_at r).
Definition set_execution_context (v : string) (r : WorkflowRunRow) : WorkflowRunRow :=
  mkRow (run_id r) (deployment_id r) (workflow_name r) (status r) (input_type r)
    (input_data r) (output_type r) (output_data r) (Some v) (error r)
    (error_code r) (created_at r) (updated_at r) (started_at r) (completed_at r).
Definition set_error (v : string) (r : WorkflowRunRow) : WorkflowRunRow :=
  mkRow (run_id r) (deployment_id r) (workflow_name r) (status r) (input_type r)
    (input_data r) (output_type r) (output_data r) (execution_context r) (Some v)
    (error_code r) (created_at r) (updated_at r) (started_at r) (completed_at r).
Definition set_error_code (v : string) (r : WorkflowRunRow) : WorkflowRunRow :=
  mkRow (run_id r) (deployment_id r) (workflow_name r) (status r) (input_type r)
    (input_data r) (output_type r) (output_data r) (execution_context r) (error r)
    (Some v) (created_at r) (updated_at r) (started_at r) (completed_at r).

(** CHECK (status IN (...)) of workflow_runs. *)
Definition status_allowed (v : string) : bool :=
  existsb (String.eqb v) ["pending"; "running"; "completed"; "failed"; "cancelled"; "paused"].
End RunRow.

Module StepRow.
Record WorkflowStepRow : Type := mkRow {
  step_id : string;
  run_id : string;
  step_name : string;
  status : string;
  input_type : R2.RefType;
  input_data : option string;
  output_type : option R2.RefType;
  output_data : option string;
  attempt : Z;
  error : option string;
  error_code : option string;
  created_at : Z;
  updated_at : Z;
  started_at : option Z;
  completed_at : option Z;
}.

Definition set_updated_at (v : Z) (r : WorkflowStepRow) : WorkflowStepRow :=
  mkRow (step_id r) (run_id r) (step_name r) (status r) (input_type r)
    (input_data r) (output_type r) (output_data r) (attempt r) (error r)
    (error_code r) (created_at r) v (started_at r) (completed_at r).
Definition set_status (v : string) (r : WorkflowStepRow) : WorkflowStepRow :=
  mkRow (step_id r) (run_id r) (step_name r) v (input_type r)
    (input_data r) (output_type r) (output_data r) (attempt r) (error r)
    (error_code r) (created_at r) (updated_at r) (started_at r) (completed_at r).
Definition set_started_at (v : Z) (r : WorkflowStepRow) : WorkflowStepRow :=
  mkRow (step_id r) (run_id r) (step_name r) (status r) (input_type r)
    (input_data r) (output_type r) (output_data r) (attempt r) (error r)
    (error_code r) (created_at r) (updated_at r) (Some v) (completed_at r).
Definition set_completed_at (v : Z) (r : WorkflowStepRow) : WorkflowStepRow :=
  mkRow (step_id r) (run_id r) (step_name r) (status r) (input_type r)
    (input_data r) (output_type r) (output_data r) (attempt r) (error r)
    (error_code r) (created_at r) (updated_at r) (started_at r) (Some v).
Definition set_output (ref : R2.DataReference) (r : WorkflowStepRow) : WorkflowStepRow :=
  mkRow (step_id r) (run_id r) (step_name r) (status r) (input_type r)
    (input_data r) (Some (R2.type ref)) (Some (R2.data ref)) (attempt r)
    (error r) (error_code r) (created_at r) (updated_at r) (started_at r) (completed_at r).
Definition set_attempt (v : Z) (r : WorkflowStepRow) : WorkflowStepRow :=
  mkRow (step_id r) (run_id r) (step_name r) (status r) (input_type r)
    (input_data r) (output_type r) (output_data r) v (error r)
    (error_code r) (created_at r) (updated_at r) (started_at r) (completed_at r).
Definition set_error (v : string) (r : WorkflowStepRow) : WorkflowStepRow :=
  mkRow (step_id r) (run_id r) (step_name r) (status r) (input_type r)
    (input_data r) (output_type r) (output_data r) (attempt r) (Some v)
    (error_code r) (created_at r) (updated_at r) (started_at r) (completed_at r).
Definition set_error_code (v : string) (r : WorkflowStepRow) : WorkflowStepRow :=
  mkRow (step_id r) (run_id r) (step_name r) (status r) (input_type r)
    (input_data r) (output_type r) (output_data r) (attempt r) (error r)
    (Some v) (created_at r) (updated_at r) (started_at r) (completed_at r).

(** CHECK (status IN (...)) of workflow_steps. *)
Definition status_allowed (v : string) : bool :=
  existsb (String.eqb v) ["pending"; "running"; "completed"; "failed"; "cancelled"].
End StepRow.

Module MessageRow.
Record QueueMessageRow : Type := mkRow {
  message_id : string;
  queue_name : string;
  deployment_id : option string;
  idempotency_key : option string;
  message_data : string;
  processed_at : option Z;
}.
End MessageRow.

(** What [env.QUEUE.send] is given. *)
Record QueueEnvelope : Type := mkEnvelope {
  env_messageId : string;
  env_queueName : string;
  env_message : json;
  env_deploymentId : option string;
  env_idempotencyKey : option string;
}.

(** The bindings the modelled code touches: the three tables of [DB] it
    uses, the bucket, and the messages sent to the queue so far. *)
Record Env : Type := mkEnv {
  workflow_runs : list RunRow.WorkflowRunRow;
  workflow_steps : list StepRow.WorkflowStepRow;
  queue_messages : list MessageRow.QueueMessageRow;
  WORKFLOW_STORAGE : gmap string string;
  QUEUE : list QueueEnvelope;
}.

Definition set_workflow_runs (t : list RunRow.WorkflowRunRow) (env : Env) : Env :=
  mkEnv t (workflow_steps env) (queue_messages env) (WORKFLOW_STORAGE env) (QUEUE env).
Definition set_workflow_steps (t : list StepRow.WorkflowStepRow) (env : Env) : Env :=
  mkEnv (workflow_runs env) t (queue_messages env) (WORKFLOW_STORAGE env) (QUEUE env).
Definition set_queue_messages (t : list MessageRow.QueueMessageRow) (env : Env) : Env :=
  mkEnv (workflow_runs env) (workflow_steps env) t (WORKFLOW_STORAGE env) (QUEUE env).
Definition set_WORKFLOW_STORAGE (b : gmap string string) (env : Env) : Env :=
  mkEnv (workflow_runs env) (workflow_steps env) (queue_messages env) b (QUEUE env).
Definition set_QUEUE (q : list QueueEnvelope) (env : Env) : Env :=
  mkEnv (workflow_runs env) (workflow_steps env) (queue_messages env) (WORKFLOW_STORAGE env) q.

(** A bucket operation run on [env.WORKFLOW_STORAGE]. *)
Definition on_bucket {A} (m : M (gmap string string) A) : M Env A := fun env =>
  let (r, b) := m (WORKFLOW_STORAGE env) in (r, set_WORKFLOW_STORAGE b env).

(** JavaScript truthiness of a value and of an optional string or
    number. *)
Definition truthy (v : json) : bool :=
  match v with
  | JNull => false
  | JBool b => b
  | JNum n => negb (n =? 0)
  | JStr EmptyString => false
  | _ => true
  end.

Definition truthy_string (s : option string) : option string :=
  match s with
  | Some (String c r) => Some (String c r)
  | _ => None
  end.

Definition truthy_number (n : option Z) : option Z :=
  match n with
  | Some 0 => None
  | other => other
  end.

Inductive ResolveData : Type := resolve_none | resolve_all.

(** Nothing stored, nothing sent. *)
Definition empty_env : Env :=
  {| workflow_runs := []; workflow_steps := []; queue_messages := [];
     WORKFLOW_STORAGE := ∅; QUEUE := [] |}.

(** Helpers shared by the repositories. *)

Fixpoint mapM_env {A B} (f : A -> M Env B) (l : list A) : M Env (list B) :=
  match l with
  | [] => ret []
  | x :: r => bind (f x) (fun y => bind (mapM_env f r) (fun ys => ret (y :: ys)))
  end.

(** ORDER BY, as a stable insertion sort on a "sorts no later than"
    test. *)
Fixpoint insert_by {A} (before : A -> A -> bool) (x : A) (l : list A) : list A :=
  match l with
  | [] => [x]
  | y :: r => if before x y then x :: y :: r else y :: insert_by before x r
  end.

Definition order_by {A} (before : A -> A -> bool) (l : list A) : list A :=
  foldr (insert_by before) [] l.

(** Every element stands in [R] to each element after it. *)
Fixpoint ordered {A} (R : A -> A -> bool) (l : list A) : bool :=
  match l with
  | [] => true
  | x :: r => forallb (R x) r && ordered R r
  end.

(** LIMIT n, when the query has the clause: a negative n is no limit. *)
Definition sql_limit {A} (n : option Z) (l : list A) : list A :=
  match n with
  | None => l
  | Some k => if 0 <=? k then take (Z.to_nat k) l else l
  end.

Definition all_clauses {A} (clauses : list (A -> A)) (row : A) : A :=
  fold_left (fun r f => f r) clauses row.

(** ** The run repository (src/storage/runs.ts) *)

Module Runs.
Import RunRow R2 Pagination.

Record WorkflowRun : Type := mkRun {
  runId : string;
  deploymentId : string;
  workflowName : string;
  run_status : string;
  input : json;
  output : option json;
  executionContext : option json;
  run_error : option string;
  errorCode : option string;
  createdAt : Z;
  updatedAt : Z;
  startedAt : option Z;
  completedAt : option Z;
}.

#[global] Instance WorkflowRun_ids : HasIds WorkflowRun := {|
  get_runId r := Some (runId r);
  get_stepId _ := None;
  get_eventId _ := None;
  get_hookId _ := None;
|}.

Record CreateWorkflowRunRequest : Type := mkCreate {
  new_deploymentId : string;
  new_workflowName : string;
  new_input : json;
  new_executionContext : option json;
}.

Record UpdateWorkflowRunRequest : Type := mkUpdate {
  upd_status : option string;
  upd_output : option json;
  upd_executionContext : option json;
  upd_error : option string;
  upd_errorCode : option string;
}.

Record ListWorkflowRunsParams : Type := mkList {
  by_workflowName : option string;
  by_status : option string;
  pagination : option PaginationOptions;
  resolveData : option ResolveData;
}.

Section RunStorage.
(** [parseInt(env.LARGE_DATA_THRESHOLD || '10240', 10)], an integer. *)
Variable threshold : Z.

Definition rowToRun (row : WorkflowRunRow) (resolve : option ResolveData)
  : M Env WorkflowRun :=
  (let* io :=
     match default resolve_all resolve with
     | resolve_all =>
         let inputRef := createDataReference (Some (input_type row)) (input_data row) in
         let outputRef := createDataReference (output_type row) (output_data row) in
         let* i := on_bucket (retrieveData inputRef) in
         let* o := on_bucket (retrieveData outputRef) in
         ret (if truthy i then i else JArr [], Some o)
     | resolve_none => ret (JArr [], None)
     end in
   let* context :=
     match truthy_string (execution_context row) with
     | Some text =>
         match JSON.parse text with
         | Some v => ret (Some v)
         | None => throw SyntaxError
         end
     | None => ret None
     end in
   ret {| runId := run_id row;
          deploymentId := deployment_id row;
          workflowName := workflow_name row;
          run_status := status row;
          input := fst io;
          output := snd io;
          executionContext := context;
          run_error := truthy_string (error row);
          errorCode := truthy_string (error_code row);
          createdAt := created_at row;
          updatedAt := updated_at row;
          startedAt := truthy_number (started_at row);
          completedAt := truthy_number (completed_at row) |})%js.

(** INSERT INTO workflow_runs: the primary key and the CHECK on status. *)
Definition insert_run (row : WorkflowRunRow) : M Env unit := fun env =>
  if existsb (fun r => String.eqb (run_id r) (run_id row)) (workflow_runs env)
     || negb (status_allowed (status row))
  then (Throw D1Error, env)
  else (Ok tt, set_workflow_runs (workflow_runs env ++ [row]) env).

(** UPDATE workflow_runs SET ... WHERE run_id = ?. *)
Definition update_run (id : string) (clauses : list (WorkflowRunRow -> WorkflowRunRow))
  : M Env unit := fun env =>
  let updated :=
    map (fun r => if String.eqb (run_id r) id then all_clauses clauses r else r)
      (workflow_runs env) in
  if forallb (fun r => status_allowed (status r)) updated
  then (Ok tt, set_workflow_runs updated env)
  else (Throw D1Error, env).

Definition get (id : string) (resolve : option ResolveData) : M Env WorkflowRun :=
  (let* rows := gets workflow_runs in
   match find (fun r => String.eqb (run_id r) id) rows with
   | None => throw (RunNotFound id)
   | Some row => rowToRun row resolve
   end)%js.

(** [runId] is what [generateRunId()] returned and [now] what
    [Date.now()] returned. *)
Definition create (runId : string) (now : Z) (data : CreateWorkflowRunRequest)
  : M Env WorkflowRun :=
  (let* inputRef := on_bucket (storeData (new_input data) "inputs" runId "input" threshold) in
   let contextJson :=
     match new_executionContext data with
     | Some v => if truthy v then Some (JSON.stringify v) else None
     | None => None
     end in
   do insert_run
        {| run_id := runId;
           deployment_id := new_deploymentId data;
           workflow_name := new_workflowName data;
           status := "pending";
           input_type := type inputRef;
           input_data := Some (R2.data inputRef);
           output_type := None;
           output_data := None;
           execution_context := contextJson;
           error := None;
           error_code := None;
           created_at := now;
           updated_at := now;
           started_at := None;
           completed_at := None |}
   then get runId None)%js.

Definition is_terminal (st : string) : bool :=
  existsb (String.eqb st) ["completed"; "failed"; "cancelled"].

Definition unset {A} (o : option A) : bool :=
  match o with Some _ => false | None => true end.

Definition update (now : Z) (id : string) (data : UpdateWorkflowRunRequest)
  : M Env WorkflowRun :=
  (let* current := get id None in
   let setClauses := [set_updated_at now] in
   let setClauses :=
     match upd_status data with
     | Some st =>
         setClauses ++ [set_status st]
           ++ (if String.eqb st "running" && unset (startedAt current)
               then [set_started_at now] else [])
           ++ (if is_terminal st && unset (completedAt current)
               then [set_completed_at now] else [])
     | None => setClauses
     end in
   let* setClauses :=
     match upd_output data with
     | Some out =>
         let* outputRef := on_bucket (storeData out "outputs" id "output" threshold) in
         ret (setClauses ++ [set_output outputRef])
     | None => ret setClauses
     end in
   let setClauses :=
     match upd_executionContext data with
     | Some v => setClauses ++ [set_execution_context (JSON.stringify v)]
     | None => setClauses
     end in
   let setClauses :=
     match upd_error data with
     | Some e => setClauses ++ [set_error e]
     | None => setClauses
     end in
   let setClauses :=
     match upd_errorCode data with
     | Some e => setClauses ++ [set_error_code e]
     | None => setClauses
     end in
   do update_run id setClauses
   then get id None)%js.

Definition fetchLimit (pg : option PaginationOptions) : option Z :=
  match truthy_number (option_limit pg) with
  | Some lim => Some (lim + 1)
  | None => None
  end.

(** ORDER BY created_at, run_id in the given direction. *)
Definition row_before (order : SortOrder) (a b : WorkflowRunRow) : bool :=
  match order with
  | asc => (created_at a <? created_at b)
           || ((created_at a =? created_at b) && String.leb (run_id a) (run_id b))
  | desc => (created_at b <? created_at a)
            || ((created_at a =? created_at b) && String.leb (run_id b) (run_id a))
  end.

Definition matches (name st : option string) (r : WorkflowRunRow) : bool :=
  match truthy_string name with
  | Some n => String.eqb (workflow_name r) n
  | None => true
  end
  && match truthy_string st with
     | Some v => String.eqb (status r) v
     | None => true
     end.

(** The rows of the SELECT without its LIMIT. *)
Definition selected (name st : option string) (order : SortOrder)
  (rows : list WorkflowRunRow) : list WorkflowRunRow :=
  order_by (row_before order) (List.filter (matches name st) rows).

(** The conditions come to D1 as one text, [whereClauses.join(' AND ')],
    and the fragment of the cursor begins with AND itself. *)
Definition list (params : option ListWorkflowRunsParams)
  : M Env (PaginatedResponse WorkflowRun) :=
  let name := match params with Some p => by_workflowName p | None => None end in
  let st := match params with Some p => by_status p | None => None end in
  let pg := match params with Some p => pagination p | None => None end in
  let resolve := match params with Some p => resolveData p | None => None end in
  let whereClauses := ["1=1"%string] in
  let whereClauses :=
    match truthy_string name with
    | Some _ => whereClauses ++ ["workflow_name = ?"%string]
    | None => whereClauses
    end in
  let whereClauses :=
    match truthy_string st with
    | Some _ => whereClauses ++ ["status = ?"%string]
    | None => whereClauses
    end in
  let order := default desc (match pg with Some o => sortOrder o | None => None end) in
  match buildCursorWhereClause (match pg with Some o => cursor o | None => None end)
          "created_at" "run_id" order with
  | Throw e => throw e
  | Ok cursorClause =>
      let whereClauses :=
        match clause cursorClause with
        | EmptyString => whereClauses
        | text => whereClauses ++ [text]
        end in
      if where_parses whereClauses then
        (let* rows := gets workflow_runs in
         let results :=
           sql_limit (truthy_number (fetchLimit pg)) (selected name st order rows) in
         let* runs := mapM_env (fun row => rowToRun row resolve) results in
         ret (createPaginatedResponse runs pg createdAt))%js
      else throw D1Error
  end.

Definition status_only (st : string) : UpdateWorkflowRunRequest :=
  {| upd_status := Some st; upd_output := None; upd_executionContext := None;
     upd_error := None; upd_errorCode := None |}.

Definition cancel (now : Z) (id : string) (resolve : option ResolveData)
  : M Env WorkflowRun :=
  (do update now id (status_only "cancelled") then get id resolve)%js.

Definition pause (now : Z) (id : string) (resolve : option ResolveData)
  : M Env WorkflowRun :=
  (do update now id (status_only "paused") then get id resolve)%js.

Definition resume (now : Z) (id : string) (resolve : option ResolveData)
  : M Env WorkflowRun :=
  (do update now id (status_only "running") then get id resolve)%js.

End RunStorage.

(** What [rowToRun] resolves from the payload columns of a row. *)
Definition resolved (row : WorkflowRunRow) (resolve : option ResolveData)
  (bucket : gmap string string) : Result (json * option json * option json) :=
  match
    match default resolve_all resolve with
    | resolve_all =>
        match fst (retrieveData (createDataReference (Some (input_type row)) (input_data row)) bucket) with
        | Throw e => Throw e
        | Ok i =>
            match fst (retrieveData (createDataReference (output_type row) (output_data row)) bucket) with
            | Throw e => Throw e
            | Ok o => Ok (if truthy i then i else JArr [], Some o)
            end
        end
    | resolve_none => Ok (JArr [], None)
    end
  with
  | Throw e => Throw e
  | Ok (i, o) =>
      match truthy_string (execution_context row) with
      | Some text =>
          match JSON.parse text with
          | Some v => Ok (i, o, Some v)
          | None => Throw SyntaxError
          end
      | None => Ok (i, o, None)
      end
  end.

Definition run_of (row : WorkflowRunRow) (p : json * option json * option json) : WorkflowRun :=
  {| runId := run_id row;
     deploymentId := deployment_id row;
     workflowName := workflow_name row;
     run_status := status row;
     input := fst (fst p);
     output := snd (fst p);
     executionContext := snd p;
     run_error := truthy_string (error row);
     errorCode := truthy_string (error_code row);
     createdAt := created_at row;
     updatedAt := updated_at row;
     startedAt := truthy_number (started_at row);
     completedAt := truthy_number (completed_at row) |}.

Definition runs_checked (env : Env) : Prop :=
  forallb (fun r => status_allowed (status r)) (workflow_runs env) = true.

(** The SET list of an update that only carries a status. *)
Definition status_clauses (now : Z) (st : string) (current : WorkflowRun)
  : Datatypes.list (WorkflowRunRow -> WorkflowRunRow) :=
  [set_updated_at now; set_status st]
    ++ (if String.eqb st "running" && unset (startedAt current)
        then [set_started_at now] else [])
    ++ (if is_terminal st && unset (completedAt current)
        then [set_completed_at now] else []).


Definition with_limit (n : option Z) (cur : option string) (order : option SortOrder)
  (name st : option string) (resolve : option ResolveData) : option ListWorkflowRunsParams :=
  Some {| by_workflowName := name; by_status := st;
          pagination := Some {| limit := n; cursor := cur; sortOrder := order |};
          resolveData := resolve |}.

(** A table with one pending run, and a request. *)
Definition one_run : Env :=
  {| workflow_runs :=
       [ mkRow "wrun_a" "dpl_1" "checkout" "pending" R2.inline (Some "[1]"%string)
           None None None None None 1000 1000 None None ];
     workflow_steps := []; queue_messages := []; WORKFLOW_STORAGE := ∅; QUEUE := [] |}.

Definition a_request : CreateWorkflowRunRequest :=
  {| new_deploymentId := "dpl_1"; new_workflowName := "checkout";
     new_input := JArr [JNum 2]; new_executionContext := None |}.

(** Three runs created at 1000, 2000 and 3000. *)
Definition three_runs : Env :=
  {| workflow_runs :=
       [ mkRow "wrun_a" "dpl_1" "checkout" "completed" inline (Some "[1]"%string)
           None None None None None 1000 1900 (Some 1100) (Some 1900);
         mkRow "wrun_b" "dpl_1" "checkout" "running" inline (Some "[2]"%string)
           None None None None None 2000 2100 (Some 2100) None;
         mkRow "wrun_c" "dpl_1" "checkout" "pending" inline (Some "[3]"%string)
           None None None None None 3000 3000 None None ];
     workflow_steps := []; queue_messages := []; WORKFLOW_STORAGE := ∅; QUEUE := [] |}.

End Runs.

(** ** The step repository (src/storage/steps.ts) *)

Module Steps.
Import StepRow R2.

Record Step : Type := mkStep {
  stepId : string;
  runId : string;
  stepName : string;
  step_status : string;
  input : json;
  output : option json;
  step_attempt : Z;
  step_error : option string;
  errorCode : option string;
  createdAt : Z;
  updatedAt : Z;
  startedAt : option Z;
  completedAt : option Z;
}.

#[global] Instance Step_ids : Pagination.HasIds Step := {|
  Pagination.get_runId s := Some (runId s);
  Pagination.get_stepId s := Some (stepId s);
  Pagination.get_eventId _ := None;
  Pagination.get_hookId _ := None;
|}.

Record UpdateStepRequest : Type := mkUpdate {
  upd_status : option string;
  upd_output : option json;
  upd_attempt : option Z;
  upd_error : option string;
  upd_errorCode : option string;
}.

Record CreateStepRequest : Type := mkCreate {
  new_stepId : string;
  new_stepName : string;
  new_input : json;
}.

Record ListWorkflowRunStepsParams : Type := mkList {
  of_runId : string;
  pagination : option Pagination.PaginationOptions;
  resolveData : option ResolveData;
}.

Section StepStorage.
Variable threshold : Z.

Definition rowToStep (row : WorkflowStepRow) (resolve : option ResolveData)
  : M Env Step :=
  (let* io :=
     match default resolve_all resolve with
     | resolve_all =>
         let inputRef := createDataReference (Some (input_type row)) (input_data row) in
         let outputRef := createDataReference (output_type row) (output_data row) in
         let* i := on_bucket (retrieveData inputRef) in
         let* o := on_bucket (retrieveData outputRef) in
         ret (if truthy i then i else JArr [], Some o)
     | resolve_none => ret (JArr [], None)
     end in
   ret {| stepId := step_id row;
          runId := run_id row;
          stepName := step_name row;
          step_status := status row;
          input := fst io;
          output := snd io;
          step_attempt := attempt row;
          step_error := truthy_string (error row);
          errorCode := truthy_string (error_code row);
          createdAt := created_at row;
          updatedAt := updated_at row;
          startedAt := truthy_number (started_at row);
          completedAt := truthy_number (completed_at row) |})%js.

Definition get (runId : option string) (stepId : string) (resolve : option ResolveData)
  : M Env Step :=
  (let* rows := gets workflow_steps in
   match find (fun r => String.eqb (step_id r) stepId) rows with
   | None => throw (StepNotFound stepId)
   | Some result =>
       match truthy_string runId with
       | Some rid =>
           if String.eqb (run_id result) rid then rowToStep result resolve
           else throw (StepNotOwned stepId rid)
       | None => rowToStep result resolve
       end
   end)%js.

(** UPDATE workflow_steps SET ... WHERE step_id = ?. *)
Definition update_step (id : string) (clauses : list (WorkflowStepRow -> WorkflowStepRow))
  : M Env unit := fun env =>
  let updated :=
    map (fun r => if String.eqb (step_id r) id then all_clauses clauses r else r)
      (workflow_steps env) in
  if forallb (fun r => status_allowed (status r)) updated
  then (Ok tt, set_workflow_steps updated env)
  else (Throw D1Error, env).

Definition stamps_completion (st : string) : bool :=
  existsb (String.eqb st) ["completed"; "failed"].

Definition unset {A} (o : option A) : bool :=
  match o with Some _ => false | None => true end.

Definition update (now : Z) (runId stepId : string) (data : UpdateStepRequest)
  : M Env Step :=
  (let* current := get (Some runId) stepId None in
   let setClauses := [set_updated_at now] in
   let setClauses :=
     match upd_status data with
     | Some st =>
         setClauses ++ [set_status st]
           ++ (if String.eqb st "running" && unset (startedAt current)
               then [set_started_at now] else [])
           ++ (if stamps_completion st && unset (completedAt current)
               then [set_completed_at now] else [])
     | None => setClauses
     end in
   let* setClauses :=
     match upd_output data with
     | Some out =>
         let* outputRef := on_bucket (storeData out "step-outputs" stepId "output" threshold) in
         ret (setClauses ++ [set_output outputRef])
     | None => ret setClauses
     end in
   let setClauses :=
     match upd_attempt data with
     | Some a => setClauses ++ [set_attempt a]
     | None => setClauses
     end in
   let setClauses :=
     match upd_error data with
     | Some e => setClauses ++ [set_error e]
     | None => setClauses
     end in
   let setClauses :=
     match upd_errorCode data with
     | Some e => setClauses ++ [set_error_code e]
     | None => setClauses
     end in
   do update_step stepId setClauses
   then get (Some runId) stepId None)%js.

(** INSERT INTO workflow_steps: the primary key, the CHECK on status
    and the foreign key to workflow_runs, which D1 enforces. *)
Definition insert_step (row : WorkflowStepRow) : M Env unit := fun env =>
  if existsb (fun r => String.eqb (step_id r) (step_id row)) (workflow_steps env)
     || negb (status_allowed (status row))
     || negb (existsb (fun r => String.eqb (RunRow.run_id r) (run_id row)) (workflow_runs env))
  then (Throw D1Error, env)
  else (Ok tt, set_workflow_steps (workflow_steps env ++ [row]) env).

(** [now] is what [Date.now()] returned. *)
Definition create (now : Z) (runId : string) (data : CreateStepRequest) : M Env Step :=
  (let* inputRef :=
     on_bucket (storeData (new_input data) "step-inputs" (new_stepId data) "input" threshold) in
   do insert_step
        {| step_id := new_stepId data;
           run_id := runId;
           step_name := new_stepName data;
           status := "pending";
           input_type := type inputRef;
           input_data := Some (R2.data inputRef);
           output_type := None;
           output_data := None;
           attempt := 1;
           error := None;
           error_code := None;
           created_at := now;
           updated_at := now;
           started_at := None;
           completed_at := None |}
   then get (Some runId) (new_stepId data) None)%js.

Definition fetchLimit (pg : option Pagination.PaginationOptions) : option Z :=
  match truthy_number (Pagination.option_limit pg) with
  | Some lim => Some (lim + 1)
  | None => None
  end.

(** ORDER BY created_at, step_id in the given direction. *)
Definition row_before (order : Pagination.SortOrder) (a b : WorkflowStepRow) : bool :=
  match order with
  | Pagination.asc =>
      (created_at a <? created_at b)
      || ((created_at a =? created_at b) && String.leb (step_id a) (step_id b))
  | Pagination.desc =>
      (created_at b <? created_at a)
      || ((created_at a =? created_at b) && String.leb (step_id b) (step_id a))
  end.

(** The rows of the SELECT without its LIMIT: WHERE run_id = ?. *)
Definition selected (runId : string) (order : Pagination.SortOrder)
  (rows : list WorkflowStepRow) : list WorkflowStepRow :=
  order_by (row_before order) (List.filter (fun r => String.eqb (run_id r) runId) rows).

Definition list (params : ListWorkflowRunStepsParams)
  : M Env (Pagination.PaginatedResponse Step) :=
  let pg := pagination params in
  let whereClauses := ["run_id = ?"%string] in
  let order :=
    default Pagination.desc
      (match pg with Some o => Pagination.sortOrder o | None => None end) in
  match Pagination.buildCursorWhereClause
          (match pg with Some o => Pagination.cursor o | None => None end)
          "created_at" "step_id" order with
  | Throw e => throw e
  | Ok cursorClause =>
      let whereClauses :=
        match Pagination.clause cursorClause with
        | EmptyString => whereClauses
        | text => whereClauses ++ [text]
        end in
      if Pagination.where_parses whereClauses then
        (let* rows := gets workflow_steps in
         let results :=
           sql_limit (truthy_number (fetchLimit pg))
             (selected (of_runId params) order rows) in
         let* steps := mapM_env (fun row => rowToStep row (resolveData params)) results in
         ret (Pagination.createPaginatedResponse steps pg createdAt))%js
      else throw D1Error
  end.

End StepStorage.

(** What [rowToStep] resolves from the payload columns of a row. *)
Definition resolved (row : WorkflowStepRow) (resolve : option ResolveData)
  (bucket : gmap string string) : Result (json * option json) :=
  match default resolve_all resolve with
  | resolve_all =>
      match fst (retrieveData (createDataReference (Some (input_type row)) (input_data row)) bucket) with
      | Throw e => Throw e
      | Ok i =>
          match fst (retrieveData (createDataReference (output_type row) (output_data row)) bucket) with
          | Throw e => Throw e
          | Ok o => Ok (if truthy i then i else JArr [], Some o)
          end
      end
  | resolve_none => Ok (JArr [], None)
  end.

Definition step_of (row : WorkflowStepRow) (p : json * option json) : Step :=
  {| stepId := step_id row;
     runId := run_id row;
     stepName := step_name row;
     step_status := status row;
     input := fst p;
     output := snd p;
     step_attempt := attempt row;
     step_error := truthy_string (error row);
     errorCode := truthy_string (error_code row);
     createdAt := created_at row;
     updatedAt := updated_at row;
     startedAt := truthy_number (started_at row);
     completedAt := truthy_number (completed_at row) |}.

Definition status_only (st : string) : UpdateStepRequest :=
  {| upd_status := Some st; upd_output := None; upd_attempt := None;
     upd_error := None; upd_errorCode := None |}.

(** The run of [Runs.one_run] with one step, running since 1500. *)
Definition one_step : Env :=
  {| workflow_runs := workflow_runs Runs.one_run;
     workflow_steps :=
       [ mkRow "step_1" "wrun_a" "charge" "running" inline (Some "[]"%string)
           None None 1 None None 1200 1500 (Some 1500) None ];
     queue_messages := []; WORKFLOW_STORAGE := ∅; QUEUE := [] |}.

(** Three steps of the run of [Runs.one_run], created in the same
    millisecond. *)
Definition three_steps : Env :=
  {| workflow_runs := workflow_runs Runs.one_run;
     workflow_steps :=
       [ mkRow "step_1" "wrun_a" "reserve" "completed" inline (Some "[]"%string)
           None None 1 None None 1200 1300 (Some 1250) (Some 1300);
         mkRow "step_2" "wrun_a" "charge" "running" inline (Some "[]"%string)
           None None 1 None None 1200 1400 (Some 1400) None;
         mkRow "step_3" "wrun_a" "ship" "pending" inline (Some "[]"%string)
           None None 1 None None 1200 1200 None None ];
     queue_messages := []; WORKFLOW_STORAGE := ∅; QUEUE := [] |}.

(** A page request for the steps of a run, payloads not resolved. *)
Definition page_request (rid : string) (n : Z) (cur : option string)
  : ListWorkflowRunStepsParams :=
  {| of_runId := rid;
     pagination := Some {| Pagination.limit := Some n; Pagination.cursor := cur;
                           Pagination.sortOrder := None |};
     resolveData := Some resolve_none |}.

End Steps.

(** ** The queue (src/queue/index.ts) *)

Module Queue.
Import MessageRow.

Record QueueOptions : Type := mkOpts {
  deploymentId : option string;
  idempotencyKey : option string;
}.

Definition opt_deploymentId (opts : option QueueOptions) : option string :=
  match opts with Some o => deploymentId o | None => None end.
Definition opt_idempotencyKey (opts : option QueueOptions) : option string :=
  match opts with Some o => idempotencyKey o | None => None end.

(** INSERT INTO queue_messages: [message_id] is the primary key. *)
Definition insert_message (row : QueueMessageRow) : M Env unit := fun env =>
  if existsb (fun r => String.eqb (message_id r) (message_id row)) (queue_messages env)
  then (Throw D1Error, env)
  else (Ok tt, set_queue_messages (queue_messages env ++ [row]) env).

Definition QUEUE_send (e : QueueEnvelope) : M Env unit :=
  modify (fun env => set_QUEUE (QUEUE env ++ [e]) env).

Definition key_matches (key queueName : string) (r : QueueMessageRow) : bool :=
  match idempotency_key r with
  | Some k => String.eqb k key && String.eqb (queue_name r) queueName
  | None => false
  end.

(** [messageId] is what [generateMessageId()] returned. *)
Definition queue (messageId : string) (queueName : string) (message : json)
  (opts : option QueueOptions) : M Env string :=
  let enqueue : M Env string :=
    (do insert_message
          {| message_id := messageId;
             queue_name := queueName;
             deployment_id := truthy_string (opt_deploymentId opts);
             idempotency_key := truthy_string (opt_idempotencyKey opts);
             message_data := JSON.stringify message;
             processed_at := None |}
     then do QUEUE_send
          {| env_messageId := messageId;
             env_queueName := queueName;
             env_message := message;
             env_deploymentId := opt_deploymentId opts;
             env_idempotencyKey := opt_idempotencyKey opts |}
     then ret messageId)%js in
  match truthy_string (opt_idempotencyKey opts) with
  | Some key =>
      (let* rows := gets queue_messages in
       match find (key_matches key queueName) rows with
       | Some existing => ret (message_id existing)
       | None => enqueue
       end)%js
  | None => enqueue
  end.

(** Options that carry an idempotency key. *)
Definition keyed (d : option string) (key : string) : option QueueOptions :=
  Some {| deploymentId := d; idempotencyKey := Some key |}.

(** The primary key of queue_messages. *)
Definition ids_unique (env : Env) : Prop :=
  NoDup (map message_id (queue_messages env)).

(** What a handler is told about a message. *)
Record Meta : Type := mkMeta {
  attempt : Z;
  meta_queueName : string;
  meta_messageId : string;
}.

(** The handler is the caller's code, run on the bindings: it resolves
    to [undefined] ([None]) or to [{ timeoutSeconds }] ([Some]), or it
    throws. *)
Definition Handler : Type := json -> Meta -> M Env (option Z).

Definition set_processed_at (v : Z) (r : QueueMessageRow) : QueueMessageRow :=
  mkRow (message_id r) (queue_name r) (deployment_id r) (idempotency_key r)
    (message_data r) (Some v).

(** UPDATE queue_messages SET processed_at = ? WHERE message_id = ?. *)
Definition mark_processed (now : Z) (messageId : string) : M Env unit :=
  modify (fun env =>
            set_queue_messages
              (map (fun r => if String.eqb (message_id r) messageId
                             then set_processed_at now r else r)
                 (queue_messages env)) env).

(** The states of the bindings after a given one: the worker enqueues,
    with whatever arguments and whether the call returns or throws, it
    marks a message as processed, or it does something else, which
    leaves the message table as it is.  No statement of the worker
    deletes from queue_messages or writes another of its columns. *)
Inductive later (env : Env) : Env -> Prop :=
| later_now : later env env
| later_queue env' messageId queueName message opts :
    later env env' ->
    later env (snd (queue messageId queueName message opts env'))
| later_processed env' now messageId :
    later env env' ->
    later env (snd (mark_processed now messageId env'))
| later_other env' env'' :
    later env env' ->
    queue_messages env'' = queue_messages env' ->
    later env env''.

(** *** createQueueHandler: the HTTP handler *)

(** The body of the request as [req.json()] reads it. *)
Record HandlerBody : Type := mkBody {
  body_messageId : string;
  body_queueName : string;
  body_message : json;
  body_attempt : option Z;
}.

(** The text of a response: a literal, or
    [error instanceof Error ? error.message : 'Unknown error'] for the
    error that was caught. *)
Inductive ResponseText : Type :=
| Text (s : string)
| MessageOf (e : Exn).

(** [retry_after] is the number whose [toString()] is the value of the
    Retry-After header, when the response has one. *)
Record Response : Type := mkResponse {
  http_status : Z;
  http_text : ResponseText;
  retry_after : option Z;
}.

(** [body] is [None] when [req.json()] rejects; [now] is what
    [Date.now()] returns. *)
Definition createQueueHandler (queueNamePrefix : string) (handler : Handler)
  (now : Z) (body : option HandlerBody) : M Env Response := fun env =>
  match body with
  | None => (Ok (mkResponse 500 (MessageOf SyntaxError) None), env)
  | Some b =>
      if negb (String.prefix queueNamePrefix (body_queueName b)) then
        (Ok (mkResponse 400 (Text "Invalid queue name prefix") None), env)
      else
        match handler (body_message b)
                {| attempt := default 1 (truthy_number (body_attempt b));
                   meta_queueName := body_queueName b;
                   meta_messageId := body_messageId b |} env with
        | (Throw e, env') => (Ok (mkResponse 500 (MessageOf e) None), env')
        | (Ok (Some timeoutSeconds), env') =>
            (Ok (mkResponse 503 (Text "Timeout requested") (Some timeoutSeconds)), env')
        | (Ok None, env') =>
            (Ok (mkResponse 200 (Text "OK") None),
             snd (mark_processed now (body_messageId b) env'))
        end
  end.

(** *** createQueueConsumer: the batch consumer *)

(** A message of a batch: its body and the platform's delivery count. *)
Record BatchMessage : Type := mkMessage {
  msg_messageId : string;
  msg_queueName : string;
  msg_message : json;
  msg_attempts : Z;
}.

(** [msg.ack()] and [msg.retry()]. *)
Inductive Settlement : Type := Ack | Retry.

(** The consumer runs on the bindings and on the platform's record of
    the calls made on the messages of the batch, each known by its
    position. *)
Record Consumer : Type := mkConsumer {
  bindings : Env;
  settled : list (nat * Settlement);
}.

Definition settle (i : nat) (s : Settlement) (env : Env) (c : Consumer) : Consumer :=
  {| bindings := env; settled := settled c ++ [(i, s)] |}.

(** One turn of the loop on the message at position [i]; [now] is what
    [Date.now()] returns in it. *)
Definition consume (handler : Handler) (i : nat) (msg : BatchMessage) (now : Z)
  (c : Consumer) : Consumer :=
  match handler (msg_message msg)
          {| attempt := msg_attempts msg;
             meta_queueName := msg_queueName msg;
             meta_messageId := msg_messageId msg |} (bindings c) with
  | (Throw _, env') => settle i Retry env' c
  | (Ok (Some _), env') => settle i Retry env' c
  | (Ok None, env') =>
      settle i Ack (snd (mark_processed now (msg_messageId msg) env')) c
  end.

(** The loop over [batch.messages], from position [i]; [clock j] is the
    time in the turn of the message at position [j]. *)
Fixpoint consume_from (handler : Handler) (clock : nat -> Z) (i : nat)
  (batch : list BatchMessage) (c : Consumer) : Consumer :=
  match batch with
  | [] => c
  | msg :: rest =>
      consume_from handler clock (S i) rest (consume handler i msg (clock i) c)
  end.

Definition createQueueConsumer (handler : Handler) (clock : nat -> Z)
  (batch : list BatchMessage) : M Consumer unit := fun c =>
  (Ok tt, consume_from handler clock 0 batch c).

(** A handler that leaves the message table alone. *)
Definition keeps_messages (handler : Handler) : Prop :=
  forall message meta env,
    queue_messages (snd (handler message meta env)) = queue_messages env.

(** The message at position [i] was acknowledged. *)
Definition acked (c : Consumer) (batch : list BatchMessage) (messageId : string) : Prop :=
  exists i msg, In (i, Ack) (settled c) /\ batch !! i = Some msg /\ msg_messageId msg = messageId.

(** The same row, but for [processed_at]. *)
Definition same_message (r r' : QueueMessageRow) : Prop :=
  message_id r' = message_id r /\ queue_name r' = queue_name r /\
  deployment_id r' = deployment_id r /\ idempotency_key r' = idempotency_key r /\
  message_data r' = message_data r.

(** A handler that acknowledges every message whose body is not null,
    asks for a delay on null, and fails on none. *)
Definition sample_handler : Handler := fun message _ =>
  match message with
  | JNull => ret (Some 30)
  | _ => ret None
  end.

(** Two messages in the table, none processed. *)
Definition two_messages : Env :=
  {| workflow_runs := []; workflow_steps := [];
     queue_messages :=
       [ mkRow "msg_1" "__wkf_step_charge" None None "1" None;
         mkRow "msg_2" "__wkf_step_charge" None None "null" None ];
     WORKFLOW_STORAGE := ∅; QUEUE := [] |}.

End Queue.

(** ** The hook repository (src/storage/hooks.ts) *)

Module HookRow.
Record WorkflowHookRow : Type := mkRow {
  hook_id : string;
  run_id : string;
  token : string;
  owner_id : string;
  project_id : string;
  environment : string;
  metadata : option string;
  created_at : Z;
}.
End HookRow.

Module Hooks.
Import HookRow.

(** The tables the repository reads and writes: workflow_hooks, and
    workflow_runs, which its foreign key refers to. *)
Record Tables : Type := mkTables {
  runs : list RunRow.WorkflowRunRow;
  workflow_hooks : list WorkflowHookRow;
}.

Definition set_workflow_hooks (t : list WorkflowHookRow) (db : Tables) : Tables :=
  {| runs := runs db; workflow_hooks := t |}.

(** What the repository throws: its own two errors, by their message,
    or an error of the platform. *)
Inductive Failure : Type :=
| HookNotFound (hookId : string)           (* Error(`Hook not found: ${hookId}`) *)
| HookNotFoundForToken (token : string)    (* Error(`Hook not found for token: ${token}`) *)
| Thrown (e : Exn).

Inductive Outcome (A : Type) : Type :=
| Returned (a : A)
| Failed (f : Failure).
Arguments Returned {A} a.
Arguments Failed {A} f.

Record Hook : Type := mkHook {
  hookId : string;
  runId : string;
  hook_token : string;
  ownerId : string;
  projectId : string;
  hook_environment : string;
  hook_metadata : option JSON.Parsed;
  createdAt : Z;
}.

Record CreateHookRequest : Type := mkCreate {
  new_hookId : string;
  new_token : string;
  new_metadata : option json;
}.

Section HookStorage.
(** The arguments of [createHookStorage]. *)
Variables (the_ownerId the_projectId the_environment : string).

Definition rowToHook (row : WorkflowHookRow) (resolve : option ResolveData)
  : Outcome Hook :=
  match
    match truthy_string (metadata row), default resolve_all resolve with
    | Some text, resolve_all =>
        match JSON.read text with
        | Some v => Returned (Some v)
        | None => Failed (Thrown SyntaxError)
        end
    | _, _ => Returned None
    end
  with
  | Failed f => Failed f
  | Returned md =>
      Returned {| hookId := hook_id row;
                  runId := run_id row;
                  hook_token := token row;
                  ownerId := owner_id row;
                  projectId := project_id row;
                  hook_environment := environment row;
                  hook_metadata := md;
                  createdAt := created_at row |}
  end.

Definition get (id : string) (resolve : option ResolveData) (db : Tables)
  : Outcome Hook * Tables :=
  match find (fun r => String.eqb (hook_id r) id) (workflow_hooks db) with
  | None => (Failed (HookNotFound id), db)
  | Some row => (rowToHook row resolve, db)
  end.

Definition getByToken (tok : string) (resolve : option ResolveData) (db : Tables)
  : Outcome Hook * Tables :=
  match find (fun r => String.eqb (token r) tok) (workflow_hooks db) with
  | None => (Failed (HookNotFoundForToken tok), db)
  | Some row => (rowToHook row resolve, db)
  end.

(** INSERT INTO workflow_hooks: the primary key, the UNIQUE token and
    the foreign key to workflow_runs. *)
Definition insert_hook (row : WorkflowHookRow) (db : Tables) : option Tables :=
  if existsb (fun r => String.eqb (hook_id r) (hook_id row)) (workflow_hooks db)
     || existsb (fun r => String.eqb (token r) (token row)) (workflow_hooks db)
     || negb (existsb (fun r => String.eqb (RunRow.run_id r) (run_id row)) (runs db))
  then None
  else Some (set_workflow_hooks (workflow_hooks db ++ [row]) db).

(** [now] is what [Date.now()] returned. *)
Definition create (now : Z) (rid : string) (data : CreateHookRequest)
  (resolve : option ResolveData) (db : Tables) : Outcome Hook * Tables :=
  let metadataJson :=
    match new_metadata data with
    | Some v => if truthy v then Some (JSON.stringify v) else None
    | None => None
    end in
  match insert_hook
          {| hook_id := new_hookId data;
             run_id := rid;
             token := new_token data;
             owner_id := the_ownerId;
             project_id := the_projectId;
             environment := the_environment;
             metadata := metadataJson;
             created_at := now |} db with
  | None => (Failed (Thrown D1Error), db)
  | Some db' => get (new_hookId data) resolve db'
  end.

(** DELETE FROM workflow_hooks WHERE hook_id = ?. *)
Definition delete_hook (id : string) (db : Tables) : Tables :=
  set_workflow_hooks
    (List.filter (fun r => negb (String.eqb (hook_id r) id)) (workflow_hooks db)) db.

Definition dispose (id : string) (resolve : option ResolveData) (db : Tables)
  : Outcome Hook * Tables :=
  match get id resolve db with
  | (Failed f, db') => (Failed f, db')
  | (Returned hook, db') => (Returned hook, delete_hook id db')
  end.

End HookStorage.

(** The primary key and the UNIQUE constraint of workflow_hooks. *)
Definition keys_unique (db : Tables) : Prop :=
  NoDup (map hook_id (workflow_hooks db)) /\ NoDup (map token (workflow_hooks db)).

(** One run and one hook on it. *)
Definition one_hook : Tables :=
  {| runs := workflow_runs Runs.one_run;
     workflow_hooks :=
       [ mkRow "hook_1" "wrun_a" "tok_1" "owner" "project" "production" None 1100 ] |}.

End Hooks.

(** ** The streamer (createStreamer) *)

Module Streamer.

Record StreamRow : Type := mkRow {
  stream_name : string;
  r2_key : string;
  is_closed : Z;
  created_at : Z;
  closed_at : option Z;
}.

(** The bindings the streamer uses: the streams table and the bucket,
    whose objects are byte strings here. *)
Record Store : Type := mkStore {
  streams : list StreamRow;
  objects : gmap string (list byte);
}.

Definition set_streams (t : list StreamRow) (st : Store) : Store :=
  {| streams := t; objects := objects st |}.
Definition set_objects (b : gmap string (list byte)) (st : Store) : Store :=
  {| streams := streams st; objects := b |}.

(** [string | Uint8Array | Buffer]. *)
Inductive Chunk : Type :=
| Text (s : string)
| OfBuffer (b : list byte)
| OfUint8Array (b : list byte).

(** UTF-8 of one code unit up to 0xFF: one byte below 0x80, two bytes
    from there. *)
Definition encode_unit (c : ascii) : list byte :=
  let n := N_of_ascii c in
  if (n <? 128)%N then [byte_of_ascii c]
  else [byte_of_ascii (ascii_of_N (192 + n / 64));
        byte_of_ascii (ascii_of_N (128 + n mod 64))].

(** [new TextEncoder().encode(s)]. *)
Definition TextEncoder_encode (s : string) : list byte :=
  flat_map encode_unit (list_ascii_of_string s).

Definition getStreamKey (name : string) : string := "streams/" +:+ name.

(** [now] is what [Date.now()] returns when the row is created. *)
Definition getOrCreateStreamMetadata (now : Z) (name : string) (st : Store)
  : StreamRow * Store :=
  match find (fun r => String.eqb (stream_name r) name) (streams st) with
  | Some existing => (existing, st)
  | None =>
      let r2Key := getStreamKey name in
      let row := {| stream_name := name; r2_key := r2Key; is_closed := 0;
                    created_at := now; closed_at := None |} in
      (row, set_streams (streams st ++ [row]) st)
  end.

(** What [writeToStream] does: it returns, or throws
    Error(`Stream ${name} is closed and cannot be written to`). *)
Inductive Written : Type :=
| Done
| StreamClosed (name : string).

(** The conversion of the chunk to a Uint8Array. *)
Definition chunk_data (chunk : Chunk) : list byte :=
  match chunk with
  | Text s => TextEncoder_encode s
  | OfBuffer b => b
  | OfUint8Array b => b
  end.

Definition writeToStream (now : Z) (name : string) (chunk : Chunk) (st : Store)
  : Written * Store :=
  let '(metadata, st1) := getOrCreateStreamMetadata now name st in
  if negb (is_closed metadata =? 0) then (StreamClosed name, st1)
  else
    let data := chunk_data chunk in
    let existingData :=
      match objects st1 !! r2_key metadata with
      | Some existing => existing
      | None => []
      end in
    let combined := existingData ++ data in
    (Done, set_objects (<[r2_key metadata := combined]> (objects st1)) st1).

(** [now] is the time of the first [Date.now()], when the row is
    created, and [now'] the time of the second, when it is closed. *)
Definition closeStream (now now' : Z) (name : string) (st : Store) : Store :=
  let '(metadata, st1) := getOrCreateStreamMetadata now name st in
  if negb (is_closed metadata =? 0) then st1
  else
    set_streams
      (map (fun r =>
              if String.eqb (stream_name r) name
              then {| stream_name := stream_name r; r2_key := r2_key r; is_closed := 1;
                      created_at := created_at r; closed_at := Some now' |}
              else r)
         (streams st1)) st1.

(** The loop of [start(controller)]: the chunks it enqueues, from the
    chunks the reader delivers.  [value.slice(offset)] is reached with
    0 < offset < value.byteLength. *)
Fixpoint enqueued (startIndex bytesRead : Z) (body : list (list byte)) : list (list byte) :=
  match body with
  | [] => []
  | value :: rest =>
      let byteLength := Z.of_nat (length value) in
      if bytesRead + byteLength <=? startIndex
      then enqueued startIndex (bytesRead + byteLength) rest
      else if bytesRead <? startIndex
      then drop (Z.to_nat (startIndex - bytesRead)) value
             :: enqueued startIndex (bytesRead + byteLength) rest
      else value :: enqueued startIndex (bytesRead + byteLength) rest
  end.

Section Reader.
(** The chunks in which the body of an object is delivered. *)
Variable body_chunks : list byte -> list (list byte).

(** The stream returned, as the list of its chunks.  The body of an
    object that [get] returns is never null. *)
Definition readFromStream (now : Z) (name : string) (startIndex : option Z) (st : Store)
  : list (list byte) * Store :=
  let '(metadata, st1) := getOrCreateStreamMetadata now name st in
  match objects st1 !! r2_key metadata with
  | None => ([], st1)
  | Some object =>
      let body := body_chunks object in
      if 0 <? default 0 startIndex
      then (enqueued (default 0 startIndex) 0 body, st1)
      else (body, st1)
  end.

End Reader.

(** Every row has the key [getOrCreateStreamMetadata] gives it. *)
Definition well_keyed (st : Store) : Prop :=
  Forall (fun r => r2_key r = getStreamKey (stream_name r)) (streams st).

(** The body in chunks of at most two bytes. *)
Fixpoint in_pairs (b : list byte) : list (list byte) :=
  match b with
  | x :: y :: r => [x; y] :: in_pairs r
  | [] => []
  | [x] => [[x]]
  end.

(** One open stream that holds five bytes. *)
Definition one_stream : Store :=
  {| streams := [ mkRow "log" "streams/log" 0 1000 None ];
     objects := {[ "streams/log"%string := [x68; x65; x6c; x6c; x6f]%byte ]} |}.

End Streamer.

(** ** The worker's router (src/index.ts) *)

Module Worker.

(** [s.split('/')]. *)
Fixpoint split_slash (s : string) : list string :=
  match s with
  | EmptyString => [EmptyString]
  | String c r =>
      if Ascii.eqb c "/" then EmptyString :: split_slash r
      else match split_slash r with
           | seg :: rest => String c seg :: rest
           | [] => [String c EmptyString]
           end
  end.

(** The regular expressions of the router are anchored sequences of
    literal text and of the group [([^/]+)]. *)
Inductive Piece : Type :=
| Lit (s : string)
| Segment.

(** [s] without the prefix [pre]. *)
Fixpoint strip (pre s : string) : option string :=
  match pre, s with
  | EmptyString, _ => Some s
  | String a pre', String b s' => if Ascii.eqb a b then strip pre' s' else None
  | String _ _, EmptyString => None
  end.

(** The longest run of characters other than '/' at the head of [s],
    and what follows it. *)
Fixpoint take_segment (s : string) : string * string :=
  match s with
  | EmptyString => (EmptyString, EmptyString)
  | String c r =>
      if Ascii.eqb c "/" then (EmptyString, s)
      else let '(seg, rest) := take_segment r in (String c seg, rest)
  end.

(** [s.match(/^...$/)] is not null.  A group is followed by '/' or by
    the end in every pattern of the router, so it can only match the
    longest run. *)
Fixpoint matches (pattern : list Piece) (s : string) : bool :=
  match pattern with
  | [] => String.eqb s EmptyString
  | Lit l :: pattern' =>
      match strip l s with
      | Some r => matches pattern' r
      | None => false
      end
  | Segment :: pattern' =>
      let '(seg, r) := take_segment s in
      negb (String.eqb seg EmptyString) && matches pattern' r
  end.

Definition startsWith (pre s : string) : bool :=
  match strip pre s with Some _ => true | None => false end.

(** The branch of [fetch] that answers a request, with the path
    parameters it reads ([None] for undefined). *)
Inductive Branch : Type :=
| CheckHealth
| GetAuthInfo
| RunsCreate
| RunsList
| RunsGet (runId : option string)
| RunsUpdate (runId : option string)
| RunsCancel (runId : option string)
| RunsPause (runId : option string)
| RunsResume (runId : option string)
| StepsCreate (runId : option string)
| StepsList (runId : option string)
| StepsGet (runId stepId : option string)
| StepsUpdate (runId stepId : option string)
| EventsCreate (runId : option string)
| EventsList (runId : option string)
| EventsByCorrelation
| HooksCreate (runId : option string)
| HooksList (runId : option string)
| HooksGet (hookId : option string)
| HooksDispose (hookId : option string)
| HooksByToken
| QueueSend
| QueueDeploymentId
| StreamWrite (streamName : option string)
| StreamClose (streamName : option string)
| StreamRead (streamName : option string)
| NotFound
| Banner.

(** [if (cond) { if (request.method === m) { ... return } ... }]: the
    branch of the first method that is the request's, if the condition
    holds; otherwise the code goes on to the next [if]. *)
Definition on (cond : bool) (methods : list (string * Branch)) (method : string)
  : option Branch :=
  if cond
  then option_map snd (find (fun mb => String.eqb method (fst mb)) methods)
  else None.

Fixpoint first_return (blocks : list (string -> option Branch)) (method : string)
  (otherwise : Branch) : Branch :=
  match blocks with
  | [] => otherwise
  | b :: blocks' =>
      match b method with
      | Some r => r
      | None => first_return blocks' method otherwise
      end
  end.

(** The body of [if (url.pathname.startsWith('/api/'))]. *)
Definition api (method pathname : string) : Branch :=
  let part n := nth_error (split_slash pathname) n in
  first_return
    [ on (String.eqb pathname "/api/runs")
        [("POST", RunsCreate); ("GET", RunsList)];
      on (matches [Lit "/api/runs/"; Segment] pathname)
        [("GET", RunsGet (part 3%nat)); ("PATCH", RunsUpdate (part 3%nat))];
      on (matches [Lit "/api/runs/"; Segment; Lit "/cancel"] pathname)
        [("POST", RunsCancel (part 3%nat))];
      on (matches [Lit "/api/runs/"; Segment; Lit "/pause"] pathname)
        [("POST", RunsPause (part 3%nat))];
      on (matches [Lit "/api/runs/"; Segment; Lit "/resume"] pathname)
        [("POST", RunsResume (part 3%nat))];
      on (matches [Lit "/api/runs/"; Segment; Lit "/steps"] pathname)
        [("POST", StepsCreate (part 3%nat)); ("GET", StepsList (part 3%nat))];
      on (matches [Lit "/api/runs/"; Segment; Lit "/steps/"; Segment] pathname)
        [("GET", StepsGet (part 3%nat) (part 5%nat));
         ("PATCH", StepsUpdate (part 3%nat) (part 5%nat))];
      on (matches [Lit "/api/runs/"; Segment; Lit "/events"] pathname)
        [("POST", EventsCreate (part 3%nat)); ("GET", EventsList (part 3%nat))];
      on (String.eqb pathname "/api/events/by-correlation")
        [("GET", EventsByCorrelation)];
      on (matches [Lit "/api/runs/"; Segment; Lit "/hooks"] pathname)
        [("POST", HooksCreate (part 3%nat)); ("GET", HooksList (part 3%nat))];
      on (matches [Lit "/api/hooks/"; Segment] pathname)
        [("GET", HooksGet (part 3%nat)); ("DELETE", HooksDispose (part 3%nat))];
      on (String.eqb pathname "/api/hooks/by-token")
        [("GET", HooksByToken)];
      on (String.eqb pathname "/api/queue")
        [("POST", QueueSend)];
      on (String.eqb pathname "/api/queue/deployment-id")
        [("GET", QueueDeploymentId)];
      on (matches [Lit "/api/streams/"; Segment; Lit "/write"] pathname)
        [("POST", StreamWrite (part 3%nat))];
      on (matches [Lit "/api/streams/"; Segment; Lit "/close"] pathname)
        [("POST", StreamClose (part 3%nat))];
      on (matches [Lit "/api/streams/"; Segment] pathname)
        [("GET", StreamRead (part 3%nat))] ]
    method NotFound.

(** [fetch], from the method and the path of the request to the branch
    that answers it. *)
Definition route (method pathname : string) : Branch :=
  if String.eqb pathname "/health" then CheckHealth
  else if String.eqb pathname "/auth" then GetAuthInfo
  else if startsWith "/api/" pathname then api method pathname
  else Banner.

End Worker.

(** ** The run coordinator (src/durable-objects/workflow-run.ts) *)

Module Coordinator.

(** What the three step fields hold at run time.  [initialize] builds
    them with [new Set()], but [persistState] writes [Array.from] of
    them, and [initialize] assigns what [storage.get] returns without
    turning the arrays back into sets. *)
Inductive StepColl : Type :=
| JSSet (s : gset string)
| JSArray (l : list string).

Record WorkflowState : Type := mkWorkflowState {
  runId : string;
  status : string;
  activeSteps : StepColl;
  completedSteps : StepColl;
  failedSteps : StepColl;
  metadata : gmap string json;
}.

(** [this.state.storage] holds at most the key 'state'; [workflowState]
    is the private field, [null] until [initialize]. *)
Record WorkflowRunObject : Type := mkObject {
  storage : option WorkflowState;
  workflowState : option WorkflowState;
}.

(** The constructor. *)
Definition new_object (stored : option WorkflowState) : WorkflowRunObject :=
  {| storage := stored; workflowState := None |}.

Definition set_workflowState (ws : option WorkflowState) (o : WorkflowRunObject) :=
  {| storage := storage o; workflowState := ws |}.
Definition set_storage (st : option WorkflowState) (o : WorkflowRunObject) :=
  {| storage := st; workflowState := workflowState o |}.

Definition set_status (s : string) (ws : WorkflowState) :=
  mkWorkflowState (runId ws) s (activeSteps ws) (completedSteps ws) (failedSteps ws) (metadata ws).
Definition set_activeSteps (c : StepColl) (ws : WorkflowState) :=
  mkWorkflowState (runId ws) (status ws) c (completedSteps ws) (failedSteps ws) (metadata ws).
Definition set_completedSteps (c : StepColl) (ws : WorkflowState) :=
  mkWorkflowState (runId ws) (status ws) (activeSteps ws) c (failedSteps ws) (metadata ws).
Definition set_failedSteps (c : StepColl) (ws : WorkflowState) :=
  mkWorkflowState (runId ws) (status ws) (activeSteps ws) (completedSteps ws) c (metadata ws).
Definition set_metadata (m : gmap string json) (ws : WorkflowState) :=
  mkWorkflowState (runId ws) (status ws) (activeSteps ws) (completedSteps ws) (failedSteps ws) m.

(** [Array.from(c)]. *)
Definition Array_from (c : StepColl) : StepColl :=
  match c with
  | JSSet s => JSArray (elements s)
  | JSArray l => JSArray l
  end.

(** [c.add(x)] and [c.delete(x)]: methods of a Set; an array has
    neither, so the call is a TypeError. *)
Definition coll_add (x : string) (c : StepColl) : option StepColl :=
  match c with
  | JSSet s => Some (JSSet ({[x]} ∪ s))
  | JSArray _ => None
  end.
Definition coll_delete (x : string) (c : StepColl) : option StepColl :=
  match c with
  | JSSet s => Some (JSSet (s ∖ {[x]}))
  | JSArray _ => None
  end.

Definition coll_elem (x : string) (c : StepColl) : Prop :=
  match c with
  | JSSet s => x ∈ s
  | JSArray l => x ∈ l
  end.

Definition serializable (ws : WorkflowState) : WorkflowState :=
  {| runId := runId ws; status := status ws;
     activeSteps := Array_from (activeSteps ws);
     completedSteps := Array_from (completedSteps ws);
     failedSteps := Array_from (failedSteps ws);
     metadata := metadata ws |}.

Definition persistState : M WorkflowRunObject unit := fun o =>
  match workflowState o with
  | None => (Ok tt, o)
  | Some ws => (Ok tt, set_storage (Some (serializable ws)) o)
  end.

Definition initialize (rid : string) : M WorkflowRunObject unit := fun o =>
  let loadedState := storage o in
  let o := set_workflowState loadedState o in
  match workflowState o with
  | Some _ => (Ok tt, o)
  | None =>
      persistState
        (set_workflowState
           (Some {| runId := rid; status := "pending";
                    activeSteps := JSSet ∅; completedSteps := JSSet ∅;
                    failedSteps := JSSet ∅; metadata := ∅ |}) o)
  end.

Definition updateWorkflowStatus (s : string) : M WorkflowRunObject unit := fun o =>
  match workflowState o with
  | None => (Throw NotInitialized, o)
  | Some ws => persistState (set_workflowState (Some (set_status s ws)) o)
  end.

Definition startStep (stepId : string) : M WorkflowRunObject unit := fun o =>
  match workflowState o with
  | None => (Throw NotInitialized, o)
  | Some ws =>
      match coll_add stepId (activeSteps ws) with
      | None => (Throw TypeError, o)
      | Some a => persistState (set_workflowState (Some (set_activeSteps a ws)) o)
      end
  end.

Definition completeStep (stepId : string) : M WorkflowRunObject unit := fun o =>
  match workflowState o with
  | None => (Throw NotInitialized, o)
  | Some ws =>
      match coll_delete stepId (activeSteps ws) with
      | None => (Throw TypeError, o)
      | Some a =>
          let ws := set_activeSteps a ws in
          let o := set_workflowState (Some ws) o in
          match coll_add stepId (completedSteps ws) with
          | None => (Throw TypeError, o)
          | Some c => persistState (set_workflowState (Some (set_completedSteps c ws)) o)
          end
      end
  end.

Definition failStep (stepId : string) : M WorkflowRunObject unit := fun o =>
  match workflowState o with
  | None => (Throw NotInitialized, o)
  | Some ws =>
      match coll_delete stepId (activeSteps ws) with
      | None => (Throw TypeError, o)
      | Some a =>
          let ws := set_activeSteps a ws in
          let o := set_workflowState (Some ws) o in
          match coll_add stepId (failedSteps ws) with
          | None => (Throw TypeError, o)
          | Some c => persistState (set_workflowState (Some (set_failedSteps c ws)) o)
          end
      end
  end.

Definition getState : M WorkflowRunObject (option WorkflowState) :=
  gets workflowState.

Definition canAcceptSteps : M WorkflowRunObject bool := fun o =>
  match workflowState o with
  | None => (Ok false, o)
  | Some ws => (Ok (String.eqb (status ws) "running" || String.eqb (status ws) "pending"), o)
  end.

(** [metadata] is an object literal: the names it inherits from
    [Object.prototype]. *)
Definition inherited : list string :=
  [ "constructor"; "__defineGetter__"; "__defineSetter__"; "hasOwnProperty";
    "__lookupGetter__"; "__lookupSetter__"; "isPrototypeOf"; "propertyIsEnumerable";
    "toString"; "valueOf"; "__proto__"; "toLocaleString" ]%string.

(** [metadata[key] = value] adds or replaces a member of the object,
    except for the key '__proto__': the assignment then calls the
    setter that [Object.prototype] has under that name, which the model
    does not follow. *)
Definition setMetadata (key : string) (value : json) : M WorkflowRunObject unit := fun o =>
  match workflowState o with
  | None => (Throw NotInitialized, o)
  | Some ws =>
      if String.eqb key "__proto__" then (Throw Unmodelled, o)
      else
        persistState
          (set_workflowState (Some (set_metadata (<[key:=value]> (metadata ws)) ws)) o)
  end.

(** The result is [None] for [undefined].  [metadata[key]] reads
    through the prototype: for a name that the object inherits and
    does not hold itself, the result is the inherited member, a function
    for all but '__proto__', which the model has no value for. *)
Definition getMetadata (key : string) : M WorkflowRunObject (option json) := fun o =>
  match workflowState o with
  | None => (Ok None, o)
  | Some ws =>
      match metadata ws !! key with
      | Some v => (Ok (Some v), o)
      | None =>
          if existsb (String.eqb key) inherited then (Throw Unmodelled, o)
          else (Ok None, o)
      end
  end.

(** A caller's sequence of step operations.  Each is a separate request
    (the [fetch] handler turns a throw into a 500 response), so the next
    one runs on the state the previous one left. *)
Inductive StepOp : Type :=
| StartStep (stepId : string)
| CompleteStep (stepId : string)
| FailStep (stepId : string).

Definition call (op : StepOp) : M WorkflowRunObject unit :=
  match op with
  | StartStep s => startStep s
  | CompleteStep s => completeStep s
  | FailStep s => failStep s
  end.

Fixpoint run_ops (ops : list StepOp) (o : WorkflowRunObject) : WorkflowRunObject :=
  match ops with
  | [] => o
  | op :: rest => run_ops rest (snd (call op o))
  end.

Definition colls_disjoint (a b : StepColl) : Prop :=
  forall x, coll_elem x a -> coll_elem x b -> False.

Definition state_disjoint (ws : WorkflowState) : Prop :=
  colls_disjoint (activeSteps ws) (completedSteps ws) /\
  colls_disjoint (activeSteps ws) (failedSteps ws) /\
  colls_disjoint (completedSteps ws) (failedSteps ws).

Definition step_sets_disjoint (o : WorkflowRunObject) : Prop :=
  match workflowState o with
  | None => True
  | Some ws => state_disjoint ws
  end.

(** The step fields hold Sets, as after [initialize] on empty storage. *)
Definition live_sets (ws : WorkflowState) : Prop :=
  (exists a, activeSteps ws = JSSet a) /\
  (exists c, completedSteps ws = JSSet c) /\
  (exists f, failedSteps ws = JSSet f).

Definition live (o : WorkflowRunObject) : Prop :=
  exists ws, workflowState o = Some ws /\ live_sets ws.

(** The operation's identifier is not in a set the operation leaves
    alone. *)
Definition op_admissible (op : StepOp) (o : WorkflowRunObject) : Prop :=
  match workflowState o with
  | None => True
  | Some ws =>
      match op with
      | StartStep s => ~ coll_elem s (completedSteps ws) /\ ~ coll_elem s (failedSteps ws)
      | CompleteStep s => ~ coll_elem s (failedSteps ws)
      | FailStep s => ~ coll_elem s (completedSteps ws)
      end
  end.

Fixpoint admissible (ops : list StepOp) (o : WorkflowRunObject) : Prop :=
  match ops with
  | [] => True
  | op :: rest => op_admissible op o /\ admissible rest (snd (call op o))
  end.

(** Every call that changes the coordinator, as the [fetch] handler
    dispatches them; a throw leaves the object as the call left it. *)
Inductive Call : Type :=
| Initialize (runId : string)
| UpdateWorkflowStatus (status : string)
| Step (op : StepOp)
| SetMetadata (key : string) (value : json).

Definition perform (c : Call) : M WorkflowRunObject unit :=
  match c with
  | Initialize rid => initialize rid
  | UpdateWorkflowStatus s => updateWorkflowStatus s
  | Step op => call op
  | SetMetadata k v => setMetadata k v
  end.

Fixpoint perform_all (cs : list Call) (o : WorkflowRunObject) : WorkflowRunObject :=
  match cs with
  | [] => o
  | c :: rest => perform_all rest (snd (perform c o))
  end.

(** The step fields hold arrays, as in everything [persistState]
    writes. *)
Definition array_fields (ws : WorkflowState) : Prop :=
  (exists a, activeSteps ws = JSArray a) /\
  (exists c, completedSteps ws = JSArray c) /\
  (exists f, failedSteps ws = JSArray f).

(** What is in memory is what is in storage. *)
Definition in_sync (o : WorkflowRunObject) : Prop :=
  match workflowState o with
  | None => True
  | Some ws => storage o = Some (serializable ws)
  end.

(** The invariant of a coordinator: storage holds arrays; memory holds
    Sets throughout or arrays throughout, and is what storage holds. *)
Definition coherent (o : WorkflowRunObject) : Prop :=
  (forall st, storage o = Some st -> array_fields st) /\
  (forall ws, workflowState o = Some ws ->
     (live_sets ws \/ array_fields ws) /\ storage o = Some (serializable ws)).

(** Membership is the same in two collections. *)
Definition same_members (a b : StepColl) : Prop :=
  forall x, coll_elem x a <-> coll_elem x b.

End Coordinator.

(** * Properties *)

(** ** btoa and atob *)

Section Base64Facts.
Import Base64.

Lemma triple_ind {A} (P : list A -> Prop) :
  P [] -> (forall a, P [a]) -> (forall a b, P [a; b]) ->
  (forall a b c l, P l -> P (a :: b :: c :: l)) ->
  forall l, P l.
Proof.
  intros H0 H1 H2 H3 l.
  assert (H : P l /\ (forall a, P (a :: l)) /\ (forall a b, P (a :: b :: l))).
  { induction l as [|x l (IH0 & IH1 & IH2)].
    - repeat split; auto.
    - repeat split; auto. }
  apply H.
Qed.

Lemma div_combine q r m : (r < m -> (q * m + r) / m = q)%N.
Proof. intros H. symmetry. apply (N.div_unique _ m q r); lia. Qed.

Lemma mod_combine q r m : (r < m -> (q * m + r) mod m = r)%N.
Proof. intros H. symmetry. apply (N.mod_unique _ m q r); lia. Qed.

Lemma div_bound a k m : (0 < k -> a < k * m -> a / k < m)%N.
Proof. intros. apply N.Div0.div_lt_upper_bound; lia. Qed.


Lemma bytes_of_sextets_sextets l :
  Forall is_byte l -> bytes_of_sextets (sextets l) = l.
Proof.
  unfold is_byte. induction l as [|a|a b|a b c l IH] using triple_ind; intros Hl.
  - reflexivity.
  - inversion_clear Hl. cbn.
    rewrite N.div_mul by lia.
    pose proof (N.div_mod a 4). f_equal. lia.
  - inversion_clear Hl as [|? ? Ha Hl']. inversion_clear Hl' as [|? ? Hb _]. cbn.
    rewrite div_combine by (apply div_bound; lia).
    rewrite mod_combine by (apply div_bound; lia).
    rewrite N.div_mul by lia.
    pose proof (N.div_mod a 4). pose proof (N.div_mod b 16).
    repeat f_equal; lia.
  - inversion_clear Hl as [|? ? Ha Hl']. inversion_clear Hl' as [|? ? Hb Hl''].
    inversion_clear Hl'' as [|? ? Hc Hl]. cbn [sextets bytes_of_sextets].
    rewrite IH by assumption.
    rewrite !div_combine by (apply div_bound; lia).
    rewrite !mod_combine by (apply div_bound; lia).
    pose proof (N.div_mod a 4). pose proof (N.div_mod b 16). pose proof (N.div_mod c 64).
    repeat f_equal; lia.
Qed.

Lemma sextets_bounded l : Forall is_byte l -> Forall is_sextet (sextets l).
Proof.
  unfold is_byte, is_sextet.
  induction l as [|a|a b|a b c l IH] using triple_ind; intros Hl.
  - constructor.
  - inversion_clear Hl. cbn. repeat constructor.
    + apply div_bound; lia.
    + pose proof (N.mod_upper_bound a 4). lia.
  - inversion_clear Hl as [|? ? Ha Hl']. inversion_clear Hl' as [|? ? Hb _]. cbn.
    pose proof (N.mod_upper_bound a 4). pose proof (N.mod_upper_bound b 16).
    assert (b / 16 < 16)%N by (apply div_bound; lia).
    repeat constructor; try lia. apply div_bound; lia.
  - inversion_clear Hl as [|? ? Ha Hl']. inversion_clear Hl' as [|? ? Hb Hl''].
    inversion_clear Hl'' as [|? ? Hc Hl]. cbn [sextets].
    pose proof (N.mod_upper_bound a 4). pose proof (N.mod_upper_bound b 16).
    pose proof (N.mod_upper_bound c 64).
    assert (b / 16 < 16)%N by (apply div_bound; lia).
    assert (c / 64 < 4)%N by (apply div_bound; lia).
    repeat constructor; try lia; [apply div_bound; lia | apply IH; assumption].
Qed.

Lemma index_of_char_of_index i : is_sextet i -> index_of_char (char_of_index i) = Some i.
Proof.
  unfold is_sextet. intros Hi.
  assert (Hall : forallb (fun k => match index_of_char (char_of_index (N.of_nat k)) with
                                   | Some j => N.eqb j (N.of_nat k)
                                   | None => false
                                   end) (seq 0 64) = true) by (vm_compute; reflexivity).
  rewrite forallb_forall in Hall.
  specialize (Hall (N.to_nat i)). rewrite N2Nat.id in Hall.
  destruct (index_of_char (char_of_index i)) as [j|].
  - f_equal. apply N.eqb_eq. apply Hall. apply in_seq. lia.
  - discriminate Hall. apply in_seq. lia.
Qed.

Lemma indices_chars sx : Forall is_sextet sx -> indices (map char_of_index sx) = Some sx.
Proof.
  induction 1 as [|i sx Hi _ IH]; [reflexivity|].
  cbn [indices map]. rewrite index_of_char_of_index, IH by assumption. reflexivity.
Qed.

Lemma char_of_index_plain i : plain (char_of_index i).
Proof.
  unfold char_of_index.
  assert (Hall : Forall plain ("A"%char :: alphabet)).
  { unfold plain. repeat constructor. }
  inversion_clear Hall as [|? ? HA Halpha].
  destruct (nth_in_or_default (N.to_nat i) alphabet "A"%char) as [Hin | ->]; [|exact HA].
  rewrite Forall_forall in Halpha. apply Halpha. apply list_elem_of_In, Hin.
Qed.

Lemma chars_plain sx : Forall plain (map char_of_index sx).
Proof. induction sx; constructor; [apply char_of_index_plain | assumption]. Qed.

Lemma padding_cases n :
  padding n = [] \/ padding n = ["="%char] \/ padding n = ["="%char; "="%char].
Proof. unfold padding. destruct (n mod 3)%nat as [|[|[|?]]]; auto. Qed.

Lemma filter_whitespace_chars cs n :
  Forall plain cs ->
  List.filter (fun c => negb (is_ascii_whitespace c)) (cs ++ padding n) = cs ++ padding n.
Proof.
  intros H. rewrite List.filter_app. f_equal.
  - induction H as [|c cs [Hc _] _ IH]; [reflexivity|].
    cbn [List.filter]. rewrite Hc. cbn. f_equal. exact IH.
  - destruct (padding_cases n) as [-> | [-> | ->]]; reflexivity.
Qed.

Lemma mod_shift k n : ((k + n) mod k = n mod k)%nat.
Proof.
  replace (k + n)%nat with (n + 1 * k)%nat by lia. apply Nat.Div0.mod_add.
Qed.

Lemma length_sextets l :
  ((length (sextets l) + length (padding (length l))) mod 4 = 0)%nat /\
  (length (sextets l) mod 4 <> 1)%nat.
Proof.
  induction l as [|a|a b|a b c l [IH1 IH2]] using triple_ind;
    try (cbn; split; [reflexivity | discriminate]).
  change (padding (length (a :: b :: c :: l))) with (padding (3 + length l)).
  replace (padding (3 + length l)) with (padding (length l))
    by (unfold padding; rewrite mod_shift; reflexivity).
  change (length (sextets (a :: b :: c :: l))) with (4 + length (sextets l))%nat.
  rewrite <- Nat.add_assoc, !mod_shift. split; assumption.
Qed.

Lemma strip_padding_chars cs n :
  Forall plain cs ->
  (length (cs ++ padding n) mod 4 = 0)%nat ->
  strip_padding (cs ++ padding n) = cs.
Proof.
  intros Hcs Hlen. unfold strip_padding. rewrite Hlen. cbn [Nat.eqb].
  rewrite rev_app_distr.
  assert (Hrev : Forall plain (rev cs)) by (apply Forall_rev, Hcs).
  destruct (padding_cases n) as [Hp | [Hp | Hp]]; rewrite Hp in *; cbn [rev app].
  - rewrite app_nil_r.
    destruct (rev cs) as [|c1 [|c2 r]] eqn:E; try reflexivity.
    inversion_clear Hrev as [|? ? [_ Hc1] _]. rewrite Hc1. reflexivity.
  - destruct (rev cs) as [|c2 r] eqn:E.
    + apply (f_equal (@rev ascii)) in E. rewrite rev_involutive in E. subst cs.
      cbn in Hlen. discriminate.
    + inversion_clear Hrev as [|? ? [_ Hc2] _]. cbn. rewrite Hc2.
      change (rev r ++ [c2]) with (rev (c2 :: r)). rewrite <- E. apply rev_involutive.
  - cbn. apply rev_involutive.
Qed.

Lemma bytes_are_bytes (cs : list ascii) : Forall is_byte (map N_of_ascii cs).
Proof. induction cs; constructor; [apply N_ascii_bounded | assumption]. Qed.

Lemma ascii_of_N_of_ascii (cs : list ascii) : map ascii_of_N (map N_of_ascii cs) = cs.
Proof.
  induction cs as [|c cs IH]; [reflexivity|].
  cbn. rewrite ascii_N_embedding, IH. reflexivity.
Qed.

Lemma atob_btoa s : atob (btoa s) = Some s.
Proof.
  unfold atob, btoa.
  set (bytes := map N_of_ascii (list_ascii_of_string s)).
  rewrite list_ascii_of_string_of_list_ascii.
  rewrite filter_whitespace_chars by apply chars_plain.
  destruct (length_sextets bytes) as [Hlen Hne].
  rewrite strip_padding_chars;
    [| apply chars_plain | rewrite length_app, length_map; exact Hlen].
  rewrite length_map.
  destruct (Nat.eqb_spec (length (sextets bytes) mod 4) 1) as [Heq|_]; [contradiction|].
  rewrite indices_chars by (apply sextets_bounded, bytes_are_bytes).
  rewrite bytes_of_sextets_sextets by apply bytes_are_bytes.
  unfold bytes. rewrite ascii_of_N_of_ascii, string_of_list_ascii_of_string. reflexivity.
Qed.

End Base64Facts.

(** ** JSON.stringify and JSON.parse *)

Section JSONFacts.
Import JSON.

Lemma append_cons c (a b : string) : String c a +:+ b = String c (a +:+ b).
Proof. reflexivity. Qed.

Lemma append_nil (b : string) : EmptyString +:+ b = b.
Proof. reflexivity. Qed.

Lemma append_nil_r (a : string) : a +:+ EmptyString = a.
Proof. induction a as [|x a IH]; [reflexivity|]. rewrite append_cons, IH. reflexivity. Qed.

Lemma append_assoc (a b c : string) : (a +:+ b) +:+ c = a +:+ (b +:+ c).
Proof.
  induction a as [|x a IH]; [reflexivity|].
  rewrite !append_cons, IH. reflexivity.
Qed.

Lemma length_append (a b : string) :
  String.length (a +:+ b) = (String.length a + String.length b)%nat.
Proof.
  induction a as [|x a IH]; [reflexivity|].
  rewrite append_cons. cbn [String.length]. rewrite IH. reflexivity.
Qed.

Lemma prefix_append a b : String.prefix a (a +:+ b) = true.
Proof.
  induction a as [|c a IH]; [destruct b; reflexivity|].
  rewrite append_cons. cbn [String.prefix]. destruct (ascii_dec c c); [exact IH | contradiction].
Qed.

Ltac shift_right :=
  repeat (rewrite append_assoc || rewrite append_cons || rewrite append_nil).

(** *** Strings *)

Lemma parse_escaped_char c X :
  parse_string_body (escape_char c +:+ X) = cons_char c (parse_string_body X).
Proof. destruct c as [[] [] [] [] [] [] [] []]; reflexivity. Qed.

Lemma parse_string_body_escape s rest :
  parse_string_body (escape s +:+ String dquote rest) = Some (s, rest).
Proof.
  induction s as [|c s IH].
  - reflexivity.
  - cbn [escape]. rewrite append_assoc, parse_escaped_char, IH. reflexivity.
Qed.

(** *** Numbers *)

Lemma ends_value_cases rest :
  ends_value rest = true ->
  rest = EmptyString \/ exists r, rest = String "," r \/ rest = String "]" r \/ rest = String "}" r.
Proof.
  destruct rest as [|c r]; [auto|]. cbn [ends_value]. intros H. right. exists r.
  destruct (Ascii.eqb_spec c ",") as [->|]; [auto|].
  destruct (Ascii.eqb_spec c "]") as [->|]; [auto|].
  destruct (Ascii.eqb_spec c "}") as [->|]; [auto|]. discriminate H.
Qed.

Lemma read_digits_print u rest :
  ends_value rest = true ->
  read_digits (NilEmpty.string_of_uint u +:+ rest) = (u, rest).
Proof.
  intros H. induction u; cbn [NilEmpty.string_of_uint];
    rewrite ?append_cons, ?append_nil; cbn [read_digits digit_of];
    try (rewrite IHu; reflexivity).
  destruct (ends_value_cases rest H) as [-> | (r & [-> | [-> | ->]])]; reflexivity.
Qed.

Lemma to_uint_no_leading_zero p : leading_zero (Pos.to_uint p) = false.
Proof.
  pose proof (DecimalPos.Unsigned.to_of (Pos.to_uint p)) as H.
  rewrite DecimalPos.Unsigned.of_to in H. cbn in H.
  pose proof (DecimalPos.Unsigned.to_uint_nonzero p) as Hnz.
  assert (Hh : nzhead (Pos.to_uint p) <> Nil).
  { intros E. apply Hnz. rewrite H. apply unorm_0. exact E. }
  rewrite (unorm_nzhead _ Hh) in H.
  destruct (Pos.to_uint p) as [|u| | | | | | | | |] eqn:E; try reflexivity.
  exfalso. exact (nzhead_nonzero _ _ (eq_sym H)).
Qed.

Lemma number_value_integer neg ip :
  number_value neg ip Nil 0 = Some (if neg then - Z.of_uint ip else Z.of_uint ip).
Proof.
  unfold number_value. rewrite DecimalFacts.app_nil_r.
  cbn [nb_digits Z.of_nat Z.sub Z.opp Z.leb Z.compare].
  rewrite Z.pow_0_r, Z.mul_1_r. reflexivity.
Qed.

Lemma parse_frac_end rest : ends_value rest = true -> parse_frac rest = Some (Nil, rest).
Proof.
  intros H. destruct (ends_value_cases rest H) as [-> | (r & [-> | [-> | ->]])]; reflexivity.
Qed.

Lemma parse_exp_end rest : ends_value rest = true -> parse_exp rest = Some (0, rest).
Proof.
  intros H. destruct (ends_value_cases rest H) as [-> | (r & [-> | [-> | ->]])]; reflexivity.
Qed.

Lemma parse_unsigned_print neg p rest :
  ends_value rest = true ->
  parse_unsigned neg (NilEmpty.string_of_uint (Pos.to_uint p) +:+ rest) =
  Some (JNum (if neg then Zneg p else Zpos p), rest).
Proof.
  intros H. unfold parse_unsigned. rewrite read_digits_print by exact H.
  rewrite to_uint_no_leading_zero, orb_false_r.
  destruct (Pos.to_uint p) eqn:E;
    [exfalso; exact (DecimalPos.Unsigned.to_uint_nonnil p E) | ..];
    cbn [is_nil]; rewrite parse_frac_end, parse_exp_end by exact H;
    rewrite number_value_integer, <- E;
    unfold Z.of_uint; rewrite DecimalPos.Unsigned.of_to; destruct neg; reflexivity.
Qed.

(** The first character of a printed number selects the number reader
    and is neither white space nor a closing bracket. *)
Lemma number_head n rest :
  exists c r,
    number_to_string n +:+ rest = String c r /\
    starts_number c = true /\ is_ws c = false /\
    Ascii.eqb c "n" = false /\ Ascii.eqb c "t" = false /\ Ascii.eqb c "f" = false /\
    Ascii.eqb c dquote = false /\ Ascii.eqb c "[" = false /\ Ascii.eqb c "{" = false /\
    Ascii.eqb c "]" = false /\ Ascii.eqb c "}" = false /\
    split_sign (String c r) =
      match n with Zneg _ => (true, r) | _ => (false, String c r) end.
Proof.
  destruct n as [|p|p]; unfold number_to_string.
  - eexists _, _. split; [reflexivity|]. repeat split.
  - pose proof (DecimalPos.Unsigned.to_uint_nonnil p) as H.
    destruct (Pos.to_uint p); [contradiction | ..];
      eexists _, _; (split; [reflexivity|]); repeat split.
  - eexists _, _. split; [reflexivity|]. repeat split.
Qed.

Lemma parse_number_print n rest :
  ends_value rest = true ->
  parse_number (number_to_string n +:+ rest) = Some (JNum n, rest).
Proof.
  intros H. unfold parse_number.
  destruct (number_head n rest) as (c & r & E & _ & _ & _ & _ & _ & _ & _ & _ & _ & _ & Hs).
  rewrite E, Hs. destruct n as [|p|p].
  - rewrite <- E. unfold number_to_string.
    destruct (ends_value_cases rest H) as [-> | (r' & [-> | [-> | ->]])]; reflexivity.
  - rewrite <- E. apply (parse_unsigned_print false p rest H).
  - unfold number_to_string in E. rewrite append_cons in E. injection E as _ <-.
    apply (parse_unsigned_print true p rest H).
Qed.

Lemma parse_value_number fuel n rest :
  ends_value rest = true ->
  parse_value (S fuel) (number_to_string n +:+ rest) = Some (JNum n, rest).
Proof.
  intros H. rewrite <- (parse_number_print n rest H).
  destruct (number_head n rest) as (c & r & E & Hs & _ & Hn & Ht & Hf & Hq & Ha & Ho & _).
  rewrite E. cbn [parse_value]. rewrite Hn, Ht, Hf, Hq, Ha, Ho, Hs. reflexivity.
Qed.

(** *** Values *)

Lemma json_nested_ind (P : json -> Prop) :
  P JNull -> (forall b, P (JBool b)) -> (forall n, P (JNum n)) -> (forall s, P (JStr s)) ->
  (forall l, Forall P l -> P (JArr l)) ->
  (forall m, Forall (fun kv => P (snd kv)) m -> P (JObj m)) ->
  forall v, P v.
Proof.
  intros Hnull Hbool Hnum Hstr Harr Hobj.
  fix IH 1. intros [|b|n|s|l|m].
  - exact Hnull.
  - apply Hbool.
  - apply Hnum.
  - apply Hstr.
  - apply Harr. induction l as [|x l IHl]; constructor; [apply IH | exact IHl].
  - apply Hobj. induction m as [|[k x] m IHm]; constructor; [apply IH | exact IHm].
Qed.

Lemma value_head_skip s : value_head s = true -> skip_ws s = s.
Proof.
  destruct s as [|c r]; [discriminate|]. cbn [value_head skip_ws].
  destruct (is_ws c); [discriminate | reflexivity].
Qed.

Lemma value_head_stringify v rest : value_head (stringify v +:+ rest) = true.
Proof.
  destruct v as [|[]|n|s|l|m]; try reflexivity.
  cbn [stringify].
  destruct (number_head n rest) as (c & r & -> & _ & Hw & _ & _ & _ & _ & _ & _ & Hc & Hb & _).
  cbn [value_head]. rewrite Hw, Hc, Hb. reflexivity.
Qed.

Lemma parse_value_string fuel s rest :
  parse_value (S fuel) (String dquote (escape s +:+ String dquote rest)) = Some (JStr s, rest).
Proof.
  cbn [parse_value].
  change (Ascii.eqb dquote "n") with false. change (Ascii.eqb dquote "t") with false.
  change (Ascii.eqb dquote "f") with false. change (Ascii.eqb dquote dquote) with true.
  cbn iota. rewrite parse_string_body_escape. reflexivity.
Qed.

Lemma parse_value_array fuel s :
  value_head s = true ->
  parse_value (S fuel) (String "[" s) =
  match parse_elements fuel s with
  | Some (l, r) => Some (JArr l, r)
  | None => None
  end.
Proof.
  intros H. cbn [parse_value].
  change (Ascii.eqb "[" "n") with false. change (Ascii.eqb "[" "t") with false.
  change (Ascii.eqb "[" "f") with false. change (Ascii.eqb "[" dquote) with false.
  change (Ascii.eqb "[" "[") with true. cbn iota.
  rewrite (value_head_skip s H).
  destruct s as [|c r]; [discriminate|]. cbn [value_head] in H.
  destruct (Ascii.eqb c "]"); [|reflexivity].
  rewrite andb_false_r in H. discriminate.
Qed.

Lemma parse_value_object fuel s :
  parse_value (S fuel) (String "{" (String dquote s)) =
  match parse_members fuel (String dquote s) with
  | Some (m, r) => Some (JObj m, r)
  | None => None
  end.
Proof. reflexivity. Qed.

(** Reading back the elements of a non-empty array, given that each
    element reads back. *)
Lemma parse_elements_print l :
  Forall (fun v => forall fuel rest, (need v <= fuel)%nat -> ends_value rest = true ->
                   parse_value fuel (stringify v +:+ rest) = Some (v, rest)) l ->
  l <> [] ->
  forall fuel rest,
    (elements_need l <= fuel)%nat ->
    parse_elements fuel (join stringify l +:+ String "]" rest) = Some (l, rest).
Proof.
  induction 1 as [|x l Hx Hl IH]; [contradiction|]. intros _ fuel rest Hfuel.
  cbn [elements_need] in Hfuel. destruct fuel as [|fuel]; [lia|].
  cbn [parse_elements]. destruct l as [|y l].
  - cbn [join]. rewrite Hx by (try reflexivity; cbn [elements_need] in *; lia).
    reflexivity.
  - change (join stringify (x :: y :: l))
      with (stringify x +:+ String "," (join stringify (y :: l))).
    rewrite append_assoc, append_cons.
    rewrite Hx by (try reflexivity; lia).
    change (skip_ws (String "," ?X)) with (String "," X).
    change (Ascii.eqb "," "]") with false. change (Ascii.eqb "," ",") with true. cbn iota.
    rewrite value_head_skip.
    + rewrite IH by (try discriminate; lia). reflexivity.
    + destruct l as [|z l].
      * cbn [join]. apply value_head_stringify.
      * change (join stringify (y :: z :: l))
          with (stringify y +:+ String "," (join stringify (z :: l))).
        rewrite append_assoc. apply value_head_stringify.
Qed.

Lemma member_text_shape kv rest :
  member_text kv +:+ rest =
  String dquote (escape (fst kv) +:+ String dquote (String ":" (stringify (snd kv) +:+ rest))).
Proof. unfold member_text, quote, str1. shift_right. reflexivity. Qed.

Lemma parse_members_print m :
  Forall (fun kv => forall fuel rest, (need (snd kv) <= fuel)%nat -> ends_value rest = true ->
                    parse_value fuel (stringify (snd kv) +:+ rest) = Some (snd kv, rest)) m ->
  m <> [] ->
  forall fuel rest,
    (members_need m <= fuel)%nat ->
    parse_members fuel (join member_text m +:+ String "}" rest) = Some (m, rest).
Proof.
  induction 1 as [|[k x] m Hx Hm IH]; [contradiction|]. intros _ fuel rest Hfuel.
  cbn [members_need snd] in Hfuel. cbn [snd] in Hx. destruct fuel as [|fuel]; [lia|].
  destruct m as [|kv m].
  - cbn [join]. rewrite member_text_shape. cbn [fst snd parse_members].
    change (Ascii.eqb dquote dquote) with true. cbn iota.
    rewrite parse_string_body_escape.
    change (skip_ws (String ":" ?X)) with (String ":" X).
    change (Ascii.eqb ":" ":") with true. cbn iota.
    rewrite value_head_skip by apply value_head_stringify.
    rewrite Hx by (try reflexivity; cbn [members_need] in *; lia).
    reflexivity.
  - change (join member_text ((k, x) :: kv :: m))
      with (member_text (k, x) +:+ String "," (join member_text (kv :: m))).
    rewrite append_assoc, append_cons, member_text_shape. cbn [fst snd parse_members].
    change (Ascii.eqb dquote dquote) with true. cbn iota.
    rewrite parse_string_body_escape.
    change (skip_ws (String ":" ?X)) with (String ":" X).
    change (Ascii.eqb ":" ":") with true. cbn iota.
    rewrite value_head_skip by apply value_head_stringify.
    rewrite Hx by (try reflexivity; lia).
    change (skip_ws (String "," ?X)) with (String "," X).
    change (Ascii.eqb "," "}") with false. change (Ascii.eqb "," ",") with true. cbn iota.
    assert (Hhead : exists X, join member_text (kv :: m) +:+ String "}" rest = String dquote X).
    { destruct m as [|kv' m].
      - cbn [join]. rewrite member_text_shape. eauto.
      - change (join member_text (kv :: kv' :: m))
          with (member_text kv +:+ String "," (join member_text (kv' :: m))).
        rewrite append_assoc, member_text_shape. eauto. }
    destruct Hhead as (X & HX).
    assert (Hskip : skip_ws (join member_text (kv :: m) +:+ String "}" rest)
                    = join member_text (kv :: m) +:+ String "}" rest)
      by (rewrite HX; reflexivity).
    rewrite Hskip, IH by (try discriminate; lia). reflexivity.
Qed.

Lemma need_array l : need (JArr l) = S (elements_need l).
Proof. reflexivity. Qed.

Lemma need_object m : need (JObj m) = S (members_need m).
Proof. reflexivity. Qed.

Lemma parse_value_print v :
  forall fuel rest,
    (need v <= fuel)%nat -> ends_value rest = true ->
    parse_value fuel (stringify v +:+ rest) = Some (v, rest).
Proof.
  induction v as [|b|n|s|l IH|m IH] using json_nested_ind; intros fuel rest Hfuel Hrest;
    rewrite ?need_array, ?need_object in Hfuel;
    (destruct fuel as [|fuel]; [cbn in Hfuel; lia|]).
  - reflexivity.
  - destruct b; reflexivity.
  - apply parse_value_number, Hrest.
  - cbn [stringify]. unfold quote, str1. shift_right. apply parse_value_string.
  - cbn [stringify]. shift_right. destruct l as [|x l].
    + reflexivity.
    + rewrite parse_value_array.
      * rewrite (parse_elements_print (x :: l) IH) by (try discriminate; lia).
        reflexivity.
      * destruct l as [|y l].
        -- cbn [join]. apply value_head_stringify.
        -- change (join stringify (x :: y :: l))
             with (stringify x +:+ String "," (join stringify (y :: l))).
           rewrite append_assoc. apply value_head_stringify.
  - cbn [stringify]. fold member_text. shift_right. destruct m as [|kv m].
    + reflexivity.
    + assert (Hhead : exists X, join member_text (kv :: m) +:+ String "}" rest = String dquote X).
      { destruct m as [|kv' m].
        - cbn [join]. rewrite member_text_shape. eauto.
        - change (join member_text (kv :: kv' :: m))
            with (member_text kv +:+ String "," (join member_text (kv' :: m))).
          rewrite append_assoc, member_text_shape. eauto. }
      destruct Hhead as (X & HX). rewrite HX, parse_value_object, <- HX.
      rewrite (parse_members_print (kv :: m) IH) by (try discriminate; lia).
      reflexivity.
Qed.

Lemma elements_need_le_length l :
  Forall (fun v => (need v <= String.length (stringify v))%nat) l ->
  (elements_need l <= String.length (join stringify l) + 1)%nat.
Proof.
  induction 1 as [|x l Hx Hl IH]; [cbn; lia|].
  destruct l as [|y l].
  - cbn [elements_need join]. lia.
  - change (join stringify (x :: y :: l))
      with (stringify x +:+ String "," (join stringify (y :: l))).
    rewrite length_append. cbn [String.length].
    change (elements_need (x :: y :: l))
      with (S (Nat.max (need x) (elements_need (y :: l)))).
    lia.
Qed.

Lemma members_need_le_length m :
  Forall (fun kv => (need (snd kv) <= String.length (stringify (snd kv)))%nat) m ->
  (members_need m <= String.length (join member_text m) + 1)%nat.
Proof.
  assert (Hmember : forall kv,
             (String.length (stringify (snd kv)) <= String.length (member_text kv))%nat).
  { intros kv. unfold member_text. rewrite length_append. cbn [String.length]. lia. }
  induction 1 as [|kv m Hx Hm IH]; [cbn; lia|].
  pose proof (Hmember kv).
  destruct m as [|kv' m].
  - cbn [members_need join]. lia.
  - change (join member_text (kv :: kv' :: m))
      with (member_text kv +:+ String "," (join member_text (kv' :: m))).
    rewrite length_append. cbn [String.length].
    change (members_need (kv :: kv' :: m))
      with (S (Nat.max (need (snd kv)) (members_need (kv' :: m)))).
    lia.
Qed.

Lemma need_le_length v : (need v <= String.length (stringify v))%nat.
Proof.
  induction v as [|b|n|s|l IH|m IH] using json_nested_ind.
  - cbn. lia.
  - destruct b; cbn; lia.
  - cbn [need stringify].
    destruct (number_head n EmptyString) as (c & r & E & _).
    rewrite append_nil_r in E. rewrite E. cbn [String.length]. lia.
  - cbn [need stringify]. unfold quote. cbn [String.length]. lia.
  - rewrite need_array. cbn [stringify String.length]. rewrite length_append.
    pose proof (elements_need_le_length l IH). cbn [String.length]. lia.
  - rewrite need_object. cbn [stringify String.length]. fold member_text.
    rewrite length_append. pose proof (members_need_le_length m IH).
    cbn [String.length]. lia.
Qed.

(** JSON.parse reads back what JSON.stringify writes. *)
Lemma parse_stringify v : parse (stringify v) = Some v.
Proof.
  unfold parse.
  rewrite <- (append_nil_r (stringify v)) at 2.
  rewrite value_head_skip by apply value_head_stringify.
  rewrite parse_value_print; [reflexivity | | reflexivity].
  pose proof (need_le_length v). lia.
Qed.

(** An exact value is read back as itself. *)
Lemma read_stringify v : exact v = true -> read (stringify v) = Some (Known v).
Proof. intros H. unfold read. rewrite parse_stringify, H. reflexivity. Qed.

(** The recogniser accepts every text that has a value. *)
Lemma skip_string_body_parse n : forall s str r,
  (String.length s <= n)%nat ->
  parse_string_body s = Some (str, r) -> skip_string_body s = Some r.
Proof.
  induction n as [|n IH]; intros s str r Hlen.
  - destruct s; [discriminate | cbn in Hlen; lia].
  - destruct s as [|c rest]; [discriminate|]. cbn [String.length] in Hlen.
    cbn [parse_string_body skip_string_body].
    destruct (Ascii.eqb c dquote); [intros [= _ <-]; reflexivity|].
    destruct (Ascii.eqb c backslash).
    + destruct rest as [|e rest1]; [discriminate|]. cbn [String.length] in Hlen.
      destruct (Ascii.eqb e "u").
      * destruct rest1 as [|h1 [|h2 [|h3 [|h4 rest2]]]]; try discriminate.
        cbn [String.length] in Hlen.
        destruct (hex4 h1 h2 h3 h4) as [k|]; [|discriminate].
        destruct (k <? 256)%N; [|discriminate].
        destruct (parse_string_body rest2) as [[s' r']|] eqn:E; [|discriminate].
        cbn [cons_char]. intros [= _ <-]. apply (IH rest2 s' r'); [lia | exact E].
      * destruct (unescape e); [|discriminate].
        destruct (parse_string_body rest1) as [[s' r']|] eqn:E; [|discriminate].
        cbn [cons_char]. intros [= _ <-]. apply (IH rest1 s' r'); [lia | exact E].
    + destruct (N_of_ascii c <? 32)%N; [discriminate|].
      destruct (parse_string_body rest) as [[s' r']|] eqn:E; [|discriminate].
      cbn [cons_char]. intros [= _ <-]. apply (IH rest s' r'); [lia | exact E].
Qed.

Lemma skip_string_body_of_parse s str r :
  parse_string_body s = Some (str, r) -> skip_string_body s = Some r.
Proof. apply (skip_string_body_parse (String.length s)). lia. Qed.

Lemma skip_number_parse s v r : parse_number s = Some (v, r) -> skip_number s = Some r.
Proof.
  unfold parse_number, skip_number. destruct (split_sign s) as [neg s1].
  unfold parse_unsigned, skip_unsigned. destruct (read_digits s1) as [ip s2].
  destruct (is_nil ip || leading_zero ip); [discriminate|].
  destruct (parse_frac s2) as [[fp s3]|]; [|discriminate].
  destruct (parse_exp s3) as [[x s4]|]; [|discriminate].
  destruct (number_value neg ip fp x); [|discriminate].
  intros [= _ <-]. reflexivity.
Qed.

Lemma literal_skip p v rest w r : literal p v rest = Some (w, r) -> strip_prefix p rest = Some r.
Proof. unfold literal. destruct (strip_prefix p rest); [intros [= _ <-]; reflexivity | discriminate]. Qed.

Lemma skip_value_parse fuel :
  (forall s v r, parse_value fuel s = Some (v, r) -> skip_value fuel s = Some r) /\
  (forall s l r, parse_elements fuel s = Some (l, r) -> skip_elements fuel s = Some r) /\
  (forall s m r, parse_members fuel s = Some (m, r) -> skip_members fuel s = Some r).
Proof.
  induction fuel as [|fuel (IHv & IHe & IHm)]; [repeat split; discriminate|].
  split; [|split].
  - intros s v r. cbn [parse_value skip_value].
    destruct s as [|c rest]; [discriminate|].
    destruct (Ascii.eqb c "n"); [apply literal_skip|].
    destruct (Ascii.eqb c "t"); [apply literal_skip|].
    destruct (Ascii.eqb c "f"); [apply literal_skip|].
    destruct (Ascii.eqb c dquote).
    { destruct (parse_string_body rest) as [[str r0]|] eqn:E; [|discriminate].
      intros [= _ <-]. apply (skip_string_body_of_parse _ _ _ E). }
    destruct (Ascii.eqb c "[").
    { destruct (skip_ws rest) as [|c' r0]; [discriminate|].
      destruct (Ascii.eqb c' "]"); [intros [= _ <-]; reflexivity|].
      destruct (parse_elements fuel (String c' r0)) as [[l r1]|] eqn:E; [|discriminate].
      intros [= _ <-]. apply (IHe _ _ _ E). }
    destruct (Ascii.eqb c "{").
    { destruct (skip_ws rest) as [|c' r0]; [discriminate|].
      destruct (Ascii.eqb c' "}"); [intros [= _ <-]; reflexivity|].
      destruct (parse_members fuel (String c' r0)) as [[m r1]|] eqn:E; [|discriminate].
      intros [= _ <-]. apply (IHm _ _ _ E). }
    destruct (starts_number c); [apply skip_number_parse | discriminate].
  - intros s l r. cbn [parse_elements skip_elements].
    destruct (parse_value fuel s) as [[v r0]|] eqn:E; [|discriminate].
    rewrite (IHv _ _ _ E).
    destruct (skip_ws r0) as [|c r1]; [discriminate|].
    destruct (Ascii.eqb c "]"); [intros [= _ <-]; reflexivity|].
    destruct (Ascii.eqb c ","); [|discriminate].
    destruct (parse_elements fuel (skip_ws r1)) as [[l' r2]|] eqn:E'; [|discriminate].
    intros [= _ <-]. apply (IHe _ _ _ E').
  - intros s m r. cbn [parse_members skip_members].
    destruct s as [|c rest]; [discriminate|].
    destruct (Ascii.eqb c dquote); [|discriminate].
    destruct (parse_string_body rest) as [[k r0]|] eqn:Ek; [|discriminate].
    rewrite (skip_string_body_of_parse _ _ _ Ek).
    destruct (skip_ws r0) as [|c1 r1]; [discriminate|].
    destruct (Ascii.eqb c1 ":"); [|discriminate].
    destruct (parse_value fuel (skip_ws r1)) as [[v r2]|] eqn:Ev; [|discriminate].
    rewrite (IHv _ _ _ Ev).
    destruct (skip_ws r2) as [|c2 r3]; [discriminate|].
    destruct (Ascii.eqb c2 "}"); [intros [= _ <-]; reflexivity|].
    destruct (Ascii.eqb c2 ","); [|discriminate].
    destruct (parse_members fuel (skip_ws r3)) as [[m' r4]|] eqn:Em; [|discriminate].
    intros [= _ <-]. apply (IHm _ _ _ Em).
Qed.

Lemma parse_well_formed s v : parse s = Some v -> well_formed s = true.
Proof.
  unfold parse, well_formed.
  destruct (parse_value (S (String.length s)) (skip_ws s)) as [[w rest]|] eqn:E; [|discriminate].
  rewrite (proj1 (skip_value_parse _) _ _ _ E).
  destruct (skip_ws rest); [reflexivity | discriminate].
Qed.

(** [read] throws on the texts the recogniser rejects, and on no
    other. *)
Lemma read_none text : read text = None <-> well_formed text = false.
Proof.
  unfold read. destruct (parse text) as [v|] eqn:E.
  - rewrite (parse_well_formed _ _ E). split; discriminate.
  - destruct (well_formed text); split; intros H; try reflexivity; discriminate.
Qed.
End JSONFacts.

(** ** The cursor codec *)

Section CursorFacts.
Import Pagination.

Lemma exact_cursor_json c :
  JSON.safe_integer (lastTimestamp c) = true -> JSON.exact (cursor_json c) = true.
Proof. intros H. cbn. rewrite H. reflexivity. Qed.

Lemma decodeCursor_of_value v :
  JSON.exact v = true -> decodeCursor (Base64.btoa (JSON.stringify v)) = Ok (JSON.Known v).
Proof.
  intros H. unfold decodeCursor. rewrite atob_btoa, (read_stringify v H). reflexivity.
Qed.

Lemma decodeCursor_encodeCursor c :
  JSON.safe_integer (lastTimestamp c) = true ->
  decodeCursor (encodeCursor c) = Ok (JSON.Known (cursor_json c)).
Proof. intros H. apply decodeCursor_of_value, exact_cursor_json, H. Qed.

Example decodeCursor_example :
  decodeCursor (encodeCursor {| lastId := "wrun_k3"; lastTimestamp := 1700000000000 |}) =
  Ok (JSON.Known (JObj [("lastId", JStr "wrun_k3"); ("lastTimestamp", JNum 1700000000000)])).
Proof. vm_compute. reflexivity. Qed.

Example decodeCursor_not_base64 : decodeCursor "not a cursor!" = Throw InvalidCursor.
Proof. vm_compute. reflexivity. Qed.

Example decodeCursor_not_json :
  Base64.atob "d3J1bl9rMw==" = Some "wrun_k3"%string /\
  decodeCursor "d3J1bl9rMw==" = Throw InvalidCursor.
Proof. split; vm_compute; reflexivity. Qed.

(** "MS41" is base64 for the JSON text 1.5: decodeCursor returns that
    number, which the model has no value for. *)
Example decodeCursor_fraction :
  Base64.atob "MS41" = Some "1.5"%string /\
  decodeCursor "MS41" = Ok JSON.Beyond.
Proof. split; vm_compute; reflexivity. Qed.

(** C9, the claim as stated, fails: "bnVsbA==" is base64 for the JSON
    text null, which is no pair, and decodeCursor returns null for it
    instead of throwing. *)
Lemma decodeCursor_accepts_other_json :
  ~ decodes_to_cursor "bnVsbA==" /\
  decodeCursor "bnVsbA==" = Ok (JSON.Known JNull) /\
  decodeCursor "bnVsbA==" <> Throw InvalidCursor.
Proof.
  assert (H : decodeCursor "bnVsbA==" = Ok (JSON.Known JNull)) by (vm_compute; reflexivity).
  split; [|split].
  - intros (v & id & ts & Hv & Hid & _). rewrite H in Hv. injection Hv as <-.
    discriminate Hid.
  - exact H.
  - rewrite H. discriminate.
Qed.

(** C9, amended.  Decoding an encoded cursor returns the object with the
    same lastId and lastTimestamp, for every string of code units up to
    0xFF and every safe integer.  decodeCursor throws no error but
    'Invalid pagination cursor', and throws it exactly when the string
    is not base64 or the text it encodes is not JSON.  It checks nothing
    else: the encoding of any value at all, with or without a lastId and
    a lastTimestamp, is decoded to that value. *)
Theorem cursor_codec :
  (forall c,
     JSON.safe_integer (lastTimestamp c) = true ->
     decodeCursor (encodeCursor c) = Ok (JSON.Known (cursor_json c)) /\
     property (cursor_json c) "lastId" = Ok (Some (JStr (lastId c))) /\
     property (cursor_json c) "lastTimestamp" = Ok (Some (JNum (lastTimestamp c)))) /\
  (forall s e, decodeCursor s = Throw e -> e = InvalidCursor) /\
  (forall s,
     decodeCursor s = Throw InvalidCursor <->
     Base64.atob s = None \/
     exists text, Base64.atob s = Some text /\ JSON.well_formed text = false) /\
  (forall v,
     JSON.exact v = true ->
     decodeCursor (Base64.btoa (JSON.stringify v)) = Ok (JSON.Known v)).
Proof.
  split; [|split; [|split]].
  - intros c Hc. split; [apply decodeCursor_encodeCursor, Hc | split; reflexivity].
  - intros s e. unfold decodeCursor.
    destruct (Base64.atob s) as [text|]; [|intros [= <-]; reflexivity].
    destruct (JSON.read text); [discriminate | intros [= <-]; reflexivity].
  - intros s. unfold decodeCursor.
    destruct (Base64.atob s) as [text|]; [|split; auto].
    destruct (JSON.read text) as [v|] eqn:E; split.
    + discriminate.
    + intros [H | (t & Ht & Hw)]; [discriminate|].
      injection Ht as <-. apply read_none in Hw. rewrite E in Hw. discriminate.
    + intros _. right. exists text. split; [reflexivity | apply read_none, E].
    + reflexivity.
  - apply decodeCursor_of_value.
Qed.

End CursorFacts.

(** ** The tiered payload store *)

Section AnyPayload.
Import Tiered.
Context {value text : Type}.
Variable stringify : value -> text.
Variable parse : text -> option value.
Variable length : text -> Z.

(** C2.  For every value P that JSON.parse reads back from what
    JSON.stringify writes for it, every key and every threshold t,
    retrieveData on the reference and the bucket that storeData leaves
    returns P.  The reference is inline, holding the text, exactly when
    the length of the text is at most t, and r2, holding the key,
    exactly when it is greater; the bucket is left as it was in the
    first case and holds the text under the key in the second. *)
Theorem store_then_retrieve (P : value) (keyPrefix id field : string) (t : Z)
  (bucket : gmap string text) :
  parse (stringify P) = Some P ->
  exists ref bucket',
    storeData stringify length P keyPrefix id field t bucket = (Ok ref, bucket') /\
    retrieveData parse (Some ref) bucket' = (Ok (Some P), bucket') /\
    (ref = inline (stringify P) <-> length (stringify P) <= t) /\
    (ref = r2 (R2.generateR2Key keyPrefix id field) <-> t < length (stringify P)) /\
    (bucket' = bucket <-> length (stringify P) <= t \/
                          bucket !! R2.generateR2Key keyPrefix id field = Some (stringify P)).
Proof.
  intros HP. unfold storeData.
  destruct (Z.leb_spec (length (stringify P)) t) as [Hle|Hgt].
  - exists (inline (stringify P)), bucket. split; [reflexivity|]. split; [|split; [|split]].
    + cbn [retrieveData]. unfold JSON_parse. rewrite HP. reflexivity.
    + split; [intros _; exact Hle | reflexivity].
    + split; [discriminate | lia].
    + split; [intros _; left; exact Hle | reflexivity].
  - exists (r2 (R2.generateR2Key keyPrefix id field)),
      (<[R2.generateR2Key keyPrefix id field := stringify P]> bucket).
    split; [reflexivity|]. split; [|split; [|split]].
    + cbn [retrieveData]. rewrite lookup_insert_eq. unfold JSON_parse. rewrite HP. reflexivity.
    + split; [discriminate | lia].
    + split; [intros _; exact Hgt | reflexivity].
    + split.
      * intros E. right. rewrite <- E. apply lookup_insert_eq.
      * intros [H | H]; [lia | apply insert_id, H].
Qed.

End AnyPayload.

Section JSONPayload.
Import Tiered.

(** [R2] is the instance of [Tiered] at the JSON model. *)
Lemma storeData_instance data keyPrefix id field threshold (bucket : gmap string string) :
  R2.storeData data keyPrefix id field threshold bucket =
  match storeData JSON.stringify string_length data keyPrefix id field threshold bucket with
  | (Ok ref, bucket') => (Ok (to_R2 ref), bucket')
  | (Throw e, bucket') => (Throw e, bucket')
  end.
Proof.
  unfold R2.storeData, storeData, string_length.
  destruct (Z.of_nat (String.length (JSON.stringify data)) <=? threshold); reflexivity.
Qed.

Lemma retrieveData_instance ref (bucket : gmap string string) :
  R2.retrieveData (Some (to_R2 ref)) bucket =
  match retrieveData JSON.parse (Some ref) bucket with
  | (Ok (Some v), bucket') => (Ok v, bucket')
  | (Ok None, bucket') => (Ok JNull, bucket')
  | (Throw e, bucket') => (Throw e, bucket')
  end.
Proof.
  destruct ref as [d|k]; cbn [to_R2 R2.retrieveData retrieveData R2.type R2.data].
  - unfold R2.JSON_parse, JSON_parse. destruct (JSON.parse d); reflexivity.
  - destruct (bucket !! k) as [text|]; [|reflexivity].
    unfold R2.JSON_parse, JSON_parse. destruct (JSON.parse text); reflexivity.
Qed.

Lemma store_then_retrieve_witness :
  exists b6,
    storeData JSON.stringify string_length (JArr [JNum 1; JStr "a"]) "inputs" "wrun_1" "input"
      7 ∅ = (Ok (inline (JSON.stringify (JArr [JNum 1; JStr "a"]))), ∅) /\
    string_length (JSON.stringify (JArr [JNum 1; JStr "a"])) = 7 /\
    storeData JSON.stringify string_length (JArr [JNum 1; JStr "a"]) "inputs" "wrun_1" "input"
      6 ∅ = (Ok (r2 "inputs/wrun_1/input"), b6) /\
    retrieveData JSON.parse (Some (r2 "inputs/wrun_1/input")) b6
    = (Ok (Some (JArr [JNum 1; JStr "a"])), b6).
Proof.
  destruct (store_then_retrieve JSON.stringify JSON.parse string_length
              (JArr [JNum 1; JStr "a"]) "inputs" "wrun_1" "input" 7 ∅ eq_refl)
    as (ref7 & b7 & Hs7 & _ & Hi7 & _ & Hb7).
  destruct (store_then_retrieve JSON.stringify JSON.parse string_length
              (JArr [JNum 1; JStr "a"]) "inputs" "wrun_1" "input" 6 ∅ eq_refl)
    as (ref6 & b6 & Hs6 & Hr6 & _ & Hk6 & _).
  assert (E7 : ref7 = inline (JSON.stringify (JArr [JNum 1; JStr "a"])))
    by (apply Hi7; vm_compute; discriminate).
  assert (Eb7 : b7 = ∅) by (apply Hb7; left; vm_compute; discriminate).
  assert (E6 : ref6 = r2 "inputs/wrun_1/input") by (apply Hk6; reflexivity).
  subst ref7 b7 ref6. exists b6.
  split; [exact Hs7|]. split; [reflexivity|]. split; [exact Hs6 | exact Hr6].
Defined.

End JSONPayload.

Section PayloadStoreFacts.
Import R2.


(** The text of [[1,"a"]] has length 7: at the threshold 7 it is kept
    inline, at 6 it goes to the bucket. *)
Example store_at_the_threshold :
  storeData (JArr [JNum 1; JStr "a"]) "inputs" "wrun_1" "input" 7 ∅
  = (Ok {| type := inline; data := JSON.stringify (JArr [JNum 1; JStr "a"]) |}, ∅) /\
  fst (storeData (JArr [JNum 1; JStr "a"]) "inputs" "wrun_1" "input" 6 ∅)
  = Ok {| type := r2; data := "inputs/wrun_1/input" |} /\
  String.length (JSON.stringify (JArr [JNum 1; JStr "a"])) = 7%nat.
Proof. repeat split. Qed.



End PayloadStoreFacts.

(** ** The run repository *)

Section RunFacts.
Import RunRow R2 Pagination Runs.
Variable threshold : Z.

Lemma set_WORKFLOW_STORAGE_same env : set_WORKFLOW_STORAGE (WORKFLOW_STORAGE env) env = env.
Proof. destruct env; reflexivity. Qed.

Lemma retrieveData_bucket ref b : snd (retrieveData ref b) = b.
Proof.
  unfold retrieveData, JSON_parse. destruct ref as [[[] d]|]; cbn; try reflexivity.
  - destruct (JSON.parse d); reflexivity.
  - destruct (b !! d) as [t|]; [destruct (JSON.parse t)|]; reflexivity.
Qed.

Lemma on_bucket_retrieveData ref env :
  on_bucket (retrieveData ref) env = (fst (retrieveData ref (WORKFLOW_STORAGE env)), env).
Proof.
  unfold on_bucket.
  pose proof (retrieveData_bucket ref (WORKFLOW_STORAGE env)) as H.
  destruct (retrieveData ref (WORKFLOW_STORAGE env)) as [r b]. cbn in *. subst b.
  rewrite set_WORKFLOW_STORAGE_same. reflexivity.
Qed.

Lemma rowToRun_resolved row resolve env :
  rowToRun row resolve env =
  (match resolved row resolve (WORKFLOW_STORAGE env) with
   | Ok p => Ok (run_of row p)
   | Throw e => Throw e
   end, env).
Proof.
  unfold rowToRun, resolved, bind, ret, throw.
  destruct (default resolve_all resolve).
  - destruct (truthy_string (execution_context row)) as [text|]; [|reflexivity].
    destruct (JSON.parse text); reflexivity.
  - rewrite on_bucket_retrieveData.
    destruct (fst (retrieveData _ (WORKFLOW_STORAGE env))) as [i|e]; [|reflexivity].
    rewrite on_bucket_retrieveData.
    destruct (fst (retrieveData _ (WORKFLOW_STORAGE env))) as [o|e]; [|reflexivity].
    destruct (truthy_string (execution_context row)) as [text|]; [|reflexivity].
    destruct (JSON.parse text); reflexivity.
Qed.


Lemma get_resolved id resolve env :
  get id resolve env =
  (match find (fun r => String.eqb (run_id r) id) (workflow_runs env) with
   | None => Throw (RunNotFound id)
   | Some row =>
       match resolved row resolve (WORKFLOW_STORAGE env) with
       | Ok p => Ok (run_of row p)
       | Throw e => Throw e
       end
   end, env).
Proof.
  unfold get, bind, gets, throw.
  destruct (find _ (workflow_runs env)) as [row|]; [|reflexivity].
  apply rowToRun_resolved.
Qed.

Lemma get_inv id resolve env current :
  fst (get id resolve env) = Ok current ->
  exists row p,
    find (fun r => String.eqb (run_id r) id) (workflow_runs env) = Some row /\
    resolved row resolve (WORKFLOW_STORAGE env) = Ok p /\
    current = run_of row p.
Proof.
  rewrite get_resolved. cbn [fst].
  destruct (find _ (workflow_runs env)) as [row|]; [|discriminate].
  destruct (resolved row resolve (WORKFLOW_STORAGE env)) as [p|e] eqn:E; [|discriminate].
  intros [= <-]. eauto.
Qed.

Lemma find_updated id (f : WorkflowRunRow -> WorkflowRunRow) rows :
  (forall r, run_id (f r) = run_id r) ->
  find (fun r => String.eqb (run_id r) id)
    (map (fun r => if String.eqb (run_id r) id then f r else r) rows) =
  option_map f (find (fun r => String.eqb (run_id r) id) rows).
Proof.
  intros Hf. induction rows as [|r rows IH]; [reflexivity|].
  cbn [map find]. destruct (String.eqb (run_id r) id) eqn:E.
  - rewrite Hf, E. reflexivity.
  - rewrite E. exact IH.
Qed.

Lemma forallb_updated id (f : WorkflowRunRow -> WorkflowRunRow) rows :
  forallb (fun r => status_allowed (status r)) rows = true ->
  (forall r, status_allowed (status (f r)) = true) ->
  forallb (fun r => status_allowed (status r))
    (map (fun r => if String.eqb (run_id r) id then f r else r) rows) = true.
Proof.
  intros H Hf. induction rows as [|r rows IH]; [reflexivity|].
  cbn [map forallb] in *. apply andb_prop in H as [Hr Hrows].
  rewrite (IH Hrows), andb_true_r.
  destruct (String.eqb (run_id r) id); [apply Hf | exact Hr].
Qed.

Lemma status_clauses_row now st current row :
  let row' := all_clauses (status_clauses now st current) row in
  run_id row' = run_id row /\ status row' = st /\
  (forall resolve b, resolved row' resolve b = resolved row resolve b) /\
  started_at row' =
    (if String.eqb st "running" && unset (startedAt current) then Some now
     else started_at row) /\
  completed_at row' =
    (if is_terminal st && unset (completedAt current) then Some now
     else completed_at row).
Proof.
  unfold status_clauses.
  destruct (String.eqb st "running" && unset (startedAt current));
    destruct (is_terminal st && unset (completedAt current));
    destruct row; cbn; repeat split.
Qed.

Lemma runs_of_set_runs t env : workflow_runs (set_workflow_runs t env) = t.
Proof. reflexivity. Qed.

Lemma bucket_of_set_runs t env :
  WORKFLOW_STORAGE (set_workflow_runs t env) = WORKFLOW_STORAGE env.
Proof. reflexivity. Qed.

Lemma update_status_only now id st env row p :
  runs_checked env ->
  find (fun r => String.eqb (run_id r) id) (workflow_runs env) = Some row ->
  resolved row None (WORKFLOW_STORAGE env) = Ok p ->
  status_allowed st = true ->
  let row' := all_clauses (status_clauses now st (run_of row p)) row in
  exists env',
    update threshold now id (status_only st) env = (Ok (run_of row' p), env') /\
    runs_checked env' /\
    fst (get id None env') = Ok (run_of row' p).
Proof.
  intros Hck Hfind Hres Hst row'.
  destruct (status_clauses_row now st (run_of row p) row) as (Hid & Hstatus & Hsame & _).
  fold row' in Hid, Hstatus, Hsame.
  set (env' := set_workflow_runs
                 (map (fun r => if String.eqb (run_id r) id
                                then all_clauses (status_clauses now st (run_of row p)) r
                                else r) (workflow_runs env)) env).
  assert (Hfind' : find (fun r => String.eqb (run_id r) id) (workflow_runs env') = Some row').
  { unfold env'. rewrite runs_of_set_runs.
    rewrite find_updated, Hfind; [reflexivity|].
    intros r. apply (status_clauses_row now st (run_of row p) r). }
  assert (Hck' : runs_checked env').
  { unfold runs_checked, env'. rewrite runs_of_set_runs.
    apply forallb_updated; [exact Hck|].
    intros r. destruct (status_clauses_row now st (run_of row p) r) as (_ & -> & _).
    exact Hst. }
  assert (Hget' : get id None env' = (Ok (run_of row' p), env')).
  { rewrite get_resolved, Hfind', Hsame.
    unfold env' at 1. rewrite bucket_of_set_runs.
    rewrite Hres. reflexivity. }
  exists env'. split; [|split; [exact Hck' | rewrite Hget'; reflexivity]].
  unfold update, bind. rewrite get_resolved, Hfind, Hres.
  unfold status_only; cbn [upd_status upd_output upd_executionContext upd_error upd_errorCode ret].
  fold (status_clauses now st (run_of row p)).
  unfold update_run.
  change (map _ (workflow_runs env)) with (workflow_runs env').
  rewrite Hck'. exact Hget'.
Qed.

Lemma truthy_number_stamp (now : Z) : now <> 0 -> truthy_number (Some now) = Some now.
Proof. destruct now; [contradiction | reflexivity ..]. Qed.

Lemma update_stamps now id st env current :
  runs_checked env ->
  fst (get id None env) = Ok current ->
  status_allowed st = true ->
  now <> 0 ->
  exists r env',
    update threshold now id (status_only st) env = (Ok r, env') /\
    run_status r = st /\
    startedAt r =
      (if String.eqb st "running" && unset (startedAt current) then Some now
       else startedAt current) /\
    completedAt r =
      (if is_terminal st && unset (completedAt current) then Some now
       else completedAt current) /\
    runs_checked env' /\
    fst (get id None env') = Ok r.
Proof.
  intros Hck Hget Hst Hnow.
  destruct (get_inv _ _ _ _ Hget) as (row & p & Hfind & Hres & ->).
  destruct (update_status_only now id st env row p Hck Hfind Hres Hst)
    as (env' & Hup & Hck' & Hget').
  destruct (status_clauses_row now st (run_of row p) row)
    as (_ & Hstatus & _ & Hstarted & Hcompleted).
  eexists _, env'. split; [exact Hup|].
  cbn [run_status startedAt completedAt run_of] in *.
  rewrite Hstatus, Hstarted, Hcompleted.
  repeat split; try assumption.
  - destruct (String.eqb st "running" && unset (truthy_number (started_at row)));
      [apply truthy_number_stamp, Hnow | reflexivity].
  - destruct (is_terminal st && unset (truthy_number (completed_at row)));
      [apply truthy_number_stamp, Hnow | reflexivity].
Qed.

Lemma find_none_existsb id rows :
  find (fun r => String.eqb (run_id r) id) rows = None ->
  existsb (fun r => String.eqb (run_id r) id) rows = false.
Proof.
  induction rows as [|r rows IH]; [reflexivity|]. cbn.
  destruct (String.eqb (run_id r) id); [discriminate | exact IH].
Qed.

Lemma find_app_new id rows (row : WorkflowRunRow) :
  find (fun r => String.eqb (run_id r) id) rows = None ->
  run_id row = id ->
  find (fun r => String.eqb (run_id r) id) (rows ++ [row]) = Some row.
Proof.
  intros H <-. induction rows as [|r rows IH]; cbn in *.
  - rewrite String.eqb_refl. reflexivity.
  - destruct (String.eqb (run_id r) (run_id row)); [discriminate | exact (IH H)].
Qed.

Lemma forallb_app_new rows (row : WorkflowRunRow) :
  forallb (fun r => status_allowed (status r)) rows = true ->
  status_allowed (status row) = true ->
  forallb (fun r => status_allowed (status r)) (rows ++ [row]) = true.
Proof.
  intros H Hr. rewrite forallb_app, H. cbn [forallb andb]. rewrite Hr. reflexivity.
Qed.

Lemma generateR2Key_nonempty prefix id field :
  exists c r, generateR2Key prefix id field = String c r.
Proof. destruct prefix; eexists _, _; reflexivity. Qed.



End RunFacts.

(** ** Listing runs *)

Section ListFacts.
Import RunRow R2 Pagination Runs.



Lemma createPaginatedResponse_no_limit pg (runs : Datatypes.list WorkflowRun) :
  truthy_number (option_limit pg) = None ->
  createPaginatedResponse runs pg createdAt
  = {| resp_data := runs; resp_cursor := None; hasMore := false |}.
Proof.
  unfold createPaginatedResponse. destruct (option_limit pg) as [[| |]|]; try discriminate; reflexivity.
Qed.

Lemma mapM_rowToRun rows resolve env :
  snd (mapM_env (fun row => rowToRun row resolve) rows env) = env.
Proof.
  induction rows as [|row rows IH]; [reflexivity|].
  cbn [mapM_env]. unfold bind at 1. rewrite rowToRun_resolved.
  destruct (resolved row resolve (WORKFLOW_STORAGE env)); [|reflexivity].
  unfold bind. destruct (mapM_env _ rows env) as [[runs|e] env'] eqn:E; cbn in IH |- *; exact IH.
Qed.

Lemma where_parses_runs name st :
  where_parses
    (match truthy_string st with
     | Some _ =>
         match truthy_string name with
         | Some _ => ["1=1"%string] ++ ["workflow_name = ?"%string]
         | None => ["1=1"%string]
         end ++ ["status = ?"%string]
     | None =>
         match truthy_string name with
         | Some _ => ["1=1"%string] ++ ["workflow_name = ?"%string]
         | None => ["1=1"%string]
         end
     end) = true.
Proof. destruct (truthy_string st), (truthy_string name); reflexivity. Qed.

Lemma buildCursorWhereClause_falsy cur t i order :
  truthy_string cur = None ->
  buildCursorWhereClause cur t i order = Ok {| clause := EmptyString; params := [] |}.
Proof. destruct cur as [[|c r]|]; [reflexivity | discriminate | reflexivity]. Qed.

Lemma list_unfold params env :
  let name := match params with Some p => by_workflowName p | None => None end in
  let st := match params with Some p => by_status p | None => None end in
  let pg := match params with Some p => pagination p | None => None end in
  let resolve := match params with Some p => resolveData p | None => None end in
  let order := default desc (match pg with Some o => sortOrder o | None => None end) in
  truthy_string (match pg with Some o => cursor o | None => None end) = None ->
  list params env =
  (match fst (mapM_env (fun row => rowToRun row resolve)
                (sql_limit (truthy_number (fetchLimit pg))
                   (selected name st order (workflow_runs env)))
                env) with
   | Ok runs => Ok (createPaginatedResponse runs pg createdAt)
   | Throw e => Throw e
   end, env).
Proof.
  intros name st pg resolve order Hc. unfold list.
  fold name st pg resolve order.
  rewrite (buildCursorWhereClause_falsy _ _ _ _ Hc). cbn [clause].
  rewrite where_parses_runs.
  unfold bind, gets, ret.
  pose proof (mapM_rowToRun
                (sql_limit (truthy_number (fetchLimit pg))
                   (selected name st order (workflow_runs env)))
                resolve env) as Henv.
  destruct (mapM_env _ _ env) as [[runs|e] env']; cbn in Henv |- *; subst env'; reflexivity.
Qed.





(** Left out of C5: a step carries [runId] as well as [stepId], and the
    cursor takes the first identifier that is set, so the cursor of a
    page of steps carries the identifier of their run. *)
Example step_cursor_carries_runId (s1 s2 : Steps.Step) :
  Steps.runId s1 = "wrun_a"%string ->
  resp_cursor
    (createPaginatedResponse [s1; s2]
       (Some {| limit := Some 1; cursor := None; sortOrder := None |}) Steps.createdAt)
  = Some (encodeCursor {| lastId := "wrun_a"; lastTimestamp := Steps.createdAt s1 |}).
Proof.
  intros H. unfold createPaginatedResponse. cbn [option_limit limit resp_cursor].
  change (1 <? Z.of_nat (length [s1; s2])) with true. cbn iota.
  change (last (slice0 [s1; s2] 1)) with (Some s1). cbn iota.
  cbn [get_runId Steps.Step_ids]. rewrite H. reflexivity.
Qed.

End ListFacts.

(** ** The step repository *)

Section StepFacts.
Import Steps.

(** C4 at the failing input.  The step "step_1" is running and has no
    completed_at.  An update to cancelled, a status the table accepts, is
    carried out and leaves completed_at unset, because the list the code
    tests holds completed and failed only; the same update to completed
    or to failed stamps completed_at with the time of the update, and so
    does the run repository for a run that is cancelled. *)
Theorem step_cancelled_is_not_stamped :
  StepRow.status_allowed "cancelled" = true /\
  stamps_completion "cancelled" = false /\
  (exists step env',
     update 10240 2000 "wrun_a" "step_1" (status_only "cancelled") one_step
     = (Ok step, env') /\
     step_status step = "cancelled"%string /\ completedAt step = None) /\
  (exists step env',
     update 10240 2000 "wrun_a" "step_1" (status_only "completed") one_step
     = (Ok step, env') /\
     step_status step = "completed"%string /\ completedAt step = Some 2000) /\
  (exists step env',
     update 10240 2000 "wrun_a" "step_1" (status_only "failed") one_step
     = (Ok step, env') /\
     step_status step = "failed"%string /\ completedAt step = Some 2000) /\
  (exists run env',
     Runs.update 10240 2000 "wrun_a" (Runs.status_only "cancelled") Runs.one_run
     = (Ok run, env') /\
     Runs.run_status run = "cancelled"%string /\ Runs.completedAt run = Some 2000).
Proof.
  split; [reflexivity|]. split; [reflexivity|].
  repeat split; eexists _, _; (split; [vm_compute; reflexivity|]); split; reflexivity.
Qed.

End StepFacts.

(** ** The queue *)

Section QueueFacts.
Import MessageRow Queue.

Lemma truthy_string_nonempty (s : string) : s <> EmptyString -> truthy_string (Some s) = Some s.
Proof. destruct s; [contradiction | reflexivity]. Qed.

Lemma key_matches_spec key q r :
  key_matches key q r = true <-> idempotency_key r = Some key /\ queue_name r = q.
Proof.
  unfold key_matches. destruct (idempotency_key r) as [k|].
  - rewrite andb_true_iff, !String.eqb_eq. split.
    + intros [-> ->]. split; reflexivity.
    + intros [[= ->] ->]. split; reflexivity.
  - split; [discriminate | intros [H _]; discriminate H].
Qed.

Lemma find_app_l {A} (p : A -> bool) l1 l2 x :
  find p l1 = Some x -> find p (l1 ++ l2) = Some x.
Proof.
  induction l1 as [|y l1 IH]; [discriminate|]. cbn.
  destruct (p y); [trivial | exact IH].
Qed.

Lemma find_app_r {A} (p : A -> bool) l1 l2 :
  find p l1 = None -> find p (l1 ++ l2) = find p l2.
Proof.
  induction l1 as [|y l1 IH]; [reflexivity|]. cbn.
  destruct (p y); [discriminate | exact IH].
Qed.

(** What a call leaves in the table when it returns [id]: a row with
    that identifier, found again by the same key. *)
Lemma queue_keyed_inv m q msg d key env id env1 :
  key <> EmptyString ->
  queue m q msg (keyed d key) env = (Ok id, env1) ->
  exists row,
    find (key_matches key q) (queue_messages env1) = Some row /\ message_id row = id.
Proof.
  intros Hkey. unfold queue, keyed. cbn [opt_idempotencyKey opt_deploymentId idempotencyKey deploymentId].
  rewrite (truthy_string_nonempty key Hkey).
  unfold bind, gets, ret, insert_message, QUEUE_send, modify.
  destruct (find (key_matches key q) (queue_messages env)) as [existing|] eqn:Efind.
  - intros [= <- <-]. exists existing. split; [exact Efind | reflexivity].
  - cbn [message_id].
    destruct (existsb _ (queue_messages env)); [discriminate|].
    intros [= <- <-]. eexists. split.
    + cbn [queue_messages set_QUEUE set_queue_messages].
      rewrite (find_app_r _ _ _ Efind). cbn [find].
      unfold key_matches at 1. cbn [idempotency_key queue_name].
      rewrite !String.eqb_refl. reflexivity.
    + reflexivity.
Qed.

Lemma existsb_false_not_in m rows :
  existsb (fun r => String.eqb (message_id r) m) rows = false ->
  ~ In m (map message_id rows).
Proof.
  induction rows as [|r rows IH]; cbn; [tauto|].
  destruct (String.eqb_spec (message_id r) m) as [|Hne]; [discriminate|].
  intros H [Heq | Hin]; [contradiction | exact (IH H Hin)].
Qed.

Lemma find_in {A} (p : A -> bool) l x : find p l = Some x -> In x l /\ p x = true.
Proof. apply find_some. Qed.

Lemma queue_unique m q msg opts env id env1 :
  ids_unique env ->
  queue m q msg opts env = (Ok id, env1) ->
  ids_unique env1 /\ In id (map message_id (queue_messages env1)).
Proof.
  unfold ids_unique. intros Hnd. unfold queue.
  assert (Hins :
    forall res,
      (bind (insert_message
               {| message_id := m; queue_name := q;
                  deployment_id := truthy_string (opt_deploymentId opts);
                  idempotency_key := truthy_string (opt_idempotencyKey opts);
                  message_data := JSON.stringify msg; processed_at := None |})
         (fun _ => bind (QUEUE_send
                           {| env_messageId := m; env_queueName := q; env_message := msg;
                              env_deploymentId := opt_deploymentId opts;
                              env_idempotencyKey := opt_idempotencyKey opts |})
                     (fun _ => ret m))) env = res ->
      res = (Ok id, env1) ->
      NoDup (map message_id (queue_messages env1)) /\
      In id (map message_id (queue_messages env1))).
  { intros res <-. unfold bind, ret, insert_message, QUEUE_send, modify. cbn [message_id].
    destruct (existsb _ (queue_messages env)) eqn:Ex; [discriminate|].
    intros [= <- <-]. cbn [queue_messages set_QUEUE set_queue_messages].
    rewrite map_app. cbn [map message_id]. split.
    - apply NoDup_app. repeat split.
      + exact Hnd.
      + intros x Hx Hm. apply list_elem_of_In in Hx. apply list_elem_of_In in Hm.
        destruct Hm as [<- | []]. exact (existsb_false_not_in _ _ Ex Hx).
      + apply NoDup_singleton.
    - apply in_or_app. right. left. reflexivity. }
  destruct (truthy_string (opt_idempotencyKey opts)) as [key|]; [|intros H; exact (Hins _ eq_refl H)].
  unfold bind at 1, gets.
  destruct (find (key_matches key q) (queue_messages env)) as [existing|] eqn:Efind;
    [|intros H; exact (Hins _ eq_refl H)].
  intros [= <- <-]. split; [exact Hnd|].
  apply in_map. apply (find_in _ _ _ Efind).
Qed.

Lemma unique_row rows (a b : QueueMessageRow) :
  NoDup (map message_id rows) -> In a rows -> In b rows ->
  message_id a = message_id b -> a = b.
Proof.
  induction rows as [|r rows IH]; cbn; [tauto|].
  intros Hnd Ha Hb Heq. apply NoDup_cons in Hnd as [Hr Hnd].
  rewrite list_elem_of_In in Hr.
  destruct Ha as [<- | Ha], Hb as [<- | Hb].
  - reflexivity.
  - exfalso. apply Hr. rewrite Heq. apply in_map, Hb.
  - exfalso. apply Hr. rewrite <- Heq. apply in_map, Ha.
  - exact (IH Hnd Ha Hb Heq).
Qed.

Lemma queue_table m q msg opts env :
  queue_messages (snd (queue m q msg opts env)) = queue_messages env \/
  exists row,
    queue_messages (snd (queue m q msg opts env)) = queue_messages env ++ [row] /\
    message_id row = m /\
    existsb (fun r => String.eqb (message_id r) m) (queue_messages env) = false.
Proof.
  remember (queue m q msg opts env) as res eqn:Hres. unfold queue in Hres.
  assert (Hins :
    let res0 :=
      (bind (insert_message
               {| message_id := m; queue_name := q;
                  deployment_id := truthy_string (opt_deploymentId opts);
                  idempotency_key := truthy_string (opt_idempotencyKey opts);
                  message_data := JSON.stringify msg; processed_at := None |})
         (fun _ => bind (QUEUE_send
                           {| env_messageId := m; env_queueName := q; env_message := msg;
                              env_deploymentId := opt_deploymentId opts;
                              env_idempotencyKey := opt_idempotencyKey opts |})
                     (fun _ => ret m))) env in
    queue_messages (snd res0) = queue_messages env \/
    exists row,
      queue_messages (snd res0) = queue_messages env ++ [row] /\
      message_id row = m /\
      existsb (fun r => String.eqb (message_id r) m) (queue_messages env) = false).
  { cbv zeta. unfold bind, ret, insert_message, QUEUE_send, modify. cbn [message_id].
    destruct (existsb _ (queue_messages env)) eqn:Ex; [left; reflexivity|].
    right. eexists. split; [reflexivity|]. split; reflexivity. }
  destruct (truthy_string (opt_idempotencyKey opts)) as [key|]; [|subst res; exact Hins].
  unfold bind at 1, gets in Hres.
  destruct (find (key_matches key q) (queue_messages env));
    subst res; [left; reflexivity | exact Hins].
Qed.

Lemma find_processed (p : QueueMessageRow -> bool) now id rows :
  (forall r, p (set_processed_at now r) = p r) ->
  find p (map (fun r => if String.eqb (message_id r) id then set_processed_at now r else r) rows)
  = option_map (fun r => if String.eqb (message_id r) id then set_processed_at now r else r)
      (find p rows).
Proof.
  intros Hp. induction rows as [|r rows IH]; [reflexivity|]. cbn [map find].
  destruct (String.eqb (message_id r) id) eqn:E.
  - rewrite Hp. destruct (p r); [cbn; rewrite E; reflexivity | exact IH].
  - destruct (p r); [cbn; rewrite E; reflexivity | exact IH].
Qed.

Lemma ids_processed now id rows :
  map message_id
    (map (fun r => if String.eqb (message_id r) id then set_processed_at now r else r) rows)
  = map message_id rows.
Proof.
  induction rows as [|r rows IH]; [reflexivity|]. cbn [map]. rewrite IH.
  destruct (String.eqb (message_id r) id); reflexivity.
Qed.

(** The row that answers a key stays the first that answers it, and the
    identifiers stay unique. *)
Lemma later_keeps key q id env1 env2 :
  later env1 env2 ->
  (exists row, find (key_matches key q) (queue_messages env1) = Some row /\ message_id row = id) ->
  (exists row, find (key_matches key q) (queue_messages env2) = Some row /\ message_id row = id)
  /\ (ids_unique env1 -> ids_unique env2).
Proof.
  intros Hlater H1. induction Hlater as [|env' m q' msg opts _ [IH IHu]|env' now mid _ [IH IHu]
                                        |env' env'' _ [IH IHu] Hsame].
  - split; [exact H1 | trivial].
  - destruct IH as (row & Hfind & Hid). unfold ids_unique in *.
    destruct (queue_table m q' msg opts env') as [-> | (new & -> & Hnew & Hfresh)].
    + split; [eauto | exact IHu].
    + split; [exists row; split; [apply find_app_l, Hfind | exact Hid]|].
      intros Hu. specialize (IHu Hu).
      rewrite map_app. cbn [map]. apply NoDup_app. repeat split.
      * exact IHu.
      * intros x Hx Hm. apply list_elem_of_In in Hx. apply list_elem_of_In in Hm.
        destruct Hm as [<- | []]. rewrite Hnew in Hx.
        exact (existsb_false_not_in _ _ Hfresh Hx).
      * apply NoDup_singleton.
  - destruct IH as (row & Hfind & Hid). unfold mark_processed, modify.
    cbn [snd queue_messages set_queue_messages]. split.
    + rewrite find_processed, Hfind by reflexivity. cbn [option_map].
      eexists. split; [reflexivity|].
      destruct (String.eqb (message_id row) mid); exact Hid.
    + intros Hu. unfold ids_unique. cbn [queue_messages set_queue_messages].
      rewrite ids_processed. exact (IHu Hu).
  - unfold ids_unique. rewrite Hsame. split; [exact IH | exact IHu].
Qed.

(** C6, amended.  After a call with a non-empty idempotency key has
    returned an identifier, every later call with the same queue name and
    key returns that identifier and changes nothing: no row is added and
    nothing is sent.  Later is in any state that the worker reaches from
    there, by enqueueing under any name and key, by marking messages as
    processed and by anything that leaves the message table alone.  When
    the identifiers in the table are unique (the primary key), a later
    call with another key, with none or with another queue name that
    returns, returns another identifier. *)
Theorem enqueue_is_idempotent env m1 q msg1 d1 key id1 env1 :
  key <> EmptyString ->
  queue m1 q msg1 (keyed d1 key) env = (Ok id1, env1) ->
  (forall env2, later env1 env2 ->
     forall m2 msg2 d2, queue m2 q msg2 (keyed d2 key) env2 = (Ok id1, env2)) /\
  (ids_unique env ->
   forall env2, later env1 env2 ->
     forall m2 q2 msg2 opts2 id2 env3,
       truthy_string (opt_idempotencyKey opts2) <> Some key \/ q2 <> q ->
       queue m2 q2 msg2 opts2 env2 = (Ok id2, env3) ->
       id2 <> id1).
Proof.
  intros Hkey Hcall.
  pose proof (queue_keyed_inv _ _ _ _ _ _ _ _ Hkey Hcall) as H1.
  split.
  - intros env2 Hlater m2 msg2 d2.
    destruct (proj1 (later_keeps key q id1 env1 env2 Hlater H1)) as (row & Hfind & Hid).
    unfold queue, keyed. cbn [opt_idempotencyKey idempotencyKey].
    rewrite (truthy_string_nonempty key Hkey).
    unfold bind, gets. rewrite Hfind, Hid. reflexivity.
  - intros Hu env2 Hlater m2 q2 msg2 opts2 id2 env3 Hother Hcall2.
    destruct (queue_unique _ _ _ _ _ _ _ Hu Hcall) as [Hu1 _].
    destruct (later_keeps key q id1 env1 env2 Hlater H1) as [(row & Hfind & Hid) Hu2].
    specialize (Hu2 Hu1).
    destruct (find_in _ _ _ Hfind) as [Hin Hm].
    apply key_matches_spec in Hm as [Hk Hq].
    rewrite <- Hid. clear Hcall H1.
    unfold queue in Hcall2.
    assert (Hins :
      forall res,
        (bind (insert_message
                 {| message_id := m2; queue_name := q2;
                    deployment_id := truthy_string (opt_deploymentId opts2);
                    idempotency_key := truthy_string (opt_idempotencyKey opts2);
                    message_data := JSON.stringify msg2; processed_at := None |})
           (fun _ => bind (QUEUE_send
                             {| env_messageId := m2; env_queueName := q2; env_message := msg2;
                                env_deploymentId := opt_deploymentId opts2;
                                env_idempotencyKey := opt_idempotencyKey opts2 |})
                       (fun _ => ret m2))) env2 = res ->
        res = (Ok id2, env3) -> id2 <> message_id row).
    { intros res <-. unfold bind, ret, insert_message, QUEUE_send, modify. cbn [message_id].
      destruct (existsb _ (queue_messages env2)) eqn:Ex; [discriminate|].
      intros [= <- _] Heq. apply (existsb_false_not_in _ _ Ex). rewrite Heq.
      apply in_map, Hin. }
    destruct (truthy_string (opt_idempotencyKey opts2)) as [k2|] eqn:Ek;
      [|exact (Hins _ eq_refl Hcall2)].
    unfold bind at 1, gets in Hcall2.
    destruct (find (key_matches k2 q2) (queue_messages env2)) as [e2|] eqn:Efind;
      [|exact (Hins _ eq_refl Hcall2)].
    injection Hcall2 as <- _. intros Heq.
    destruct (find_in _ _ _ Efind) as [Hin2 Hm2].
    apply key_matches_spec in Hm2 as [Hk2 Hq2].
    assert (e2 = row) as -> by exact (unique_row _ _ _ Hu2 Hin2 Hin Heq).
    destruct Hother as [Hne | Hne]; [apply Hne | apply Hne]; congruence.
Qed.

Lemma enqueue_is_idempotent_witness :
  exists env1 env2 env3,
    queue "msg_1" "__wkf_step_charge" (JNum 1) (keyed None "checkout-42") empty_env
    = (Ok "msg_1"%string, env1) /\
    queue "msg_2" "__wkf_step_charge" (JNum 2) (keyed None "checkout-43") env1
    = (Ok "msg_2"%string, env2) /\
    mark_processed 5000 "msg_1" env2 = (Ok tt, env3) /\
    queue "msg_3" "__wkf_step_charge" (JNum 3) (keyed None "checkout-42") env3
    = (Ok "msg_1"%string, env3).
Proof.
  pose (env1 := snd (queue "msg_1" "__wkf_step_charge" (JNum 1) (keyed None "checkout-42")
                       empty_env)).
  pose (env2 := snd (queue "msg_2" "__wkf_step_charge" (JNum 2) (keyed None "checkout-43")
                       env1)).
  pose (env3 := snd (mark_processed 5000 "msg_1" env2)).
  exists env1, env2, env3.
  split; [reflexivity|]. split; [reflexivity|]. split; [reflexivity|].
  refine (proj1 (enqueue_is_idempotent empty_env "msg_1" "__wkf_step_charge" (JNum 1) None
                   "checkout-42" "msg_1" env1 _ eq_refl) env3 _ "msg_3" (JNum 3) None).
  - discriminate.
  - apply (later_processed env1 env2 5000 "msg_1").
    apply (later_queue env1 env1 "msg_2" "__wkf_step_charge" (JNum 2)
             (keyed None "checkout-43")).
    apply later_now.
Defined.

(** C6, the claim as stated, fails for the empty key: it is falsy, so
    the lookup is skipped, and two calls with the same queue name and key
    insert two rows, send two messages and return two identifiers. *)
Lemma enqueue_empty_key_twice :
  exists env1 env2,
    queue "msg_1" "__wkf_step_charge" (JNum 1) (keyed None EmptyString) empty_env
    = (Ok "msg_1"%string, env1) /\
    queue "msg_2" "__wkf_step_charge" (JNum 1) (keyed None EmptyString) env1
    = (Ok "msg_2"%string, env2) /\
    "msg_1"%string <> "msg_2"%string /\
    length (queue_messages env2) = 2%nat /\ length (QUEUE env2) = 2%nat.
Proof.
  eexists _, _. split; [reflexivity|]. split; [reflexivity|].
  split; [discriminate|]. split; reflexivity.
Qed.
End QueueFacts.

(** ** The run coordinator *)

Section CoordinatorFacts.
Import Coordinator.

Lemma initialize_fresh rid :
  initialize rid (new_object None) =
  (Ok tt,
   {| storage := Some {| runId := rid; status := "pending";
                         activeSteps := JSArray (elements (∅ : gset string));
                         completedSteps := JSArray (elements (∅ : gset string));
                         failedSteps := JSArray (elements (∅ : gset string));
                         metadata := ∅ |};
      workflowState := Some {| runId := rid; status := "pending";
                               activeSteps := JSSet ∅; completedSteps := JSSet ∅;
                               failedSteps := JSSet ∅; metadata := ∅ |} |}).
Proof. reflexivity. Qed.

Lemma initialize_fresh_live rid :
  live (snd (initialize rid (new_object None))) /\
  step_sets_disjoint (snd (initialize rid (new_object None))).
Proof.
  rewrite initialize_fresh; split.
  - eexists; split; [reflexivity|]. repeat split; eexists; reflexivity.
  - repeat split; intros x Hx; cbn in Hx; set_solver.
Qed.

Lemma call_live op o :
  live o -> fst (call op o) = Ok tt /\ live (snd (call op o)).
Proof.
  intros (ws & Hws & (a & Ha) & (c & Hc) & (f & Hf)).
  destruct ws as [r st a0 c0 f0 md]; cbn in Ha, Hc, Hf; subst.
  destruct o as [sto w]; cbn in Hws; subst.
  destruct op; cbn; (split; [reflexivity|]);
    (eexists; split; [reflexivity|]); repeat split; eexists; reflexivity.
Qed.

Lemma call_disjoint op o :
  live o -> step_sets_disjoint o -> op_admissible op o ->
  step_sets_disjoint (snd (call op o)).
Proof.
  intros (ws & Hws & (a & Ha) & (c & Hc) & (f & Hf)).
  destruct ws as [r st a0 c0 f0 md]; cbn in Ha, Hc, Hf; subst.
  destruct o as [sto w]; cbn in Hws; subst.
  unfold step_sets_disjoint, op_admissible, state_disjoint, colls_disjoint; cbn.
  intros (H1 & H2 & H3) Hadm.
  destruct op; cbn in Hadm |- *; repeat split; intros x Hx Hy;
    set_unfold; intuition (subst; eauto).
Qed.

Lemma run_ops_disjoint ops : forall o,
  live o -> step_sets_disjoint o -> admissible ops o ->
  live (run_ops ops o) /\ step_sets_disjoint (run_ops ops o).
Proof.
  induction ops as [|op rest IH]; intros o Hl Hd Ha; cbn.
  - split; assumption.
  - destruct Ha as [Hop Hrest].
    apply IH; [apply call_live, Hl | apply call_disjoint; assumption | assumption].
Qed.

Lemma start_then_complete s o :
  live o ->
  exists ws, workflowState (snd (completeStep s (snd (startStep s o)))) = Some ws /\
             coll_elem s (completedSteps ws) /\ ~ coll_elem s (activeSteps ws).
Proof.
  intros (ws & Hws & (a & Ha) & (c & Hc) & (f & Hf)).
  destruct ws as [r st a0 c0 f0 md]; cbn in Ha, Hc, Hf; subst.
  destruct o as [sto w]; cbn in Hws; subst.
  eexists; split; [reflexivity|]; cbn; set_unfold; intuition.
Qed.

(** C1, the claim as stated, fails: a step that is started again after
    it completed is in [activeSteps] and in [completedSteps]. *)
Lemma step_sets_not_always_disjoint :
  ~ step_sets_disjoint
      (run_ops [StartStep "s"; CompleteStep "s"; StartStep "s"]
         (snd (initialize "run" (new_object None)))).
Proof.
  cbn. intros (H & _). apply (H "s"); cbn; set_unfold; intuition.
Qed.

(** C1, amended.  On a coordinator initialised on empty storage, the
    three sets stay pairwise disjoint along every sequence of step
    operations in which no operation is given an identifier that is
    already in a set the operation leaves alone (startStep: completed or
    failed; completeStep: failed; failStep: completed); and on every
    coordinator whose step fields are Sets, startStep(s) followed by
    completeStep(s) leaves s in completedSteps and out of activeSteps. *)
Theorem step_sets_disjoint_when_admissible rid ops :
  admissible ops (snd (initialize rid (new_object None))) ->
  step_sets_disjoint (run_ops ops (snd (initialize rid (new_object None)))) /\
  (forall s o, live o ->
     exists ws, workflowState (snd (completeStep s (snd (startStep s o)))) = Some ws /\
                coll_elem s (completedSteps ws) /\ ~ coll_elem s (activeSteps ws)).
Proof.
  intros Hadm. split.
  - destruct (initialize_fresh_live rid) as [Hl Hd].
    apply run_ops_disjoint; assumption.
  - intros s o Hl. apply start_then_complete, Hl.
Qed.

Lemma step_sets_disjoint_when_admissible_witness :
  admissible [StartStep "a"; StartStep "b"; CompleteStep "a"; FailStep "b"]
    (snd (initialize "run" (new_object None))) /\
  step_sets_disjoint
    (run_ops [StartStep "a"; StartStep "b"; CompleteStep "a"; FailStep "b"]
       (snd (initialize "run" (new_object None)))).
Proof.
  assert (Hadm : admissible [StartStep "a"; StartStep "b"; CompleteStep "a"; FailStep "b"]
                   (snd (initialize "run" (new_object None)))).
  { cbn. set_unfold. intuition congruence. }
  split; [exact Hadm|].
  exact (proj1 (step_sets_disjoint_when_admissible "run"
                  [StartStep "a"; StartStep "b"; CompleteStep "a"; FailStep "b"] Hadm)).
Defined.

(** The part of C7 that holds on every coordinator: a step operation
    before [initialize] throws 'Workflow state not initialized' and
    changes neither the private field nor the storage. *)
Lemma step_op_before_initialize op o :
  workflowState o = None -> call op o = (Throw NotInitialized, o).
Proof. intros H. destruct op; cbn; unfold startStep, completeStep, failStep; rewrite H; reflexivity. Qed.

(** On Sets every step operation succeeds for every identifier (no step
    entity is looked up), and doing it twice is doing it once. *)
Lemma step_op_on_live_sets op o :
  live o ->
  fst (call op o) = Ok tt /\
  call op (snd (call op o)) = (Ok tt, snd (call op o)).
Proof.
  intros (ws & Hws & (a & Ha) & (c & Hc) & (f & Hf)).
  destruct ws as [r st a0 c0 f0 md]; cbn in Ha, Hc, Hf; subst.
  destruct o as [sto w]; cbn in Hws; subst.
  assert (Hadd : forall (x : string) (X : gset string), {[x]} ∪ ({[x]} ∪ X) = {[x]} ∪ X)
    by (intros; apply set_eq; intros y; set_unfold; tauto).
  assert (Hdel : forall (x : string) (X : gset string), X ∖ {[x]} ∖ {[x]} = X ∖ {[x]})
    by (intros; apply set_eq; intros y; set_unfold; tauto).
  destruct op as [s|s|s]; (split; [reflexivity|]); cbn;
    unfold set_storage, set_workflowState, set_activeSteps, set_completedSteps,
      set_failedSteps, serializable; cbn;
    rewrite ?Hadd, ?Hdel; reflexivity.
Qed.

(** What [persistState] writes holds arrays, so on an instance that
    [initialize] filled from storage every step operation stops at the
    first [add] or [delete]. *)
Lemma step_op_after_load ws rid op :
  call op (snd (initialize rid (new_object (Some (serializable ws))))) =
  (Throw TypeError, snd (initialize rid (new_object (Some (serializable ws))))).
Proof. destruct ws as [r st [a|a] [c|c] [f|f] md]; destruct op; reflexivity. Qed.

(** C7 at the failing input.  A first instance is initialised on empty
    storage, which persists the fresh state; a second instance of the
    same coordinator is constructed over that storage and initialised.
    On the second instance startStep, completeStep and failStep throw a
    TypeError for every step identifier, although [initialize] has been
    called; the state is left as it was. *)
Theorem step_ops_on_reloaded_coordinator_throw :
  let first := snd (initialize "run" (new_object None)) in
  let second := snd (initialize "run" (new_object (storage first))) in
  fst (startStep "s1" first) = Ok tt /\
  workflowState second <> None /\
  forall stepId,
    startStep stepId second = (Throw TypeError, second) /\
    completeStep stepId second = (Throw TypeError, second) /\
    failStep stepId second = (Throw TypeError, second).
Proof.
  cbn. split; [reflexivity|]. split; [discriminate|].
  intros stepId. repeat split.
Qed.

(** C10.  On a coordinator on which [initialize] has not been called,
    getMetadata returns undefined for every key and canAcceptSteps
    returns false, neither changing the coordinator, while each of the
    step operations throws 'Workflow state not initialized'. *)
Theorem uninitialized_reads_do_not_fail o key :
  workflowState o = None ->
  getMetadata key o = (Ok None, o) /\
  canAcceptSteps o = (Ok false, o) /\
  forall op, fst (call op o) = Throw NotInitialized.
Proof.
  intros H. unfold getMetadata, canAcceptSteps. rewrite H.
  repeat split. intros op. rewrite (step_op_before_initialize op o H). reflexivity.
Qed.

Lemma uninitialized_reads_do_not_fail_witness :
  workflowState (new_object None) = None /\
  getMetadata "attempts" (new_object None) = (Ok None, new_object None) /\
  canAcceptSteps (new_object None) = (Ok false, new_object None).
Proof.
  split; [reflexivity|].
  destruct (uninitialized_reads_do_not_fail (new_object None) "attempts" eq_refl)
    as (Hm & Hc & _).
  split; [exact Hm | exact Hc].
Defined.

End CoordinatorFacts.

(** ** The payload store: deleting, and keys *)

Section PayloadStoreMore.
Import R2.

(** Reading a key back: the prefix is what stands before the first
    slash when it has none itself. *)
Lemma slash_free_split a a' (b b' : string) :
  slash_free a = true -> slash_free a' = true ->
  a +:+ String "/" b = a' +:+ String "/" b' -> a = a' /\ b = b'.
Proof.
  revert a'. induction a as [|c a IH]; intros [|c' a'] Ha Ha' H.
  - injection H as <-. split; reflexivity.
  - exfalso. injection H as <- _. cbn in Ha'. discriminate.
  - exfalso. injection H as -> _. cbn in Ha. discriminate.
  - injection H as <- H. cbn in Ha, Ha'.
    apply andb_prop in Ha as [_ Ha]. apply andb_prop in Ha' as [_ Ha'].
    destruct (IH a' Ha Ha' H) as [<- <-]. split; reflexivity.
Qed.

Lemma generateR2Key_shape prefix id field :
  generateR2Key prefix id field = prefix +:+ String "/" (id +:+ String "/" field).
Proof.
  reflexivity.
Qed.

Lemma generateR2Key_injective p i f p' i' f' :
  slash_free p = true -> slash_free i = true ->
  slash_free p' = true -> slash_free i' = true ->
  generateR2Key p i f = generateR2Key p' i' f' -> p = p' /\ i = i' /\ f = f'.
Proof.
  intros Hp Hi Hp' Hi'. rewrite !generateR2Key_shape. intros H.
  destruct (slash_free_split _ _ _ _ Hp Hp' H) as [<- H1].
  destruct (slash_free_split _ _ _ _ Hi Hi' H1) as [<- <-]. repeat split.
Qed.



(** X2.  Payloads stored under different (prefix, id, field) triples
    do not overwrite each other, when neither prefix nor id holds a
    slash: after A is stored and then B, both references resolve, A's to
    A and B's to B, whatever the threshold sends to the bucket. *)
Theorem stored_payloads_do_not_clobber A B p1 i1 f1 p2 i2 f2 t (bucket : gmap string string) :
  slash_free p1 = true -> slash_free i1 = true ->
  slash_free p2 = true -> slash_free i2 = true ->
  (p1, i1, f1) <> (p2, i2, f2) ->
  exists refA b1 refB b2,
    storeData A p1 i1 f1 t bucket = (Ok refA, b1) /\
    storeData B p2 i2 f2 t b1 = (Ok refB, b2) /\
    retrieveData (Some refA) b2 = (Ok A, b2) /\
    retrieveData (Some refB) b2 = (Ok B, b2).
Proof.
  intros Hp1 Hi1 Hp2 Hi2 Hne.
  assert (Hkey : generateR2Key p1 i1 f1 <> generateR2Key p2 i2 f2).
  { intros H. apply Hne.
    destruct (generateR2Key_injective _ _ _ _ _ _ Hp1 Hi1 Hp2 Hi2 H) as (-> & -> & ->).
    reflexivity. }
  unfold storeData.
  destruct (Z.of_nat (String.length (JSON.stringify A)) <=? t);
    destruct (Z.of_nat (String.length (JSON.stringify B)) <=? t);
    eexists _, _, _, _; (split; [reflexivity|]); (split; [reflexivity|]);
    cbn [retrieveData type data]; unfold JSON_parse;
    rewrite ?lookup_insert_eq, ?(lookup_insert_ne _ _ _ _ (not_eq_sym Hkey)), ?lookup_insert_eq,
      !parse_stringify; split; reflexivity.
Qed.

Lemma stored_payloads_do_not_clobber_witness :
  exists refA b1 refB b2,
    storeData (JStr "a long input") "inputs" "wrun_1" "input" 4 ∅ = (Ok refA, b1) /\
    storeData (JStr "a long output") "outputs" "wrun_1" "output" 4 b1 = (Ok refB, b2) /\
    retrieveData (Some refA) b2 = (Ok (JStr "a long input"), b2) /\
    retrieveData (Some refB) b2 = (Ok (JStr "a long output"), b2).
Proof.
  apply (stored_payloads_do_not_clobber (JStr "a long input") (JStr "a long output")
           "inputs" "wrun_1" "input" "outputs" "wrun_1" "output" 4 ∅);
    [reflexivity | reflexivity | reflexivity | reflexivity | discriminate].
Defined.

End PayloadStoreMore.

(** ** Cursor pagination: the clause and the page *)

Section PaginationMore.
Import Pagination.

Lemma btoa_nonempty c r : exists c' r', Base64.btoa (String c r) = String c' r'.
Proof.
  unfold Base64.btoa. cbn [list_ascii_of_string map].
  destruct (list_ascii_of_string r) as [|b [|d rest]]; cbn [map Base64.sextets app string_of_list_ascii];
    eexists _, _; reflexivity.
Qed.

Lemma encodeCursor_nonempty c : exists ch r, encodeCursor c = String ch r.
Proof. unfold encodeCursor. cbn [cursor_json JSON.stringify]. apply btoa_nonempty. Qed.

Lemma buildCursorWhereClause_decoded ch r t i order decoded ts id :
  decodeCursor (String ch r) = Ok decoded ->
  param decoded "lastTimestamp" = Ok ts ->
  param decoded "lastId" = Ok id ->
  exists cl,
    buildCursorWhereClause (Some (String ch r)) t i order = Ok cl /\
    params cl = [ts; ts; id] /\
    clause cl =
      match order with
      | desc => "AND (" +:+ t +:+ " < ? OR (" +:+ t +:+ " = ? AND " +:+ i +:+ " < ?))"
      | asc => "AND (" +:+ t +:+ " > ? OR (" +:+ t +:+ " = ? AND " +:+ i +:+ " > ?))"
      end.
Proof.
  intros Hd Hts Hid. unfold buildCursorWhereClause. rewrite Hd, Hts, Hid.
  destruct order; eexists; repeat split.
Qed.

Lemma param_total decoded k :
  decoded <> JSON.Known JNull -> exists p, param decoded k = Ok p.
Proof.
  intros H. destruct decoded as [v|]; [|eexists; reflexivity].
  destruct v; try (eexists; reflexivity); [contradiction|].
  cbn. destruct (member k m); eexists; reflexivity.
Qed.

Lemma buildCursorWhereClause_encodeCursor c t i order :
  JSON.safe_integer (lastTimestamp c) = true ->
  exists cl,
    buildCursorWhereClause (Some (encodeCursor c)) t i order = Ok cl /\
    params cl = [Bound (JNum (lastTimestamp c)); Bound (JNum (lastTimestamp c));
                 Bound (JStr (lastId c))] /\
    String.prefix "AND (" (clause cl) = true.
Proof.
  intros Hc. destruct (encodeCursor_nonempty c) as (ch & r & E).
  destruct (buildCursorWhereClause_decoded ch r t i order (JSON.Known (cursor_json c))
              (Bound (JNum (lastTimestamp c))) (Bound (JStr (lastId c))))
    as (cl & Hb & Hp & Hcl); [rewrite <- E; apply decodeCursor_encodeCursor, Hc | reflexivity ..|].
  exists cl. rewrite E. split; [exact Hb|]. split; [exact Hp|].
  rewrite Hcl. destruct order; apply prefix_append.
Qed.

(** X3.  What buildCursorWhereClause makes of a cursor.  An absent or
    empty cursor gives the empty fragment.  A non-empty string that
    decodeCursor rejects throws 'Invalid pagination cursor'.  A string
    that decodes to null throws a TypeError, raised by the property
    access outside decodeCursor's try.  Every other non-empty string
    gives a fragment that begins with AND, for the named columns, bound
    to decoded.lastTimestamp, twice, and decoded.lastId: the timestamp
    and the identifier of an encoded cursor, and undefined for a number,
    a string, a boolean or an array. *)
Theorem buildCursorWhereClause_cases t i order :
  (forall cur, truthy_string cur = None ->
     buildCursorWhereClause cur t i order = Ok {| clause := EmptyString; params := [] |}) /\
  (forall s e, s <> EmptyString -> decodeCursor s = Throw e ->
     e = InvalidCursor /\ buildCursorWhereClause (Some s) t i order = Throw InvalidCursor) /\
  (forall s, s <> EmptyString -> decodeCursor s = Ok (JSON.Known JNull) ->
     buildCursorWhereClause (Some s) t i order = Throw TypeError) /\
  (forall s decoded, s <> EmptyString -> decodeCursor s = Ok decoded ->
     decoded <> JSON.Known JNull ->
     exists cl ts id,
       buildCursorWhereClause (Some s) t i order = Ok cl /\
       param decoded "lastTimestamp" = Ok ts /\ param decoded "lastId" = Ok id /\
       params cl = [ts; ts; id] /\
       clause cl =
         match order with
         | desc => "AND (" +:+ t +:+ " < ? OR (" +:+ t +:+ " = ? AND " +:+ i +:+ " < ?))"
         | asc => "AND (" +:+ t +:+ " > ? OR (" +:+ t +:+ " = ? AND " +:+ i +:+ " > ?))"
         end) /\
  (forall c, JSON.safe_integer (lastTimestamp c) = true ->
     exists cl,
       buildCursorWhereClause (Some (encodeCursor c)) t i order = Ok cl /\
       params cl = [Bound (JNum (lastTimestamp c)); Bound (JNum (lastTimestamp c));
                    Bound (JStr (lastId c))]) /\
  (forall s v, s <> EmptyString -> decodeCursor s = Ok (JSON.Known v) -> v <> JNull ->
     (forall m, v <> JObj m) ->
     exists cl,
       buildCursorWhereClause (Some s) t i order = Ok cl /\
       params cl = [Undefined; Undefined; Undefined]).
Proof.
  split; [intros cur Hcur; apply buildCursorWhereClause_falsy, Hcur|].
  split; [|split; [|split; [|split]]].
  - intros [|ch r] e Hs Hd; [contradiction|].
    assert (e = InvalidCursor) as ->.
    { unfold decodeCursor in Hd. destruct (Base64.atob _) as [text|]; [|congruence].
      destruct (JSON.read text); congruence. }
    split; [reflexivity|]. unfold buildCursorWhereClause. rewrite Hd. reflexivity.
  - intros [|ch r] Hs Hd; [contradiction|].
    unfold buildCursorWhereClause. rewrite Hd. reflexivity.
  - intros [|ch r] decoded Hs Hd Hnull; [contradiction|].
    destruct (param_total decoded "lastTimestamp" Hnull) as (ts & Hts).
    destruct (param_total decoded "lastId" Hnull) as (id & Hid).
    destruct (buildCursorWhereClause_decoded ch r t i order decoded ts id Hd Hts Hid)
      as (cl & Hb & Hp & Hcl).
    exists cl, ts, id. repeat split; assumption.
  - intros c Hc.
    destruct (buildCursorWhereClause_encodeCursor c t i order Hc) as (cl & Hb & Hp & _).
    exists cl. split; assumption.
  - intros [|ch r] v Hs Hd Hnull Hobj; [contradiction|].
    assert (Hp : forall k, param (JSON.Known v) k = Ok Undefined).
    { intros k. destruct v; try reflexivity; [contradiction | exfalso; eapply Hobj; reflexivity]. }
    destruct (buildCursorWhereClause_decoded ch r t i order (JSON.Known v) Undefined Undefined
                Hd (Hp _) (Hp _)) as (cl & Hb & Hpar & _).
    exists cl. split; assumption.
Qed.

Section Page.
Context {T : Type} `{HasIds T}.

Lemma page_with_limit (items : list T) lim cur order (getTimestamp : T -> Z) :
  0 < lim ->
  let resp :=
    createPaginatedResponse items
      (Some {| limit := Some lim; cursor := cur; sortOrder := order |}) getTimestamp in
  resp_data resp = take (Z.to_nat lim) items /\
  hasMore resp = (lim <? Z.of_nat (length items)) /\
  (hasMore resp = false -> resp_data resp = items /\ resp_cursor resp = None) /\
  (hasMore resp = true ->
   exists x,
     items !! (Z.to_nat lim - 1)%nat = Some x /\
     last (resp_data resp) = Some x /\
     resp_cursor resp =
       Some (encodeCursor
               {| lastId :=
                    or_else (get_runId x)
                      (or_else (get_stepId x)
                         (or_else (get_eventId x) (or_else (get_hookId x) EmptyString)));
                  lastTimestamp := getTimestamp x |}) /\
     forall c r, get_runId x = Some (String c r) ->
       resp_cursor resp =
         Some (encodeCursor {| lastId := String c r; lastTimestamp := getTimestamp x |})).
Proof.
  intros Hlim resp. subst resp. unfold createPaginatedResponse. cbn [option_limit limit].
  destruct lim as [|p|p]; try lia.
  unfold slice0. cbn [Z.leb Z.compare].
  destruct (Z.ltb_spec (Z.pos p) (Z.of_nat (length items))) as [Hlt|Hge]; cbn [resp_data hasMore resp_cursor].
  - split; [reflexivity|]. split; [reflexivity|]. split; [discriminate|]. intros _.
    assert (Hx : exists x, items !! (Z.to_nat (Z.pos p) - 1)%nat = Some x).
    { apply lookup_lt_is_Some. lia. }
    destruct Hx as [x Hx]. exists x. split; [exact Hx|].
    assert (Hlast : last (take (Z.to_nat (Z.pos p)) items) = Some x).
    { rewrite last_lookup, length_take.
      replace (Init.Nat.pred (Z.to_nat (Z.pos p) `min` length items))
        with (Z.to_nat (Z.pos p) - 1)%nat by lia.
      rewrite lookup_take_lt by lia. exact Hx. }
    rewrite Hlast. split; [reflexivity|]. split; [reflexivity|].
    intros c r ->. reflexivity.
  - split; [rewrite take_ge by lia; reflexivity|]. split; [reflexivity|].
    split; [intros _; split; reflexivity | discriminate].
Qed.

(** X4.  createPaginatedResponse with a limit above 0, for every item
    type.  The page is the first limit items; hasMore says whether there
    were more; without more items the page is all of them and there is
    no cursor; with more, the cursor encodes the timestamp of the last
    item of the page and the first of its runId, stepId, eventId and
    hookId that is not empty, so for an item that has a run identifier
    the cursor carries the run identifier. *)
Theorem createPaginatedResponse_page (items : list T) lim cur order (getTimestamp : T -> Z) :
  0 < lim ->
  let resp :=
    createPaginatedResponse items
      (Some {| limit := Some lim; cursor := cur; sortOrder := order |}) getTimestamp in
  resp_data resp = take (Z.to_nat lim) items /\
  hasMore resp = (lim <? Z.of_nat (length items)) /\
  (hasMore resp = false -> resp_data resp = items /\ resp_cursor resp = None) /\
  (hasMore resp = true ->
   exists x,
     items !! (Z.to_nat lim - 1)%nat = Some x /\
     last (resp_data resp) = Some x /\
     resp_cursor resp =
       Some (encodeCursor
               {| lastId :=
                    or_else (get_runId x)
                      (or_else (get_stepId x)
                         (or_else (get_eventId x) (or_else (get_hookId x) EmptyString)));
                  lastTimestamp := getTimestamp x |}) /\
     forall c r, get_runId x = Some (String c r) ->
       resp_cursor resp =
         Some (encodeCursor {| lastId := String c r; lastTimestamp := getTimestamp x |})).
Proof. apply page_with_limit. Qed.

(** X5.  createPaginatedResponse with a limit below 0.  hasMore is
    true whatever the items; the page is the items without their last
    -limit ones; the cursor is missing exactly when that page is
    empty. *)
Theorem createPaginatedResponse_negative_limit (items : list T) lim cur order
    (getTimestamp : T -> Z) :
  lim < 0 ->
  let resp :=
    createPaginatedResponse items
      (Some {| limit := Some lim; cursor := cur; sortOrder := order |}) getTimestamp in
  hasMore resp = true /\
  resp_data resp = take (length items - Z.to_nat (- lim)) items /\
  (resp_cursor resp = None <-> Z.of_nat (length items) <= - lim).
Proof.
  intros Hlim resp. subst resp. unfold createPaginatedResponse. cbn [option_limit limit].
  destruct lim as [|p|p]; try lia.
  assert ((Z.neg p <? Z.of_nat (length items)) = true) as -> by (apply Z.ltb_lt; lia).
  cbn [resp_data hasMore resp_cursor]. unfold slice0. cbn [Z.leb Z.compare].
  replace (Z.to_nat (Z.of_nat (length items) + Z.neg p))
    with (length items - Z.to_nat (- Z.neg p))%nat by lia.
  split; [reflexivity|]. split; [reflexivity|].
  destruct (last (take _ items)) as [x|] eqn:E.
  - split; [discriminate|]. intros Hle.
    replace (length items - Z.to_nat (- Z.neg p))%nat with 0%nat in E by lia.
    discriminate.
  - split; [|reflexivity]. intros _.
    apply last_None in E. apply (f_equal length) in E. rewrite length_take in E.
    cbn in E. lia.
Qed.

End Page.

Lemma createPaginatedResponse_page_witness :
  resp_cursor
    (createPaginatedResponse
       (map (fun row => Steps.step_of row (JArr [], None)) (workflow_steps Steps.three_steps))
       (Some {| limit := Some 2; cursor := None; sortOrder := None |}) Steps.createdAt)
  = Some (encodeCursor {| lastId := "wrun_a"; lastTimestamp := 1200 |}).
Proof.
  destruct (createPaginatedResponse_page
              (map (fun row => Steps.step_of row (JArr [], None))
                 (workflow_steps Steps.three_steps))
              2 None None Steps.createdAt) as (_ & _ & _ & H).
  - reflexivity.
  - destruct (H eq_refl) as (x & Hx & _ & _ & Hcur).
    injection Hx as <-. exact (Hcur _ _ eq_refl).
Defined.

Lemma createPaginatedResponse_negative_limit_witness :
  hasMore
    (createPaginatedResponse
       (map (fun row => Steps.step_of row (JArr [], None)) (workflow_steps Steps.three_steps))
       (Some {| limit := Some (-1); cursor := None; sortOrder := None |}) Steps.createdAt)
  = true /\
  length
    (resp_data
       (createPaginatedResponse
          (map (fun row => Steps.step_of row (JArr [], None))
             (workflow_steps Steps.three_steps))
          (Some {| limit := Some (-1); cursor := None; sortOrder := None |}) Steps.createdAt))
  = 2%nat.
Proof.
  destruct (createPaginatedResponse_negative_limit
              (map (fun row => Steps.step_of row (JArr [], None))
                 (workflow_steps Steps.three_steps))
              (-1) None None Steps.createdAt) as (Hmore & Hdata & _).
  - reflexivity.
  - split; [exact Hmore|]. rewrite Hdata. reflexivity.
Defined.

End PaginationMore.

(** ** The run coordinator: persistence, metadata and status *)

Section CoordinatorMore.
Import Coordinator.

Lemma serializable_arrays ws : array_fields (serializable ws).
Proof.
  destruct ws as [r st [a|a] [c|c] [f|f] md]; repeat split; eexists; reflexivity.
Qed.

Lemma serializable_of_arrays ws : array_fields ws -> serializable ws = ws.
Proof.
  intros ((a & Ha) & (c & Hc) & (f & Hf)). destruct ws; cbn in *; subst. reflexivity.
Qed.

Lemma coherent_new origin : coherent (new_object (option_map serializable origin)).
Proof.
  split.
  - intros st. destruct origin as [ws|]; cbn; [|discriminate].
    intros [= <-]. apply serializable_arrays.
  - intros ws. cbn. discriminate.
Qed.

Lemma perform_coherent c o : coherent o -> coherent (snd (perform c o)).
Proof.
  intros H. destruct H as [Hst Hws].
  destruct o as [sto w]. cbn [storage workflowState] in *.
  destruct c as [rid|s|op|k v]; cbn [perform].
  - (* initialize *)
    unfold initialize. cbn [set_workflowState storage workflowState].
    destruct sto as [st|]; cbn.
    + split; cbn.
      * exact Hst.
      * intros ws [= <-]. pose proof (Hst st eq_refl) as Ha. split; [right; exact Ha|].
        rewrite serializable_of_arrays by exact Ha. reflexivity.
    + split; cbn.
      * intros st [= <-]. repeat split; eexists; reflexivity.
      * intros ws [= <-]. split; [|reflexivity]. left. repeat split; eexists; reflexivity.
  - (* updateWorkflowStatus *)
    unfold updateWorkflowStatus. cbn [workflowState].
    destruct w as [ws|]; cbn; [|split; [exact Hst | exact Hws]].
    destruct (Hws ws eq_refl) as [Hkind _]. split; cbn.
    + intros st [= <-]. apply serializable_arrays.
    + intros ws' [= <-]. split; [|reflexivity].
      destruct ws; exact Hkind.
  - (* step operations *)
    destruct w as [ws|]; [|destruct op; cbn; (split; [exact Hst | exact Hws])].
    destruct (Hws ws eq_refl) as [Hkind Hsto].
    destruct Hkind as [((a & Ha) & (cc & Hc) & (f & Hf)) | ((a & Ha) & (cc & Hc) & (f & Hf))];
      destruct ws as [r st a0 c0 f0 md]; cbn in Ha, Hc, Hf; subst.
    + destruct op; cbn; (split; cbn;
        [ intros st' [= <-]; repeat split; eexists; reflexivity
        | intros ws' [= <-]; split; [left; repeat split; eexists; reflexivity | reflexivity] ]).
    + destruct op; cbn; (split; [exact Hst | exact Hws]).
  - (* setMetadata *)
    unfold setMetadata. cbn [workflowState].
    destruct w as [ws|]; cbn; [|split; [exact Hst | exact Hws]].
    destruct (String.eqb k "__proto__"); cbn; [split; [exact Hst | exact Hws]|].
    destruct (Hws ws eq_refl) as [Hkind _]. split; cbn.
    + intros st [= <-]. apply serializable_arrays.
    + intros ws' [= <-]. split; [|reflexivity].
      destruct ws; exact Hkind.
Qed.

Lemma perform_all_coherent cs : forall o, coherent o -> coherent (perform_all cs o).
Proof.
  induction cs as [|c cs IH]; intros o H; [exact H|].
  cbn [perform_all]. apply IH, perform_coherent, H.
Qed.

(** X19.  Whatever calls a coordinator receives, in whatever order,
    and whether each returns or throws, the state it holds in memory is
    the state its storage holds (the sets written as arrays).  The
    coordinator starts on empty storage or on a state that persistState
    wrote. *)
Theorem memory_is_what_storage_holds origin cs :
  in_sync (perform_all cs (new_object (option_map serializable origin))).
Proof.
  pose proof (perform_all_coherent cs _ (coherent_new origin)) as [_ H].
  unfold in_sync. destruct (workflowState _) as [ws|]; [|exact I].
  apply (H ws eq_refl).
Qed.

Lemma Array_from_members c : same_members (Array_from c) c.
Proof.
  intros x. destruct c as [s|l]; cbn; [|reflexivity].
  apply elem_of_elements.
Qed.

(** X20.  A coordinator constructed over the storage another instance
    left, and initialised, holds the run identifier, the status, the
    metadata and the members of the three step collections the first
    one held.  initialize writes nothing then, and the run identifier it
    is given is ignored. *)
Theorem reload_keeps_the_state origin cs rid ws :
  let o := perform_all cs (new_object (option_map serializable origin)) in
  workflowState o = Some ws ->
  let o2 := snd (initialize rid (new_object (storage o))) in
  initialize rid (new_object (storage o)) = (Ok tt, o2) /\
  storage o2 = storage o /\
  exists ws2,
    workflowState o2 = Some ws2 /\
    runId ws2 = runId ws /\ status ws2 = status ws /\ metadata ws2 = metadata ws /\
    same_members (activeSteps ws2) (activeSteps ws) /\
    same_members (completedSteps ws2) (completedSteps ws) /\
    same_members (failedSteps ws2) (failedSteps ws).
Proof.
  intros o Hws.
  pose proof (perform_all_coherent cs _ (coherent_new origin)) as [_ H].
  fold o in H. destruct (H ws Hws) as [_ Hsto].
  intros o2. subst o2. rewrite Hsto. cbn.
  split; [reflexivity|]. split; [reflexivity|].
  eexists. split; [reflexivity|]. cbn.
  repeat split; try reflexivity; apply Array_from_members.
Qed.

Lemma reload_keeps_the_state_witness :
  exists ws2,
    workflowState
      (snd (initialize "other"
              (new_object
                 (storage (perform_all [Initialize "run"; Step (StartStep "s1");
                                        UpdateWorkflowStatus "running"]
                             (new_object (option_map serializable None))))))) = Some ws2 /\
    runId ws2 = "run"%string /\ status ws2 = "running"%string /\
    same_members (activeSteps ws2) (JSSet {["s1"%string]}).
Proof.
  destruct (reload_keeps_the_state None
              [Initialize "run"; Step (StartStep "s1"); UpdateWorkflowStatus "running"]
              "other"
              {| runId := "run"; status := "running";
                 activeSteps := JSSet ({["s1"%string]} ∪ ∅);
                 completedSteps := JSSet ∅; failedSteps := JSSet ∅; metadata := ∅ |}
              eq_refl)
    as (_ & _ & ws2 & Hws & Hr & Hs & _ & Ha & _).
  exists ws2. split; [exact Hws|]. split; [exact Hr|]. split; [exact Hs|].
  intros x. rewrite (Ha x). cbn. set_unfold. tauto.
Defined.

(** X18.  On an initialised coordinator setMetadata(key, value), for
    a key other than '__proto__', returns; getMetadata(key) then returns
    value, and every other key reads as it did before: undefined, in
    particular, for a key that was not set and is not a name that
    objects inherit.  The new state is in storage, and run identifier,
    status and step collections are untouched. *)
Theorem metadata_round_trip o ws key value :
  workflowState o = Some ws ->
  key <> "__proto__"%string ->
  exists o' ws',
    setMetadata key value o = (Ok tt, o') /\
    workflowState o' = Some ws' /\
    storage o' = Some (serializable ws') /\
    getMetadata key o' = (Ok (Some value), o') /\
    (forall k, k <> key -> fst (getMetadata k o') = fst (getMetadata k o)) /\
    (forall k, k <> key -> metadata ws !! k = None ->
       existsb (String.eqb k) inherited = false -> getMetadata k o' = (Ok None, o')) /\
    runId ws' = runId ws /\ status ws' = status ws /\
    activeSteps ws' = activeSteps ws /\ completedSteps ws' = completedSteps ws /\
    failedSteps ws' = failedSteps ws.
Proof.
  intros Hws Hkey. unfold setMetadata, getMetadata. rewrite Hws.
  destruct (String.eqb_spec key "__proto__") as [E|_]; [contradiction|].
  eexists _, _. split; [reflexivity|]. cbn -[existsb inherited].
  split; [reflexivity|]. split; [reflexivity|].
  split; [rewrite lookup_insert_eq; reflexivity|].
  split; [|split; [|repeat split]].
  - intros k Hk. rewrite lookup_insert_ne by congruence.
    destruct (metadata ws !! k); [reflexivity|].
    destruct (existsb (String.eqb k) inherited); reflexivity.
  - intros k Hk Hnone Hown. rewrite lookup_insert_ne by congruence.
    rewrite Hnone, Hown. reflexivity.
Qed.

Lemma metadata_round_trip_witness :
  exists o',
    setMetadata "attempts" (JNum 3) (snd (initialize "run" (new_object None))) = (Ok tt, o') /\
    getMetadata "attempts" o' = (Ok (Some (JNum 3)), o').
Proof.
  destruct (metadata_round_trip (snd (initialize "run" (new_object None)))
              {| runId := "run"; status := "pending";
                 activeSteps := JSSet ∅; completedSteps := JSSet ∅; failedSteps := JSSet ∅;
                 metadata := ∅ |}
              "attempts" (JNum 3) eq_refl)
    as (o' & ws' & Hset & _ & _ & Hget & _).
  - discriminate.
  - exists o'. split; [exact Hset | exact Hget].
Defined.

(** X21.  On an initialised coordinator updateWorkflowStatus accepts
    every string; afterwards canAcceptSteps is true exactly when the
    string is 'running' or 'pending'.  No step operation consults it:
    each returns or throws as it did before the status changed. *)
Theorem canAcceptSteps_follows_status o ws s :
  workflowState o = Some ws ->
  exists o',
    updateWorkflowStatus s o = (Ok tt, o') /\
    canAcceptSteps o' = (Ok (String.eqb s "running" || String.eqb s "pending"), o') /\
    forall op, fst (call op o') = fst (call op o).
Proof.
  intros Hws. unfold updateWorkflowStatus, canAcceptSteps. rewrite Hws.
  eexists. split; [reflexivity|]. cbn. split; [reflexivity|].
  intros op. destruct o as [sto w]. cbn in Hws. subst w.
  destruct ws as [r st [a|a] [c|c] [f|f] md]; destruct op; reflexivity.
Qed.

Lemma canAcceptSteps_follows_status_witness :
  exists o',
    updateWorkflowStatus "completed" (snd (initialize "run" (new_object None))) = (Ok tt, o') /\
    canAcceptSteps o' = (Ok false, o') /\
    fst (startStep "late" o') = Ok tt.
Proof.
  destruct (canAcceptSteps_follows_status (snd (initialize "run" (new_object None)))
              {| runId := "run"; status := "pending";
                 activeSteps := JSSet ∅; completedSteps := JSSet ∅; failedSteps := JSSet ∅;
                 metadata := ∅ |}
              "completed" eq_refl)
    as (o' & Hup & Hcan & Hops).
  exists o'. split; [exact Hup|]. split; [exact Hcan|].
  exact (Hops (StartStep "late")).
Defined.

End CoordinatorMore.

(** ** Ordering: strings and insertion sort *)

Section StringOrder.

Lemma ascii_compare_refl a : Ascii.compare a a = Eq.
Proof. unfold Ascii.compare. apply N.compare_refl. Qed.

Lemma string_compare_refl s : String.compare s s = Eq.
Proof. induction s as [|c s IH]; cbn; [reflexivity|]. rewrite ascii_compare_refl. exact IH. Qed.

Lemma ascii_compare_lt_trans a b c :
  Ascii.compare a b = Lt -> Ascii.compare b c = Lt -> Ascii.compare a c = Lt.
Proof. unfold Ascii.compare. rewrite !N.compare_lt_iff. lia. Qed.

Lemma string_compare_lt_trans s1 : forall s2 s3,
  String.compare s1 s2 = Lt -> String.compare s2 s3 = Lt -> String.compare s1 s3 = Lt.
Proof.
  induction s1 as [|c1 s1 IH]; intros [|c2 s2] [|c3 s3]; cbn; try congruence.
  destruct (Ascii.compare c1 c2) eqn:E12; try discriminate;
    destruct (Ascii.compare c2 c3) eqn:E23; try discriminate; intros H1 H2.
  - apply Ascii.compare_eq_iff in E12, E23. subst. rewrite ascii_compare_refl. eauto.
  - apply Ascii.compare_eq_iff in E12. subst. rewrite E23. reflexivity.
  - apply Ascii.compare_eq_iff in E23. subst. rewrite E12. reflexivity.
  - rewrite (ascii_compare_lt_trans _ _ _ E12 E23). reflexivity.
Qed.

Lemma ltb_trans a b c : String.ltb a b = true -> String.ltb b c = true -> String.ltb a c = true.
Proof.
  unfold String.ltb. destruct (String.compare a b) eqn:E1; try discriminate.
  destruct (String.compare b c) eqn:E2; try discriminate.
  rewrite (string_compare_lt_trans _ _ _ E1 E2). reflexivity.
Qed.

Lemma leb_ltb a b : String.leb a b = String.ltb a b || String.eqb a b.
Proof.
  unfold String.leb, String.ltb. destruct (String.compare a b) eqn:E.
  - apply String.compare_eq_iff in E. subst. rewrite String.eqb_refl. reflexivity.
  - reflexivity.
  - cbn. destruct (String.eqb_spec a b) as [->|]; [|reflexivity].
    rewrite string_compare_refl in E. discriminate.
Qed.

Lemma ltb_total a b : a <> b -> String.ltb a b = true \/ String.ltb b a = true.
Proof.
  intros Hne. unfold String.ltb. rewrite (String.compare_antisym b a).
  destruct (String.compare a b) eqn:E; cbn; auto.
  apply String.compare_eq_iff in E. contradiction.
Qed.

End StringOrder.


Section Sorting.
Context {A : Type} (before : A -> A -> bool).
Hypothesis before_total : forall x y, before x y = false -> before y x = true.
Hypothesis before_trans : forall x y z, before x y = true -> before y z = true -> before x z = true.

Lemma insert_by_perm x l : insert_by before x l ≡ₚ x :: l.
Proof.
  induction l as [|y l IH]; cbn; [reflexivity|].
  destruct (before x y); [reflexivity|].
  rewrite IH. apply Permutation_swap.
Qed.

Lemma order_by_perm l : order_by before l ≡ₚ l.
Proof.
  induction l as [|x l IH]; cbn; [reflexivity|].
  rewrite insert_by_perm. rewrite IH. reflexivity.
Qed.

Lemma forallb_perm (p : A -> bool) l l' : l ≡ₚ l' -> forallb p l = forallb p l'.
Proof.
  induction 1; cbn; try congruence.
  - rewrite !andb_assoc, (andb_comm (p y)). reflexivity.
Qed.

Lemma insert_by_ordered x l : ordered before l = true -> ordered before (insert_by before x l) = true.
Proof.
  induction l as [|y l IH]; cbn; [reflexivity|].
  intros H. apply andb_prop in H as [Hy Hl].
  destruct (before x y) eqn:E; cbn.
  - rewrite E, Hy, Hl. cbn. rewrite andb_true_r.
    apply forallb_forall. intros z Hz.
    rewrite forallb_forall in Hy. eauto.
  - rewrite (forallb_perm _ _ _ (insert_by_perm x l)). cbn.
    rewrite (before_total _ _ E), Hy, (IH Hl). reflexivity.
Qed.

Lemma order_by_ordered l : ordered before (order_by before l) = true.
Proof.
  induction l as [|x l IH]; cbn; [reflexivity|].
  apply insert_by_ordered, IH.
Qed.

End Sorting.

Section RunOrder.
Import RunRow R2 Pagination Runs.

Lemma row_before_spec order a b :
  row_before order a b = true <->
  match order with
  | asc => created_at a < created_at b \/
           (created_at a = created_at b /\ (String.ltb (run_id a) (run_id b) = true \/ run_id a = run_id b))
  | desc => created_at b < created_at a \/
            (created_at a = created_at b /\ (String.ltb (run_id b) (run_id a) = true \/ run_id b = run_id a))
  end.
Proof.
  unfold row_before. destruct order;
    rewrite orb_true_iff, andb_true_iff, Z.ltb_lt, Z.eqb_eq, leb_ltb, orb_true_iff, String.eqb_eq;
    reflexivity.
Qed.

Lemma row_before_total order a b : row_before order a b = false -> row_before order b a = true.
Proof.
  intros H. apply row_before_spec.
  assert (Hn : ~ row_before order a b = true) by (rewrite H; discriminate).
  rewrite row_before_spec in Hn.
  destruct (String.eqb_spec (run_id a) (run_id b)) as [E|E].
  - destruct order; rewrite E in *;
      destruct (Z.lt_trichotomy (created_at a) (created_at b)) as [Hlt|[Heq|Hgt]];
      try (left; lia); exfalso; apply Hn;
      (left; lia) || (right; split; [lia | right; reflexivity]).
  - destruct order;
      destruct (Z.lt_trichotomy (created_at a) (created_at b)) as [Hlt|[Heq|Hgt]];
      try (left; lia); try (exfalso; apply Hn; left; lia);
      (right; split; [lia|]; left;
       destruct (ltb_total _ _ E) as [Hab|Hba]; [|exact Hba || (exfalso; apply Hn; right; split; [lia | left; exact Hba])];
       (exact Hab || (exfalso; apply Hn; right; split; [lia | left; exact Hab]))).
Qed.

Lemma row_before_trans order a b c :
  row_before order a b = true -> row_before order b c = true -> row_before order a c = true.
Proof.
  rewrite !row_before_spec. destruct order.
  - intros [H1|[H1 H1']] [H2|[H2 H2']]; try (left; lia). right. split; [lia|].
    destruct H1' as [H1'|H1'], H2' as [H2'|H2'].
    + left. eapply ltb_trans; eassumption.
    + left. rewrite <- H2'. exact H1'.
    + left. rewrite H1'. exact H2'.
    + right. congruence.
  - intros [H1|[H1 H1']] [H2|[H2 H2']]; try (left; lia). right. split; [lia|].
    destruct H1' as [H1'|H1'], H2' as [H2'|H2'].
    + left. eapply ltb_trans; eassumption.
    + left. rewrite H2'. exact H1'.
    + left. rewrite <- H1'. exact H2'.
    + right. congruence.
Qed.

End RunOrder.

(** ** The runs of a list of rows *)

Section RunsOfRows.
Import RunRow R2 Pagination Runs.

Lemma mapM_rowToRun_Forall2 rows resolve env runs :
  fst (mapM_env (fun row => rowToRun row resolve) rows env) = Ok runs <->
  Forall2 (fun row run =>
             exists p, resolved row resolve (WORKFLOW_STORAGE env) = Ok p /\ run = run_of row p)
    rows runs.
Proof.
  revert runs. induction rows as [|row rows IH]; intros runs.
  - cbn. split.
    + intros [= <-]. constructor.
    + intros H. inversion H. reflexivity.
  - cbn [mapM_env]. unfold bind at 1. rewrite rowToRun_resolved.
    destruct (resolved row resolve (WORKFLOW_STORAGE env)) as [p|e] eqn:Er.
    + unfold bind, ret.
      destruct (mapM_env _ rows env) as [[rest|e] env'] eqn:E; cbn [fst] in IH |- *.
      * split.
        -- intros [= <-]. constructor; [exists p; split; [exact Er | reflexivity] | apply IH; reflexivity].
        -- intros H. inversion H as [|? ? ? ? (q & Hq & ->) Hrest]; subst.
           rewrite Er in Hq. injection Hq as <-. apply IH in Hrest. injection Hrest as <-.
           reflexivity.
      * split; [discriminate|].
        intros H. inversion H as [|? ? ? ? _ Hrest]; subst. apply IH in Hrest. discriminate.
    + split; [discriminate|].
      intros H. inversion H as [|? ? ? ? (q & Hq & _) _]; subst. rewrite Er in Hq. discriminate.
Qed.

End RunsOfRows.

(** ** The run repository: errors, frame and round trips *)

Section RunMore.
Import RunRow R2 Pagination Runs.
Variable threshold : Z.

Lemma get_env id resolve env : snd (get id resolve env) = env.
Proof.
  rewrite get_resolved. reflexivity.
Qed.

(** What an update does once [get] has returned the current run: it
    may write the output, then runs one UPDATE whose SET list leaves the
    key columns alone. *)
Lemma update_shape now id data env current :
  get id None env = (Ok current, env) ->
  exists clauses env1,
    update threshold now id data env =
      bind (update_run id clauses) (fun _ => get id None) env1 /\
    workflow_runs env1 = workflow_runs env /\
    workflow_steps env1 = workflow_steps env /\
    queue_messages env1 = queue_messages env /\
    QUEUE env1 = QUEUE env /\
    (forall k, k <> generateR2Key "outputs" id "output" ->
       WORKFLOW_STORAGE env1 !! k = WORKFLOW_STORAGE env !! k) /\
    (upd_output data = None -> env1 = env) /\
    (forall out, upd_output data = Some out ->
       exists ref,
         storeData out "outputs" id "output" threshold (WORKFLOW_STORAGE env)
         = (Ok ref, WORKFLOW_STORAGE env1) /\
         forall r, output_type (all_clauses clauses r) = Some (type ref) /\
                   output_data (all_clauses clauses r) = Some (R2.data ref)) /\
    forall r,
      let r' := all_clauses clauses r in
      run_id r' = run_id r /\ deployment_id r' = deployment_id r /\
      workflow_name r' = workflow_name r /\
      input_type r' = input_type r /\ input_data r' = input_data r /\
      created_at r' = created_at r /\ updated_at r' = now /\
      status r' = default (status r) (upd_status data) /\
      (upd_output data = None ->
         output_type r' = output_type r /\ output_data r' = output_data r) /\
      execution_context r' =
        match upd_executionContext data with
        | Some v => Some (JSON.stringify v)
        | None => execution_context r
        end /\
      error r' = match upd_error data with Some e => Some e | None => error r end /\
      error_code r' = match upd_errorCode data with Some e => Some e | None => error_code r end /\
      started_at r' =
        match upd_status data with
        | Some st => if String.eqb st "running" && unset (startedAt current)
                     then Some now else started_at r
        | None => started_at r
        end /\
      completed_at r' =
        match upd_status data with
        | Some st => if is_terminal st && unset (completedAt current)
                     then Some now else completed_at r
        | None => completed_at r
        end.
Proof.
  intros Hget. unfold update. unfold bind at 1. rewrite Hget.
  destruct data as [ost oout octx oerr ocode].
  cbn [upd_status upd_output upd_executionContext upd_error upd_errorCode].
  destruct oout as [out|].
  - unfold bind at 1. unfold on_bucket, storeData.
    destruct (Z.of_nat (String.length (JSON.stringify out)) <=? threshold) eqn:Elen;
      unfold ret;
      (eexists _, _; split; [reflexivity|];
       split; [reflexivity|]; split; [reflexivity|]; split; [reflexivity|];
       split; [reflexivity|];
       split; [intros k Hk; cbn; try reflexivity; apply lookup_insert_ne; congruence|];
       split; [discriminate|];
       split;
       [ intros o [= <-]; eexists; split; [rewrite Elen; reflexivity|];
         intros r;
         destruct ost as [st|];
         [destruct (String.eqb st "running" && unset (startedAt current));
          destruct (is_terminal st && unset (completedAt current))|];
         destruct octx, oerr, ocode; cbn; split; reflexivity
       | intros r;
         destruct ost as [st|];
         [destruct (String.eqb st "running" && unset (startedAt current));
          destruct (is_terminal st && unset (completedAt current))|];
         destruct octx, oerr, ocode; destruct r; cbn;
         repeat split; discriminate ]).
  - unfold bind at 1, ret.
    eexists _, _. split; [reflexivity|].
    split; [reflexivity|]. split; [reflexivity|]. split; [reflexivity|].
    split; [reflexivity|]. split; [reflexivity|]. split; [reflexivity|].
    split; [discriminate|].
    intros r;
      destruct ost as [st|];
      [destruct (String.eqb st "running" && unset (startedAt current));
       destruct (is_terminal st && unset (completedAt current))|];
      destruct octx, oerr, ocode; destruct r; cbn; repeat split.
Qed.


Lemma get_ok id resolve env r : fst (get id resolve env) = Ok r -> get id resolve env = (Ok r, env).
Proof.
  intros H. rewrite (surjective_pairing (get id resolve env)), H, get_env. reflexivity.
Qed.

Lemma get_missing id resolve env :
  find (fun r => String.eqb (run_id r) id) (workflow_runs env) = None ->
  get id resolve env = (Throw (RunNotFound id), env).
Proof. intros H. rewrite get_resolved, H. reflexivity. Qed.

(** X8.  A run identifier that is not in the table: get, update,
    cancel, pause and resume each throw 'Workflow run not found' and
    leave the tables, the bucket and the queue as they were; update
    writes no output before it looks the run up. *)
Theorem missing_run_is_reported env id now resolve data :
  find (fun r => String.eqb (run_id r) id) (workflow_runs env) = None ->
  get id resolve env = (Throw (RunNotFound id), env) /\
  update threshold now id data env = (Throw (RunNotFound id), env) /\
  cancel threshold now id resolve env = (Throw (RunNotFound id), env) /\
  pause threshold now id resolve env = (Throw (RunNotFound id), env) /\
  resume threshold now id resolve env = (Throw (RunNotFound id), env).
Proof.
  intros H.
  assert (Hup : forall d, update threshold now id d env = (Throw (RunNotFound id), env)).
  { intros d. unfold update. unfold bind at 1. rewrite (get_missing id None env H). reflexivity. }
  split; [apply get_missing, H|]. split; [apply Hup|].
  unfold cancel, pause, resume, bind. rewrite !Hup. repeat split.
Qed.

Lemma forallb_updated_false id (f : WorkflowRunRow -> WorkflowRunRow) rows row :
  find (fun r => String.eqb (run_id r) id) rows = Some row ->
  status_allowed (status (f row)) = false ->
  forallb (fun r => status_allowed (status r))
    (map (fun r => if String.eqb (run_id r) id then f r else r) rows) = false.
Proof.
  induction rows as [|r rows IH]; [discriminate|].
  cbn [find map forallb]. destruct (String.eqb (run_id r) id) eqn:E.
  - intros [= ->] ->. reflexivity.
  - intros H1 H2. rewrite (IH H1 H2). apply andb_false_r.
Qed.

(** X9.  An update of an existing run to a status outside the six
    that the CHECK constraint of workflow_runs lists is refused by the
    database: the call throws and no row has changed.  When the update
    carries no output nothing at all has changed; an output has been
    stored before the statement ran. *)
Theorem update_rejects_unknown_status env id current now st data :
  fst (get id None env) = Ok current ->
  upd_status data = Some st ->
  status_allowed st = false ->
  exists env',
    update threshold now id data env = (Throw D1Error, env') /\
    workflow_runs env' = workflow_runs env /\
    (upd_output data = None -> env' = env).
Proof.
  intros Hget Hst Hbad.
  destruct (get_inv _ _ _ _ Hget) as (row & p & Hfind & _ & _).
  destruct (update_shape now id data env current (get_ok _ _ _ _ Hget))
    as (clauses & env1 & Hup & Hrows & _ & _ & _ & _ & Hsame & _ & Hcl).
  exists env1. split; [|split; [exact Hrows | exact Hsame]].
  rewrite Hup. unfold bind, update_run. rewrite Hrows.
  rewrite (forallb_updated_false id (all_clauses clauses) _ row Hfind); [reflexivity|].
  destruct (Hcl row) as (_ & _ & _ & _ & _ & _ & _ & -> & _).
  rewrite Hst. exact Hbad.
Qed.

(** X10.  Whatever the request and whether it returns or throws, an
    update of the run id leaves every row of another run where and as
    it was, adds and removes no row, leaves the step table, the message
    table and the queue alone, and changes the bucket at most under the
    key outputs/id/output. *)
Theorem update_touches_one_run now id data env :
  let env' := snd (update threshold now id data env) in
  map run_id (workflow_runs env') = map run_id (workflow_runs env) /\
  (forall i r, workflow_runs env !! i = Some r -> run_id r <> id ->
     workflow_runs env' !! i = Some r) /\
  workflow_steps env' = workflow_steps env /\
  queue_messages env' = queue_messages env /\
  QUEUE env' = QUEUE env /\
  forall k, k <> generateR2Key "outputs" id "output" ->
    WORKFLOW_STORAGE env' !! k = WORKFLOW_STORAGE env !! k.
Proof.
  intros env'. subst env'.
  destruct (get id None env) as [[current|e] env0] eqn:Hget.
  - pose proof (get_env id None env) as He. rewrite Hget in He. cbn in He. subst env0.
    destruct (update_shape now id data env current Hget)
      as (clauses & env1 & Hup & Hrows & Hsteps & Hmsgs & Hq & Hb & _ & _ & Hcl).
    rewrite Hup. unfold bind, update_run.
    destruct (forallb _ _).
    + rewrite (surjective_pairing (get id None _)), get_env.
      cbn [snd workflow_runs workflow_steps queue_messages QUEUE WORKFLOW_STORAGE set_workflow_runs].
      rewrite Hrows. repeat split; try assumption.
      * rewrite map_map. apply map_ext. intros r.
        destruct (String.eqb (run_id r) id); [apply (Hcl r) | reflexivity].
      * intros i r Hi Hne. rewrite list_lookup_fmap, Hi. cbn.
        destruct (String.eqb_spec (run_id r) id); [contradiction | reflexivity].
    + cbn [snd]. rewrite Hrows. repeat split; try assumption; try reflexivity.
      intros; assumption.
  - pose proof (get_env id None env) as He. rewrite Hget in He. cbn in He. subst env0.
    assert (Hup : update threshold now id data env = (Throw e, env))
      by (unfold update; unfold bind at 1; rewrite Hget; reflexivity).
    rewrite Hup. cbn [snd]. repeat split; try reflexivity; intros; assumption.
Qed.


Lemma stringify_nonempty v : exists c r, JSON.stringify v = String c r.
Proof.
  pose proof (value_head_stringify v EmptyString) as H. rewrite append_nil_r in H.
  destruct (JSON.stringify v) as [|c r]; [discriminate | eauto].
Qed.

Lemma retrieve_after_store v prefix id field bucket ref bucket' :
  storeData v prefix id field threshold bucket = (Ok ref, bucket') ->
  fst (retrieveData (createDataReference (Some (type ref)) (Some (R2.data ref))) bucket') = Ok v.
Proof.
  unfold storeData.
  destruct (Z.of_nat (String.length (JSON.stringify v)) <=? threshold); intros [= <- <-];
    cbn [type R2.data].
  - destruct (stringify_nonempty v) as (c & r & E). rewrite E.
    cbn [createDataReference retrieveData type R2.data]. unfold JSON_parse.
    rewrite <- E, parse_stringify. reflexivity.
  - destruct (generateR2Key_nonempty prefix id field) as (c & r & ->).
    cbn [createDataReference retrieveData type R2.data].
    rewrite lookup_insert_eq. unfold JSON_parse. rewrite parse_stringify. reflexivity.
Qed.

Lemma create_row rid t0 req env :
  find (fun r => String.eqb (run_id r) rid) (workflow_runs env) = None ->
  exists ref b',
    storeData (new_input req) "inputs" rid "input" threshold (WORKFLOW_STORAGE env)
    = (Ok ref, b') /\
    let contextJson :=
      match new_executionContext req with
      | Some v => if truthy v then Some (JSON.stringify v) else None
      | None => None
      end in
    let row :=
      {| run_id := rid; deployment_id := new_deploymentId req;
         workflow_name := new_workflowName req; status := "pending";
         input_type := type ref; input_data := Some (R2.data ref);
         output_type := None; output_data := None;
         execution_context := contextJson; error := None; error_code := None;
         created_at := t0; updated_at := t0; started_at := None; completed_at := None |} in
    let p :=
      (if truthy (new_input req) then new_input req else JArr [], Some JNull,
       match new_executionContext req with
       | Some v => if truthy v then Some v else None
       | None => None
       end) in
    let env1 := set_workflow_runs (workflow_runs env ++ [row]) (set_WORKFLOW_STORAGE b' env) in
    create threshold rid t0 req env = (Ok (run_of row p), env1) /\
    find (fun r => String.eqb (run_id r) rid) (workflow_runs env1) = Some row /\
    resolved row None (WORKFLOW_STORAGE env1) = Ok p.
Proof.
  intros Hfresh.
  destruct (storeData (new_input req) "inputs" rid "input" threshold (WORKFLOW_STORAGE env))
    as [res b'] eqn:Hstore.
  assert (exists ref, res = Ok ref) as [ref ->].
  { unfold storeData in Hstore. destruct (_ <=? _); injection Hstore as <- _; eauto. }
  exists ref, b'. split; [reflexivity|]. intros contextJson row p env1.
  assert (Hfind : find (fun r => String.eqb (run_id r) rid) (workflow_runs env1) = Some row).
  { unfold env1. rewrite runs_of_set_runs. apply find_app_new; [exact Hfresh | reflexivity]. }
  assert (Hres : resolved row None (WORKFLOW_STORAGE env1) = Ok p).
  { unfold resolved. cbn [default].
    change (WORKFLOW_STORAGE env1) with b'.
    change (input_type row) with (type ref). change (input_data row) with (Some (R2.data ref)).
    rewrite (retrieve_after_store _ _ _ _ _ _ _ Hstore).
    change (output_type row) with (@None RefType).
    change (output_data row) with (@None string). cbn [createDataReference retrieveData fst].
    change (execution_context row) with contextJson. subst contextJson p.
    destruct (new_executionContext req) as [c|]; [|reflexivity].
    destruct (truthy c); [|reflexivity].
    destruct (stringify_nonempty c) as (ch & text & E). rewrite E. cbn [truthy_string].
    rewrite <- E, parse_stringify. reflexivity. }
  split; [|split; [exact Hfind | exact Hres]].
  unfold create, bind, on_bucket. rewrite Hstore.
  fold contextJson. fold row.
  unfold insert_run.
  change (workflow_runs (set_WORKFLOW_STORAGE b' env)) with (workflow_runs env).
  change (run_id row) with rid.
  rewrite (find_none_existsb _ _ Hfresh).
  change (status_allowed (status row)) with true. cbn [orb negb].
  fold env1. rewrite get_resolved, Hfind, Hres. reflexivity.
Qed.

(** X11.  create with an identifier that is not in the table returns
    the run get then returns: the request's deployment and workflow
    names, status pending, both timestamps the time of the call, no
    start or completion time, no error, output null; the input as given
    when it is truthy and the empty array when it is not (null, false,
    0, the empty string); the execution context as given when truthy
    and undefined otherwise.  The table has one row more. *)
Theorem create_returns_the_request rid t0 req env :
  find (fun r => String.eqb (run_id r) rid) (workflow_runs env) = None ->
  exists r env1,
    create threshold rid t0 req env = (Ok r, env1) /\
    get rid None env1 = (Ok r, env1) /\
    runId r = rid /\ deploymentId r = new_deploymentId req /\
    workflowName r = new_workflowName req /\ run_status r = "pending"%string /\
    input r = (if truthy (new_input req) then new_input req else JArr []) /\
    output r = Some JNull /\
    executionContext r =
      match new_executionContext req with
      | Some v => if truthy v then Some v else None
      | None => None
      end /\
    run_error r = None /\ errorCode r = None /\
    createdAt r = t0 /\ updatedAt r = t0 /\ startedAt r = None /\ completedAt r = None /\
    length (workflow_runs env1) = S (length (workflow_runs env)).
Proof.
  intros Hfresh.
  destruct (create_row rid t0 req env Hfresh) as (ref & b' & _ & Hcreate & Hfind & Hres).
  cbv zeta in Hcreate, Hfind, Hres.
  eexists _, _. split; [exact Hcreate|].
  split; [rewrite get_resolved, Hfind, Hres; reflexivity|].
  cbn [run_of runId deploymentId workflowName run_status input output executionContext
       run_error errorCode createdAt updatedAt startedAt completedAt fst snd
       run_id deployment_id workflow_name status error error_code created_at updated_at
       started_at completed_at truthy_string truthy_number].
  repeat split.
  rewrite runs_of_set_runs, length_app. cbn. lia.
Qed.


Lemma forallb_updated_same id (f : WorkflowRunRow -> WorkflowRunRow) rows :
  (forall r, status (f r) = status r) ->
  forallb (fun r => status_allowed (status r))
    (map (fun r => if String.eqb (run_id r) id then f r else r) rows) =
  forallb (fun r => status_allowed (status r)) rows.
Proof.
  intros Hf. induction rows as [|r rows IH]; [reflexivity|].
  cbn [map forallb]. rewrite IH.
  destruct (String.eqb (run_id r) id); [rewrite Hf|]; reflexivity.
Qed.

Lemma resolved_parts row b i o c :
  fst (retrieveData (createDataReference (Some (input_type row)) (input_data row)) b) = Ok i ->
  fst (retrieveData (createDataReference (output_type row) (output_data row)) b) = Ok o ->
  match truthy_string (execution_context row) with
  | Some text => exists v, JSON.parse text = Some v /\ c = Some v
  | None => c = None
  end ->
  resolved row None b = Ok (if truthy i then i else JArr [], Some o, c).
Proof.
  intros Hi Ho Hc. unfold resolved. cbn [default]. rewrite Hi, Ho.
  destruct (truthy_string (execution_context row)) as [text|].
  - destruct Hc as (v & -> & ->). reflexivity.
  - subst c. reflexivity.
Qed.

Lemma retrieveData_other_bucket ref (b b' : gmap string string) :
  (forall r, ref = Some r -> type r = r2 -> b' !! R2.data r = b !! R2.data r) ->
  fst (retrieveData ref b') = fst (retrieveData ref b).
Proof.
  intros H. destruct ref as [r|]; [|reflexivity].
  unfold retrieveData, JSON_parse. destruct (type r) eqn:E.
  - destruct (JSON.parse (R2.data r)); reflexivity.
  - rewrite (H r eq_refl E).
    destruct (b !! R2.data r) as [text|]; [destruct (JSON.parse text)|]; reflexivity.
Qed.

(** X12.  The output of a run round-trips.  After create, an update
    that carries an output and no status returns the run with that
    output, whether it was kept inline or sent to the bucket, and with
    the input and the other fields of the created run; the execution
    context is the one the update carries, if it carries one. *)
Theorem output_round_trip rid t0 req env now data out :
  runs_checked env ->
  find (fun r => String.eqb (run_id r) rid) (workflow_runs env) = None ->
  upd_status data = None ->
  upd_output data = Some out ->
  exists r0 env1 r env2,
    create threshold rid t0 req env = (Ok r0, env1) /\
    update threshold now rid data env1 = (Ok r, env2) /\
    get rid None env2 = (Ok r, env2) /\
    output r = Some out /\
    input r = input r0 /\
    executionContext r =
      match upd_executionContext data with
      | Some v => Some v
      | None => executionContext r0
      end /\
    runId r = rid /\ run_status r = "pending"%string /\
    createdAt r = t0 /\ updatedAt r = now /\
    startedAt r = None /\ completedAt r = None.
Proof.
  intros Hck Hfresh Hst Hout.
  destruct (create_row rid t0 req env Hfresh) as (ref & b' & Hstore & Hcreate & Hfind & Hres).
  cbv zeta in Hcreate, Hfind, Hres.
  set (row := {| run_id := rid; deployment_id := new_deploymentId req;
                 workflow_name := new_workflowName req; status := "pending";
                 input_type := type ref; input_data := Some (R2.data ref);
                 output_type := None; output_data := None;
                 execution_context := _; error := None; error_code := None;
                 created_at := t0; updated_at := t0;
                 started_at := None; completed_at := None |}) in *.
  set (p := (_, Some JNull, _)) in *.
  set (env1 := set_workflow_runs (workflow_runs env ++ [row]) (set_WORKFLOW_STORAGE b' env)) in *.
  assert (Hget1 : get rid None env1 = (Ok (run_of row p), env1))
    by (rewrite get_resolved, Hfind, Hres; reflexivity).
  destruct (update_shape now rid data env1 (run_of row p) Hget1)
    as (clauses & env2 & Hup & Hrows & _ & _ & _ & Hb & _ & Hstored & Hcl).
  destruct (Hstored out Hout) as (ref2 & Hstore2 & Hcols).
  set (row' := all_clauses clauses row).
  destruct (Hcl row) as (Hid & Hdep & Hname & Hity & Hida & Hcre & Hupd & Hstat & _
                         & Hctx & Herr & Hcode & Hsta & Hcom).
  fold row' in Hid, Hdep, Hname, Hity, Hida, Hcre, Hupd, Hstat, Hctx, Herr, Hcode, Hsta, Hcom.
  rewrite Hst in Hstat, Hsta, Hcom. cbn [default] in Hstat.
  destruct (Hcols row) as [Hoty Hoda]. fold row' in Hoty, Hoda.
  set (env3 := set_workflow_runs
                 (map (fun r => if String.eqb (run_id r) rid then all_clauses clauses r else r)
                    (workflow_runs env2)) env2).
  assert (Hck1 : forallb (fun r => status_allowed (status r)) (workflow_runs env1) = true).
  { unfold env1. rewrite runs_of_set_runs. apply forallb_app_new; [exact Hck | reflexivity]. }
  assert (Hfind3 : find (fun r => String.eqb (run_id r) rid) (workflow_runs env3) = Some row').
  { unfold env3. rewrite runs_of_set_runs, Hrows, find_updated, Hfind; [reflexivity|].
    intros r. apply (Hcl r). }
  assert (Hin : fst (retrieveData
                       (createDataReference (Some (input_type row')) (input_data row'))
                       (WORKFLOW_STORAGE env2)) = Ok (new_input req)).
  { rewrite Hity, Hida. change (input_type row) with (type ref).
    change (input_data row) with (Some (R2.data ref)).
    rewrite <- (retrieve_after_store _ _ _ _ _ _ _ Hstore).
    apply retrieveData_other_bucket. intros r Hr Hty.
    change b' with (WORKFLOW_STORAGE env1). apply Hb.
    unfold storeData in Hstore.
    destruct (_ <=? _); injection Hstore as <- _; cbn [type R2.data] in Hr.
    - destruct (JSON.stringify (new_input req)); cbn in Hr; [discriminate|].
      injection Hr as <-. discriminate Hty.
    - injection Hr as <-. cbn [R2.data]. discriminate. }
  assert (Hres3 : exists c,
            resolved row' None (WORKFLOW_STORAGE env3) =
              Ok (if truthy (new_input req) then new_input req else JArr [], Some out, c) /\
            c = match upd_executionContext data with
                | Some v => Some v
                | None => snd p
                end).
  { exists (match upd_executionContext data with Some v => Some v | None => snd p end).
    split.
    - apply resolved_parts.
      + exact Hin.
      + rewrite Hoty, Hoda. exact (retrieve_after_store _ _ _ _ _ _ _ Hstore2).
      + rewrite Hctx. destruct (upd_executionContext data) as [v|].
        * destruct (stringify_nonempty v) as (ch & text & E). rewrite E. cbn [truthy_string].
          exists v. split; [rewrite <- E; apply parse_stringify | reflexivity].
        * subst p. cbn [snd execution_context row].
          destruct (new_executionContext req) as [c|]; [|reflexivity].
          destruct (truthy c); [|reflexivity].
          destruct (stringify_nonempty c) as (ch & text & E). rewrite E. cbn [truthy_string].
          exists c. split; [rewrite <- E; apply parse_stringify | reflexivity].
    - reflexivity. }
  destruct Hres3 as (c & Hres3 & Hc).
  assert (Hget3 : get rid None env3 = (Ok (run_of row' (_, Some out, c)), env3))
    by (rewrite get_resolved, Hfind3, Hres3; reflexivity).
  eexists _, env1, _, env3. split; [exact Hcreate|]. split; [|split; [exact Hget3|]].
  - rewrite Hup. unfold bind, update_run. fold env3.
    rewrite forallb_updated_same, Hrows, Hck1; [exact Hget3|].
    intros r. destruct (Hcl r) as (_ & _ & _ & _ & _ & _ & _ & -> & _). rewrite Hst. reflexivity.
  - cbn [run_of runId run_status input output executionContext createdAt updatedAt
         startedAt completedAt fst snd].
    rewrite Hid, Hstat, Hcre, Hupd, Hsta, Hcom, Hc. repeat split.
Qed.


Lemma resolved_any row resolve b p :
  resolved row None b = Ok p -> exists q, resolved row resolve b = Ok q.
Proof.
  destruct resolve as [[]|]; [|eauto ..].
  unfold resolved. cbn [default].
  destruct (fst (retrieveData _ b)) as [i|e]; [|discriminate].
  destruct (fst (retrieveData _ b)) as [o|e]; [|discriminate].
  destruct (truthy_string (execution_context row)) as [text|]; [|eauto].
  destruct (JSON.parse text); [eauto | discriminate].
Qed.

Lemma get_with_resolve id resolve env r :
  fst (get id None env) = Ok r ->
  exists r',
    get id resolve env = (Ok r', env) /\
    runId r' = runId r /\ run_status r' = run_status r /\
    startedAt r' = startedAt r /\ completedAt r' = completedAt r /\
    createdAt r' = createdAt r /\ updatedAt r' = updatedAt r.
Proof.
  intros H. destruct (get_inv _ _ _ _ H) as (row & p & Hfind & Hres & ->).
  destruct (resolved_any row resolve _ _ Hres) as (q & Hq).
  exists (run_of row q). rewrite get_resolved, Hfind, Hq. repeat split.
Qed.

Lemma status_call now id st resolve env current :
  runs_checked env ->
  fst (get id None env) = Ok current ->
  status_allowed st = true ->
  now <> 0 ->
  exists r env',
    bind (update threshold now id (status_only st)) (fun _ => get id resolve) env
    = (Ok r, env') /\
    run_status r = st /\
    startedAt r =
      (if String.eqb st "running" && unset (startedAt current) then Some now
       else startedAt current) /\
    completedAt r =
      (if is_terminal st && unset (completedAt current) then Some now
       else completedAt current).
Proof.
  intros Hck Hget Hst Hnow.
  destruct (update_stamps threshold now id st env current Hck Hget Hst Hnow)
    as (r & env' & Hup & Hs & Hsta & Hcom & _ & Hget').
  destruct (get_with_resolve id resolve env' r Hget') as (r' & Hr' & _ & Hs' & Hsta' & Hcom' & _).
  exists r', env'. unfold bind. rewrite Hup. split; [exact Hr'|].
  rewrite Hs', Hsta', Hcom'. repeat split; assumption.
Qed.

(** X13.  cancel, pause and resume on a run that get returns, whatever
    its status (no transition is refused): cancel returns it cancelled,
    with completedAt stamped if it was unset; pause returns it paused
    with both stamps as they were; resume returns it running, with
    startedAt stamped if it was unset and completedAt as it was, also
    for a run that had completed.  The clock is past the epoch. *)
Theorem cancel_pause_resume env id current now resolve :
  runs_checked env ->
  fst (get id None env) = Ok current ->
  now <> 0 ->
  (exists r env',
     cancel threshold now id resolve env = (Ok r, env') /\
     run_status r = "cancelled"%string /\
     startedAt r = startedAt current /\
     completedAt r = match completedAt current with Some t => Some t | None => Some now end) /\
  (exists r env',
     pause threshold now id resolve env = (Ok r, env') /\
     run_status r = "paused"%string /\
     startedAt r = startedAt current /\ completedAt r = completedAt current) /\
  (exists r env',
     resume threshold now id resolve env = (Ok r, env') /\
     run_status r = "running"%string /\
     startedAt r = match startedAt current with Some t => Some t | None => Some now end /\
     completedAt r = completedAt current).
Proof.
  intros Hck Hget Hnow. split; [|split].
  - destruct (status_call now id "cancelled" resolve env current Hck Hget eq_refl Hnow)
      as (r & env' & Hcall & Hs & Hsta & Hcom).
    exists r, env'. split; [exact Hcall|]. split; [exact Hs|]. split; [exact Hsta|].
    rewrite Hcom. cbn. destruct (completedAt current); reflexivity.
  - destruct (status_call now id "paused" resolve env current Hck Hget eq_refl Hnow)
      as (r & env' & Hcall & Hs & Hsta & Hcom).
    exists r, env'. split; [exact Hcall|]. split; [exact Hs|]. split; [exact Hsta | exact Hcom].
  - destruct (status_call now id "running" resolve env current Hck Hget eq_refl Hnow)
      as (r & env' & Hcall & Hs & Hsta & Hcom).
    exists r, env'. split; [exact Hcall|]. split; [exact Hs|]. split; [|exact Hcom].
    rewrite Hsta. cbn. destruct (startedAt current); reflexivity.
Qed.

End RunMore.

(** ** The stamps of a run *)

Section RunStamps.
Import RunRow R2 Pagination Runs.
Variable threshold : Z.





End RunStamps.

Section RunStampsWitness.
Import RunRow R2 Pagination Runs.


End RunStampsWitness.

Section ListMore.
Import RunRow R2 Pagination Runs.

(** X6.  A listing without limit and cursor that returns, returns
    without cursor and with hasMore false the runs of exactly the rows
    that match the workflow-name and status filters, each once, ordered
    by creation time and then identifier, newest first unless
    ascending order is asked for. *)
Theorem list_is_sorted_and_complete env name st order resolve resp env' :
  list (with_limit None None order name st resolve) env = (Ok resp, env') ->
  env' = env /\ hasMore resp = false /\ resp_cursor resp = None /\
  exists rows,
    Forall2 (fun row run =>
               runId run = run_id row /\ createdAt run = created_at row /\
               workflowName run = workflow_name row /\ run_status run = status row)
      rows (resp_data resp) /\
    rows ≡ₚ List.filter (matches name st) (workflow_runs env) /\
    ordered (row_before (default desc order)) rows = true.
Proof.
  rewrite (list_unfold (with_limit None None order name st resolve) env eq_refl).
  cbn [with_limit by_workflowName by_status pagination resolveData sortOrder].
  change (fetchLimit (Some {| limit := None; cursor := None; sortOrder := order |}))
    with (@None Z).
  cbn [truthy_number sql_limit].
  destruct (fst (mapM_env _ _ env)) as [runs|e] eqn:Hruns; [|discriminate].
  rewrite createPaginatedResponse_no_limit by reflexivity.
  intros [= <- <-]. cbn [hasMore resp_cursor resp_data].
  split; [reflexivity|]. split; [reflexivity|]. split; [reflexivity|].
  exists (selected name st (default desc order) (workflow_runs env)).
  split; [|split].
  - apply mapM_rowToRun_Forall2 in Hruns.
    eapply Forall2_impl; [exact Hruns|].
    intros row run (p & _ & ->). repeat split.
  - unfold selected. apply order_by_perm.
  - apply order_by_ordered; [apply row_before_total | apply row_before_trans].
Qed.

End ListMore.

Section RunMoreWitnesses.
Import RunRow R2 Pagination Runs.

Lemma missing_run_is_reported_witness :
  get "wrun_zz" None one_run = (Throw (RunNotFound "wrun_zz"), one_run) /\
  cancel 10240 2000 "wrun_zz" None one_run = (Throw (RunNotFound "wrun_zz"), one_run).
Proof.
  destruct (missing_run_is_reported 10240 one_run "wrun_zz" 2000 None (status_only "running")
              eq_refl) as (Hget & _ & Hcancel & _).
  split; [exact Hget | exact Hcancel].
Defined.

Lemma update_rejects_unknown_status_witness :
  update 10240 2000 "wrun_a" (status_only "done") one_run = (Throw D1Error, one_run).
Proof.
  destruct (update_rejects_unknown_status 10240 one_run "wrun_a"
              (run_of (RunRow.mkRow "wrun_a" "dpl_1" "checkout" "pending" R2.inline
                         (Some "[1]"%string) None None None None None 1000 1000 None None)
                 (JArr [JNum 1], Some JNull, None))
              2000 "done" (status_only "done") eq_refl eq_refl eq_refl)
    as (env' & Hup & _ & Hsame).
  rewrite (Hsame eq_refl) in Hup. exact Hup.
Defined.

Lemma create_returns_the_request_witness :
  exists r env1,
    create 10240 "wrun_b" 1500 a_request one_run = (Ok r, env1) /\
    input r = JArr [JNum 2] /\ run_status r = "pending"%string /\ createdAt r = 1500.
Proof.
  destruct (create_returns_the_request 10240 "wrun_b" 1500 a_request one_run eq_refl)
    as (r & env1 & Hc & _ & _ & _ & _ & Hs & Hi & _ & _ & _ & _ & Hcr & _).
  exists r, env1. split; [exact Hc|]. split; [exact Hi|]. split; [exact Hs | exact Hcr].
Defined.

Lemma output_round_trip_witness :
  exists r0 env1 r env2,
    create 4 "wrun_b" 1500 a_request one_run = (Ok r0, env1) /\
    update 4 2000 "wrun_b"
      {| upd_status := None; upd_output := Some (JStr "a long output");
         upd_executionContext := None; upd_error := None; upd_errorCode := None |} env1
    = (Ok r, env2) /\
    output r = Some (JStr "a long output") /\ input r = input r0.
Proof.
  destruct (output_round_trip 4 "wrun_b" 1500 a_request one_run 2000
              {| upd_status := None; upd_output := Some (JStr "a long output");
                 upd_executionContext := None; upd_error := None; upd_errorCode := None |}
              (JStr "a long output") eq_refl eq_refl eq_refl eq_refl)
    as (r0 & env1 & r & env2 & Hc & Hu & _ & Ho & Hi & _).
  exists r0, env1, r, env2. repeat split; assumption.
Defined.

Lemma cancel_pause_resume_witness :
  exists r env',
    resume 10240 5000 "wrun_a" None three_runs = (Ok r, env') /\
    run_status r = "running"%string /\ completedAt r = Some 1900.
Proof.
  destruct (cancel_pause_resume 10240 three_runs "wrun_a"
              (run_of (RunRow.mkRow "wrun_a" "dpl_1" "checkout" "completed" R2.inline
                         (Some "[1]"%string) None None None None None 1000 1900
                         (Some 1100) (Some 1900))
                 (JArr [JNum 1], Some JNull, None))
              5000 None eq_refl eq_refl)
    as (_ & _ & (r & env' & Hr & Hs & _ & Hc)).
  - discriminate.
  - exists r, env'. split; [exact Hr|]. split; [exact Hs | exact Hc].
Defined.

Lemma list_is_sorted_and_complete_witness :
  exists resp,
    list (with_limit None None None (Some "checkout"%string) None (Some resolve_none)) three_runs
    = (Ok resp, three_runs) /\
    map runId (resp_data resp) = ["wrun_c"; "wrun_b"; "wrun_a"]%string /\
    hasMore resp = false.
Proof.
  assert (H : exists resp,
             list (with_limit None None None (Some "checkout"%string) None (Some resolve_none))
               three_runs = (Ok resp, three_runs) /\
             map runId (resp_data resp) = ["wrun_c"; "wrun_b"; "wrun_a"]%string).
  { eexists. split; [vm_compute; reflexivity | reflexivity]. }
  destruct H as (resp & Hlist & Hids). exists resp.
  split; [exact Hlist|]. split; [exact Hids|].
  exact (proj1 (proj2 (list_is_sorted_and_complete three_runs (Some "checkout"%string) None None
                         (Some resolve_none) resp three_runs Hlist))).
Defined.

End RunMoreWitnesses.

(** ** The step repository: create, get and list *)

Section StepMore.
Import StepRow R2 Steps.
Variable threshold : Z.

Lemma rowToStep_resolved row resolve env :
  rowToStep row resolve env =
  (match resolved row resolve (WORKFLOW_STORAGE env) with
   | Ok p => Ok (step_of row p)
   | Throw e => Throw e
   end, env).
Proof.
  unfold rowToStep, resolved, bind, ret.
  destruct (default resolve_all resolve); [reflexivity|].
  rewrite on_bucket_retrieveData.
  destruct (fst (retrieveData _ (WORKFLOW_STORAGE env))) as [i|e]; [|reflexivity].
  rewrite on_bucket_retrieveData.
  destruct (fst (retrieveData _ (WORKFLOW_STORAGE env))) as [o|e]; reflexivity.
Qed.

Lemma step_get_resolved runId stepId resolve env :
  get runId stepId resolve env =
  (match find (fun r => String.eqb (step_id r) stepId) (workflow_steps env) with
   | None => Throw (StepNotFound stepId)
   | Some row =>
       match truthy_string runId with
       | Some rid =>
           if String.eqb (run_id row) rid then
             match resolved row resolve (WORKFLOW_STORAGE env) with
             | Ok p => Ok (step_of row p)
             | Throw e => Throw e
             end
           else Throw (StepNotOwned stepId rid)
       | None =>
           match resolved row resolve (WORKFLOW_STORAGE env) with
           | Ok p => Ok (step_of row p)
           | Throw e => Throw e
           end
       end
   end, env).
Proof.
  unfold get, bind, gets, throw.
  destruct (find _ (workflow_steps env)) as [row|]; [|reflexivity].
  destruct (truthy_string runId) as [rid|]; [|apply rowToStep_resolved].
  destruct (String.eqb (run_id row) rid); [apply rowToStep_resolved | reflexivity].
Qed.


Lemma step_find_none_existsb id rows :
  find (fun r => String.eqb (step_id r) id) rows = None ->
  existsb (fun r => String.eqb (step_id r) id) rows = false.
Proof.
  induction rows as [|r rows IH]; [reflexivity|]. cbn.
  destruct (String.eqb (step_id r) id); [discriminate | exact IH].
Qed.


Lemma step_find_app_new id rows (row : WorkflowStepRow) :
  find (fun r => String.eqb (step_id r) id) rows = None ->
  step_id row = id ->
  find (fun r => String.eqb (step_id r) id) (rows ++ [row]) = Some row.
Proof.
  intros H <-. induction rows as [|r rows IH]; cbn in *.
  - rewrite String.eqb_refl. reflexivity.
  - destruct (String.eqb (step_id r) (step_id row)); [discriminate | exact (IH H)].
Qed.

Lemma storeData_ok v prefix id field (b : gmap string string) :
  exists ref b', storeData v prefix id field threshold b = (Ok ref, b').
Proof. unfold storeData. destruct (_ <=? _); eauto. Qed.

Lemma step_create_row now rid data env :
  find (fun r => String.eqb (step_id r) (new_stepId data)) (workflow_steps env) = None ->
  existsb (fun r => String.eqb (RunRow.run_id r) rid) (workflow_runs env) = true ->
  exists ref b',
    storeData (new_input data) "step-inputs" (new_stepId data) "input" threshold
      (WORKFLOW_STORAGE env) = (Ok ref, b') /\
    let row :=
      {| step_id := new_stepId data; run_id := rid; step_name := new_stepName data;
         status := "pending"; input_type := type ref; input_data := Some (R2.data ref);
         output_type := None; output_data := None; attempt := 1;
         error := None; error_code := None;
         created_at := now; updated_at := now; started_at := None; completed_at := None |} in
    let p := (if truthy (new_input data) then new_input data else JArr [], Some JNull) in
    let env1 := set_workflow_steps (workflow_steps env ++ [row]) (set_WORKFLOW_STORAGE b' env) in
    create threshold now rid data env = (Ok (step_of row p), env1) /\
    find (fun r => String.eqb (step_id r) (new_stepId data)) (workflow_steps env1) = Some row /\
    resolved row None (WORKFLOW_STORAGE env1) = Ok p.
Proof.
  intros Hfresh Hrun.
  destruct (storeData_ok (new_input data) "step-inputs" (new_stepId data) "input"
              (WORKFLOW_STORAGE env)) as (ref & b' & Hstore).
  exists ref, b'. split; [exact Hstore|]. intros row p env1.
  assert (Hfind : find (fun r => String.eqb (step_id r) (new_stepId data)) (workflow_steps env1)
                  = Some row)
    by (apply step_find_app_new; [exact Hfresh | reflexivity]).
  assert (Hres : resolved row None (WORKFLOW_STORAGE env1) = Ok p).
  { unfold resolved. cbn [default].
    change (WORKFLOW_STORAGE env1) with b'.
    change (input_type row) with (type ref). change (input_data row) with (Some (R2.data ref)).
    rewrite (retrieve_after_store threshold _ _ _ _ _ _ _ Hstore). reflexivity. }
  split; [|split; [exact Hfind | exact Hres]].
  unfold create, bind, on_bucket. rewrite Hstore. fold row.
  unfold insert_step.
  change (workflow_steps (set_WORKFLOW_STORAGE b' env)) with (workflow_steps env).
  change (workflow_runs (set_WORKFLOW_STORAGE b' env)) with (workflow_runs env).
  change (step_id row) with (new_stepId data). change (run_id row) with rid.
  rewrite (step_find_none_existsb _ _ Hfresh), Hrun.
  change (status_allowed (status row)) with true. cbn [orb negb].
  fold env1. rewrite step_get_resolved, Hfind, Hres.
  change (run_id row) with rid.
  destruct rid as [|c r]; cbn [truthy_string]; [reflexivity|].
  rewrite String.eqb_refl. reflexivity.
Qed.

(** X14.  steps.create for a step identifier that is not in the table
    and a run that is: it returns the step that get then returns, with
    the request's identifier and name, the run it was created for,
    status pending, attempt 1, both timestamps the time of the call, no
    start or completion time, no error, output null, and the input as
    given when it is truthy, the empty array when it is not.  The table
    has one row more. *)
Theorem step_create_returns_the_request now rid data env :
  find (fun r => String.eqb (step_id r) (new_stepId data)) (workflow_steps env) = None ->
  existsb (fun r => String.eqb (RunRow.run_id r) rid) (workflow_runs env) = true ->
  exists s env1,
    create threshold now rid data env = (Ok s, env1) /\
    get (Some rid) (new_stepId data) None env1 = (Ok s, env1) /\
    stepId s = new_stepId data /\ runId s = rid /\ stepName s = new_stepName data /\
    step_status s = "pending"%string /\ step_attempt s = 1 /\
    input s = (if truthy (new_input data) then new_input data else JArr []) /\
    output s = Some JNull /\
    step_error s = None /\ errorCode s = None /\
    createdAt s = now /\ updatedAt s = now /\ startedAt s = None /\ completedAt s = None /\
    length (workflow_steps env1) = S (length (workflow_steps env)).
Proof.
  intros Hfresh Hrun.
  destruct (step_create_row now rid data env Hfresh Hrun)
    as (ref & b' & _ & Hcreate & Hfind & Hres).
  cbv zeta in Hcreate, Hfind, Hres.
  eexists _, _. split; [exact Hcreate|]. split.
  - rewrite step_get_resolved, Hfind, Hres. cbn [run_id].
    destruct rid as [|c r]; cbn [truthy_string]; [reflexivity|].
    rewrite String.eqb_refl. reflexivity.
  - cbn. repeat split. rewrite length_app. cbn. lia.
Qed.



Lemma mapM_rowToStep rows resolve env :
  snd (mapM_env (fun row => rowToStep row resolve) rows env) = env.
Proof.
  induction rows as [|row rows IH]; [reflexivity|].
  cbn [mapM_env]. unfold bind at 1. rewrite rowToStep_resolved.
  destruct (resolved row resolve (WORKFLOW_STORAGE env)); [|reflexivity].
  unfold bind. destruct (mapM_env _ rows env) as [[steps|e] env'] eqn:E; cbn in IH |- *; exact IH.
Qed.

Lemma mapM_rowToStep_rows rows resolve env steps :
  fst (mapM_env (fun row => rowToStep row resolve) rows env) = Ok steps ->
  Forall2 (fun row s => runId s = run_id row /\ stepId s = step_id row /\
                        createdAt s = created_at row) rows steps.
Proof.
  revert steps. induction rows as [|row rows IH]; intros steps.
  - intros [= <-]. constructor.
  - cbn [mapM_env]. unfold bind at 1. rewrite rowToStep_resolved.
    destruct (resolved row resolve (WORKFLOW_STORAGE env)) as [p|e]; [|discriminate].
    unfold bind, ret.
    destruct (mapM_env _ rows env) as [[rest|e] env'] eqn:E; [|discriminate].
    intros [= <-]. constructor; [repeat split | apply IH; reflexivity].
Qed.

Lemma selected_run runId order rows r :
  In r (selected runId order rows) -> run_id r = runId.
Proof.
  unfold selected. intros H.
  apply (Permutation_in _ (order_by_perm _ _)) in H.
  apply filter_In in H as [_ H]. apply String.eqb_eq, H.
Qed.

(** X17.  The cursor of a page of steps carries the run, not the
    step.  When a listing of the steps of a run with a non-empty
    identifier and a limit above 0 returns with hasMore true, the cursor
    encodes the creation time of the last step of the page and the
    identifier of the run, which every step of the page shares. *)
Theorem step_cursor_is_the_run_id env rid n cur order resolve resp env' :
  rid <> EmptyString ->
  0 < n ->
  list {| of_runId := rid;
          pagination := Some {| Pagination.limit := Some n; Pagination.cursor := cur;
                                Pagination.sortOrder := order |};
          resolveData := resolve |} env = (Ok resp, env') ->
  Pagination.hasMore resp = true ->
  exists x,
    last (Pagination.resp_data resp) = Some x /\
    runId x = rid /\
    Pagination.resp_cursor resp =
      Some (Pagination.encodeCursor
              {| Pagination.lastId := rid; Pagination.lastTimestamp := createdAt x |}).
Proof.
  intros Hrid Hn. unfold list.
  cbn [pagination Pagination.sortOrder Pagination.cursor of_runId resolveData].
  destruct (Pagination.buildCursorWhereClause cur "created_at" "step_id"
              (default Pagination.desc order)) as [clause|e]; [|discriminate].
  destruct (Pagination.where_parses _); [|discriminate].
  unfold bind, gets, ret.
  set (rows := sql_limit _ _).
  pose proof (mapM_rowToStep rows resolve env) as Henv.
  destruct (mapM_env _ rows env) as [[steps|e] env0] eqn:Hsteps; [|discriminate].
  cbn [snd] in Henv. subst env0.
  intros [= <- <-] Hmore.
  pose proof (mapM_rowToStep_rows rows resolve env steps) as Hrows.
  rewrite Hsteps in Hrows. specialize (Hrows eq_refl).
  destruct (page_with_limit steps n cur order createdAt Hn) as (Hdata & _ & _ & Hpage).
  destruct (Hpage Hmore) as (x & Hx & Hlast & _ & Hcur).
  exists x. split; [exact Hlast|].
  assert (Hrun : runId x = rid).
  { destruct (Forall2_lookup_r _ _ _ _ _ Hrows Hx) as (row & Hrow & -> & _).
    apply (selected_run rid (default Pagination.desc order) (workflow_steps env)).
    apply list_elem_of_lookup_2 in Hrow. apply list_elem_of_In in Hrow.
    unfold rows, sql_limit in Hrow.
    destruct (truthy_number _) as [k|]; [|exact Hrow].
    destruct (0 <=? k); [|exact Hrow].
    apply list_elem_of_In in Hrow. apply elem_of_take in Hrow as (j & Hj & _).
    apply list_elem_of_In. eapply list_elem_of_lookup_2. exact Hj. }
  split; [exact Hrun|].
  destruct rid as [|c r]; [contradiction|].
  rewrite (Hcur c r); [reflexivity|]. cbn. rewrite Hrun. reflexivity.
Qed.

End StepMore.

Section StepMoreWitnesses.
Import StepRow R2 Steps.

Lemma step_create_returns_the_request_witness :
  exists s env1,
    create 10240 2000 "wrun_a"
      {| new_stepId := "step_2"; new_stepName := "ship"; new_input := JArr [JNum 7] |} one_step
    = (Ok s, env1) /\
    step_status s = "pending"%string /\ step_attempt s = 1 /\ input s = JArr [JNum 7].
Proof.
  destruct (step_create_returns_the_request 10240 2000 "wrun_a"
              {| new_stepId := "step_2"; new_stepName := "ship"; new_input := JArr [JNum 7] |}
              one_step eq_refl eq_refl)
    as (s & env1 & Hc & _ & _ & _ & _ & Hs & Ha & Hi & _).
  exists s, env1. split; [exact Hc|]. split; [exact Hs|]. split; [exact Ha | exact Hi].
Defined.


Lemma step_cursor_is_the_run_id_witness :
  exists resp,
    list (page_request "wrun_a" 1 None) three_steps = (Ok resp, three_steps) /\
    map stepId (Pagination.resp_data resp) = ["step_3"%string] /\
    Pagination.resp_cursor resp =
      Some (Pagination.encodeCursor
              {| Pagination.lastId := "wrun_a"; Pagination.lastTimestamp := 1200 |}).
Proof.
  eexists. split; [vm_compute; reflexivity|]. split; [reflexivity|].
  edestruct (step_cursor_is_the_run_id three_steps "wrun_a" 1 None None (Some resolve_none))
    as (x & Hlast & _ & Hcur).
  - discriminate.
  - reflexivity.
  - vm_compute. reflexivity.
  - reflexivity.
  - injection Hlast as <-. exact Hcur.
Defined.

End StepMoreWitnesses.

(** ** Listing with a cursor *)

Section CursorCalls.
Import Pagination.

Lemma decodeCursor_throws s e : decodeCursor s = Throw e -> e = InvalidCursor.
Proof.
  unfold decodeCursor. destruct (Base64.atob s) as [text|]; [|intros [= <-]; reflexivity].
  destruct (JSON.read text); [discriminate | intros [= <-]; reflexivity].
Qed.

Lemma buildCursorWhereClause_truthy ch r t i order :
  let error :=
    match decodeCursor (String ch r) with
    | Throw _ => InvalidCursor
    | Ok (JSON.Known JNull) => TypeError
    | Ok _ => D1Error
    end in
  match buildCursorWhereClause (Some (String ch r)) t i order with
  | Throw e => e = error /\ e <> D1Error
  | Ok cl =>
      error = D1Error /\
      clause cl =
        match order with
        | desc => "AND (" +:+ t +:+ " < ? OR (" +:+ t +:+ " = ? AND " +:+ i +:+ " < ?))"
        | asc => "AND (" +:+ t +:+ " > ? OR (" +:+ t +:+ " = ? AND " +:+ i +:+ " > ?))"
        end
  end.
Proof.
  unfold buildCursorWhereClause.
  destruct (decodeCursor (String ch r)) as [decoded|e] eqn:Hd; cbv zeta.
  - destruct decoded as [v|].
    + destruct v; cbn [param property];
        try (destruct order; split; reflexivity);
        try (split; [reflexivity | discriminate]).
      destruct (member "lastTimestamp" m), (member "lastId" m); destruct order; split; reflexivity.
    + cbn [param]. destruct order; split; reflexivity.
  - rewrite (decodeCursor_throws _ _ Hd). split; [reflexivity | discriminate].
Qed.

(** X7.  No listing returns a page for a cursor.  With a non-empty
    cursor, runs.list and steps.list throw, whatever the limit, the
    order and the filters, and whatever the tables hold: 'Invalid
    pagination cursor' when decodeCursor rejects the string, a
    TypeError when it decodes to null, and for every other string the
    error of D1, which is given a WHERE clause in which the fragment of
    the cursor, AND (...), follows the AND that joins the conditions.
    That is the case of every cursor that a page hands out. *)
Theorem list_with_cursor_throws env c :
  c <> EmptyString ->
  let error :=
    match decodeCursor c with
    | Throw _ => InvalidCursor
    | Ok (JSON.Known JNull) => TypeError
    | Ok _ => D1Error
    end in
  (forall lim order name st resolve,
     Runs.list (Runs.with_limit lim (Some c) order name st resolve) env
     = (Throw error, env)) /\
  (forall rid lim order resolve,
     Steps.list
       {| Steps.of_runId := rid;
          Steps.pagination := Some {| limit := lim; cursor := Some c; sortOrder := order |};
          Steps.resolveData := resolve |} env
     = (Throw error, env)) /\
  (forall cc, JSON.safe_integer (lastTimestamp cc) = true -> c = encodeCursor cc ->
     error = D1Error).
Proof.
  intros Hc error. subst error. destruct c as [|ch r]; [contradiction|]. split; [|split].
  - intros lim order name st resolve. unfold Runs.list.
    cbn [Runs.with_limit Runs.by_workflowName Runs.by_status Runs.pagination Runs.resolveData
         cursor sortOrder].
    pose proof (buildCursorWhereClause_truthy ch r "created_at" "run_id" (default desc order))
      as H. cbv zeta in H.
    destruct (buildCursorWhereClause _ _ _ _) as [cl|e].
    + destruct H as [-> ->].
      destruct (default desc order), (truthy_string name), (truthy_string st); reflexivity.
    + destruct H as [-> _]. reflexivity.
  - intros rid lim order resolve. unfold Steps.list.
    cbn [Steps.pagination Steps.of_runId Steps.resolveData cursor sortOrder].
    pose proof (buildCursorWhereClause_truthy ch r "created_at" "step_id" (default desc order))
      as H. cbv zeta in H.
    destruct (buildCursorWhereClause _ _ _ _) as [cl|e].
    + destruct H as [-> ->]. destruct (default desc order); reflexivity.
    + destruct H as [-> _]. reflexivity.
  - intros cc Hs E. rewrite E, (decodeCursor_encodeCursor cc Hs). reflexivity.
Qed.

Lemma list_with_cursor_throws_witness :
  exists resp c,
    Runs.list (Runs.with_limit (Some 2) None None None None (Some resolve_none))
      Runs.three_runs = (Ok resp, Runs.three_runs) /\
    hasMore resp = true /\ resp_cursor resp = Some c /\
    Runs.list (Runs.with_limit (Some 2) (Some c) None None None (Some resolve_none))
      Runs.three_runs = (Throw D1Error, Runs.three_runs).
Proof.
  eexists _, _. split; [vm_compute; reflexivity|]. split; [reflexivity|].
  split; [reflexivity|].
  refine (proj1 (list_with_cursor_throws Runs.three_runs _ _)
            (Some 2) None None None (Some resolve_none)).
  discriminate.
Defined.

End CursorCalls.

(** ** The queue: handling messages *)

Section QueueMore.
Import MessageRow Queue.

Lemma consume_settled handler i msg now c :
  exists s, settled (consume handler i msg now c) = settled c ++ [(i, s)].
Proof.
  unfold consume. destruct (handler _ _ _) as [[[t|]|e] env']; eexists; reflexivity.
Qed.

Lemma consume_from_settled handler clock batch : forall i c,
  map fst (settled (consume_from handler clock i batch c)) =
  map fst (settled c) ++ seq i (length batch).
Proof.
  induction batch as [|msg rest IH]; intros i c; cbn [consume_from length seq].
  - rewrite app_nil_r. reflexivity.
  - rewrite IH. destruct (consume_settled handler i msg (clock i) c) as [s ->].
    rewrite map_app, <- app_assoc. reflexivity.
Qed.

(** A turn that retries leaves the set of acknowledged messages as it
    was. *)
Lemma acked_retry whole c i env' id :
  acked (settle i Retry env' c) whole id <-> acked c whole id.
Proof.
  unfold acked. cbn [settled settle]. split.
  - intros (j & m & Hin & Hm & Hid). exists j, m.
    apply in_app_or in Hin as [Hin | [[=] | []]]. repeat split; assumption.
  - intros (j & m & Hin & Hm & Hid). exists j, m.
    split; [apply in_or_app; left; exact Hin | split; assumption].
Qed.

Lemma acked_ack whole c i env' msg id :
  whole !! i = Some msg ->
  acked (settle i Ack env' c) whole id <-> acked c whole id \/ msg_messageId msg = id.
Proof.
  intros Hmsg. unfold acked. cbn [settled settle]. split.
  - intros (j & m & Hin & Hm & Hid).
    apply in_app_or in Hin as [Hin | [[= <-] | []]].
    + left. exists j, m. repeat split; assumption.
    + right. rewrite Hmsg in Hm. injection Hm as <-. exact Hid.
  - intros [(j & m & Hin & Hm & Hid) | Hid].
    + exists j, m. split; [apply in_or_app; left; exact Hin | split; assumption].
    + exists i, msg. split; [apply in_or_app; right; left; reflexivity | split; assumption].
Qed.

(** How the table stands to the table the batch started on. *)
Lemma consume_from_rows handler clock (whole : list BatchMessage) rows0 :
  keeps_messages handler ->
  forall batch i c,
    drop i whole = batch ->
    Forall2 (fun r r' =>
               same_message r r' /\
               (acked c whole (message_id r) ->
                exists k, (k < length whole)%nat /\ processed_at r' = Some (clock k)) /\
               (~ acked c whole (message_id r) -> processed_at r' = processed_at r))
      rows0 (queue_messages (bindings c)) ->
    let c' := consume_from handler clock i batch c in
    Forall2 (fun r r' =>
               same_message r r' /\
               (acked c' whole (message_id r) ->
                exists k, (k < length whole)%nat /\ processed_at r' = Some (clock k)) /\
               (~ acked c' whole (message_id r) -> processed_at r' = processed_at r))
      rows0 (queue_messages (bindings c')).
Proof.
  intros Hkeep batch. induction batch as [|msg rest IH]; intros i c Hdrop Hrows; [exact Hrows|].
  assert (Hmsg : whole !! i = Some msg).
  { rewrite <- (Nat.add_0_r i), <- lookup_drop, Hdrop. reflexivity. }
  cbn [consume_from]. apply IH.
  - rewrite (drop_S _ _ _ Hmsg) in Hdrop. injection Hdrop as <-. reflexivity.
  - unfold consume.
    pose proof (Hkeep (msg_message msg)
                  {| attempt := msg_attempts msg; meta_queueName := msg_queueName msg;
                     meta_messageId := msg_messageId msg |} (bindings c)) as Hk.
    destruct (handler _ _ (bindings c)) as [[[t|]|e] env'] eqn:Eh; cbn [snd] in Hk.
    + change (bindings (settle i Retry env' c)) with env'. rewrite Hk.
      eapply Forall2_impl; [exact Hrows|]. intros r r' (Hsame & Ha & Hn).
      cbv beta. split; [exact Hsame|]. rewrite acked_retry. split; assumption.
    + set (env'' := snd (mark_processed (clock i) (msg_messageId msg) env')).
      change (bindings (settle i Ack env'' c)) with env''.
      unfold env'', mark_processed, modify. cbn [snd queue_messages set_queue_messages].
      rewrite Hk. apply Forall2_fmap_r.
      eapply Forall2_impl; [exact Hrows|]. intros r r' (Hsame & Ha & Hn).
      assert (Hid : message_id r' = message_id r) by apply Hsame.
      unfold compose. cbv beta. rewrite (acked_ack whole c i _ msg (message_id r) Hmsg). rewrite Hid.
      destruct (String.eqb_spec (message_id r) (msg_messageId msg)) as [E|E].
      * split; [destruct r'; exact Hsame|]. split.
        -- intros _. exists i. split; [|reflexivity].
           apply lookup_lt_Some in Hmsg. exact Hmsg.
        -- intros Hna. exfalso. apply Hna. right. symmetry. exact E.
      * split; [exact Hsame|]. split.
        -- intros [Hacked | Heq]; [exact (Ha Hacked) | congruence].
        -- intros Hna. apply Hn. intros Hacked. apply Hna. left. exact Hacked.
    + change (bindings (settle i Retry env' c)) with env'. rewrite Hk.
      eapply Forall2_impl; [exact Hrows|]. intros r r' (Hsame & Ha & Hn).
      cbv beta. split; [exact Hsame|]. rewrite acked_retry. split; assumption.
Qed.

(** X23.  The batch consumer settles every message once.  Whatever
    the handler does, the consumer returns, and the calls made on the
    messages are one per message, in the order of the batch.  When the
    handler leaves the message table alone, every row is afterwards the
    row it was but for processed_at: the rows of a message that was
    acknowledged carry the time of a turn of the batch, and every other
    row, also of a message that was retried, carries what it carried
    before. *)
Theorem consumer_settles_every_message_once handler clock batch env :
  exists c,
    createQueueConsumer handler clock batch {| bindings := env; settled := [] |} = (Ok tt, c) /\
    map fst (settled c) = seq 0 (length batch) /\
    (keeps_messages handler ->
     Forall2 (fun r r' =>
                same_message r r' /\
                (acked c batch (message_id r) ->
                 exists k, (k < length batch)%nat /\ processed_at r' = Some (clock k)) /\
                (~ acked c batch (message_id r) -> processed_at r' = processed_at r))
       (queue_messages env) (queue_messages (bindings c))).
Proof.
  eexists. split; [reflexivity|]. split.
  - rewrite consume_from_settled. reflexivity.
  - intros Hkeep.
    apply (consume_from_rows handler clock batch (queue_messages env) Hkeep batch 0%nat
             {| bindings := env; settled := [] |}); [reflexivity|].
    apply Forall2_same_length_lookup. split; [reflexivity|].
    intros j r r' Hr Hr'. cbn in Hr'. rewrite Hr in Hr'. injection Hr' as <-.
    split; [repeat split|]. split; [|reflexivity].
    intros (k & m & [] & _).
Qed.

(** X22.  The HTTP queue handler answers every request whose handler
    ends, with 200, 400, 500 or 503.  A queue name that does not start
    with the prefix is answered 400 and the handler is not run: nothing
    changes.  A body that cannot be read is answered 500, nothing
    changed.  Otherwise the handler is run, with attempt 1 when the
    body carries none or 0: when it asks for a delay the answer is 503
    with that delay in Retry-After, when it throws the answer is 500
    with the error's text, and when it returns nothing the answer is
    200.  When the handler leaves the message table alone, the table is
    marked (processed_at of the rows of the message set to the time of
    the call) exactly when the answer is 200, and unchanged otherwise. *)
Theorem queue_handler_answers prefix handler now body env :
  exists resp env',
    createQueueHandler prefix handler now body env = (Ok resp, env') /\
    In (http_status resp) [200; 400; 500; 503] /\
    (forall b, body = Some b -> String.prefix prefix (body_queueName b) = false ->
       http_status resp = 400 /\ env' = env) /\
    (body = None -> http_status resp = 500 /\ env' = env) /\
    (forall b, body = Some b -> String.prefix prefix (body_queueName b) = true ->
       match fst (handler (body_message b)
                    {| attempt := default 1 (truthy_number (body_attempt b));
                       meta_queueName := body_queueName b;
                       meta_messageId := body_messageId b |} env) with
       | Ok (Some timeoutSeconds) =>
           http_status resp = 503 /\ retry_after resp = Some timeoutSeconds
       | Ok None => http_status resp = 200 /\ retry_after resp = None
       | Throw e => http_status resp = 500 /\ http_text resp = MessageOf e
       end) /\
    (keeps_messages handler ->
     (http_status resp <> 200 -> queue_messages env' = queue_messages env) /\
     (http_status resp = 200 ->
      exists b, body = Some b /\
        queue_messages env' =
          map (fun r => if String.eqb (message_id r) (body_messageId b)
                        then set_processed_at now r else r) (queue_messages env))).
Proof.
  unfold createQueueHandler. destruct body as [b|].
  - destruct (String.prefix prefix (body_queueName b)) eqn:Ep; cbn [negb].
    + pose proof (fun H : keeps_messages handler =>
                    H (body_message b)
                      {| attempt := default 1 (truthy_number (body_attempt b));
                         meta_queueName := body_queueName b;
                         meta_messageId := body_messageId b |} env) as Hk.
      destruct (handler _ _ env) as [[[t|]|e] env1] eqn:Hh; cbn [snd] in Hk;
        eexists _, _; (split; [reflexivity|]); cbn [http_status retry_after http_text].
      * split; [cbn; tauto|]. split; [intros b' [= <-]; congruence|].
        split; [discriminate|].
        split; [intros b' [= <-] _; rewrite Hh; split; reflexivity|].
        intros H. split; [intros _; apply Hk, H | discriminate].
      * split; [cbn; tauto|]. split; [intros b' [= <-]; congruence|].
        split; [discriminate|].
        split; [intros b' [= <-] _; rewrite Hh; split; reflexivity|].
        intros H. split; [congruence|]. intros _. exists b. split; [reflexivity|].
        unfold mark_processed, modify. cbn [snd queue_messages set_queue_messages].
        rewrite (Hk H). reflexivity.
      * split; [cbn; tauto|]. split; [intros b' [= <-]; congruence|].
        split; [discriminate|].
        split; [intros b' [= <-] _; rewrite Hh; split; reflexivity|].
        intros H. split; [intros _; apply Hk, H | discriminate].
    + eexists _, _. split; [reflexivity|]. cbn [http_status retry_after].
      split; [cbn; tauto|]. split; [intros; split; reflexivity|].
      split; [discriminate|]. split; [intros b' [= <-]; congruence|].
      intros _. split; [reflexivity | discriminate].
  - eexists _, _. split; [reflexivity|]. cbn [http_status retry_after].
    split; [cbn; tauto|]. split; [discriminate|]. split; [intros; split; reflexivity|].
    split; [discriminate|]. intros _. split; [reflexivity | discriminate].
Qed.

(** A batch of two on [two_messages]: the first is acknowledged and
    marked, the second asks for a delay and is retried, unmarked. *)
Example consumer_example :
  let batch := [ mkMessage "msg_1" "__wkf_step_charge" (JNum 1) 1;
                 mkMessage "msg_2" "__wkf_step_charge" JNull 1 ] in
  let c := snd (createQueueConsumer sample_handler (fun i => 5000 + Z.of_nat i) batch
                  {| bindings := two_messages; settled := [] |}) in
  settled c = [(0%nat, Ack); (1%nat, Retry)] /\
  map processed_at (queue_messages (bindings c)) = [Some 5000; None].
Proof. split; reflexivity. Qed.

End QueueMore.

(** ** Identifiers *)

Section IdFacts.
Import Ids.

Lemma concat_cons x xs :
  String.concat EmptyString (x :: xs) = x +:+ String.concat EmptyString xs.
Proof.
  destruct xs as [|y xs]; cbn [String.concat].
  - rewrite append_nil_r. reflexivity.
  - rewrite append_nil. reflexivity.
Qed.

Lemma fold_append_chars (f : nat -> string) l acc :
  fold_left (fun result i => result +:+ f i) l acc = acc +:+ String.concat EmptyString (map f l).
Proof.
  revert acc. induction l as [|i l IH]; intros acc; cbn [fold_left map].
  - cbn. rewrite append_nil_r. reflexivity.
  - rewrite IH, concat_cons, append_assoc. reflexivity.
Qed.

Lemma char_at_chars (b : N) :
  exists c, char_at chars (b mod N.of_nat (String.length chars)) = String c EmptyString /\
            is_id_char c = true.
Proof.
  change (N.of_nat (String.length chars)) with 36%N.
  assert (H : (N.to_nat (b mod 36) < 36)%nat) by (pose proof (N.mod_upper_bound b 36); lia).
  unfold char_at. destruct (N.to_nat (b mod 36)) as [|k]; [eexists; split; reflexivity|].
  do 35 (destruct k as [|k]; [eexists; split; reflexivity|]). lia.
Qed.


Lemma concat_chars rv idx :
  exists l,
    length l = length idx /\ forallb is_id_char l = true /\
    String.concat EmptyString
      (map (fun i => char_at chars (nth i rv 0%N mod N.of_nat (String.length chars))) idx)
    = string_of_list_ascii l.
Proof.
  induction idx as [|i idx IH].
  - exists []. repeat split.
  - destruct IH as (l & Hl & Hall & E).
    destruct (char_at_chars (nth i rv 0%N)) as (c & Ec & Hc).
    exists (c :: l). cbn [length forallb string_of_list_ascii]. rewrite Hl, Hc, Hall.
    repeat split. cbn [map]. rewrite concat_cons, E, Ec. reflexivity.
Qed.

Lemma generateRandomId_chars rv :
  exists l,
    length l = 16%nat /\ forallb is_id_char l = true /\
    generateRandomId rv = string_of_list_ascii l.
Proof.
  unfold generateRandomId. rewrite fold_append_chars, append_nil.
  apply (concat_chars rv (seq 0 16)).
Qed.

Lemma length_of_chars l : String.length (string_of_list_ascii l) = length l.
Proof. induction l as [|c l IH]; cbn; [reflexivity | rewrite IH; reflexivity]. Qed.

Lemma id_char_no_slash c : is_id_char c = true -> Ascii.eqb c "/" = false.
Proof.
  unfold is_id_char. intros H. destruct (Ascii.eqb_spec c "/") as [->|]; [|reflexivity].
  discriminate H.
Qed.

Lemma slash_free_chars l : forallb is_id_char l = true -> R2.slash_free (string_of_list_ascii l) = true.
Proof.
  induction l as [|c l IH]; cbn; [reflexivity|].
  intros H. apply andb_prop in H as [Hc Hl]. rewrite (id_char_no_slash c Hc), (IH Hl). reflexivity.
Qed.

Lemma slash_free_append a b :
  R2.slash_free (a +:+ b) = R2.slash_free a && R2.slash_free b.
Proof.
  induction a as [|c a IH]; [reflexivity|].
  rewrite append_cons. cbn [R2.slash_free]. rewrite IH, andb_assoc. reflexivity.
Qed.

(** X24.  Generated identifiers.  Whatever the random bytes, the
    random part has 16 characters, each a lower-case letter or a digit;
    an identifier is its prefix followed by that part, so it has a
    slash exactly when the prefix has one, and run, event and message
    identifiers have none.  The random part depends on the bytes only
    through their remainders modulo 36. *)
Theorem generated_ids_are_well_formed rv :
  String.length (generateRandomId rv) = 16%nat /\
  all_chars is_id_char (generateRandomId rv) = true /\
  (forall prefix,
     String.prefix prefix (generateId prefix rv) = true /\
     String.length (generateId prefix rv) = (String.length prefix + 16)%nat /\
     R2.slash_free (generateId prefix rv) = R2.slash_free prefix) /\
  R2.slash_free (generateRunId rv) = true /\
  R2.slash_free (generateEventId rv) = true /\
  R2.slash_free (generateMessageId rv) = true /\
  (forall rv',
     (forall i, (i < 16)%nat -> (nth i rv' 0 mod 36 = nth i rv 0 mod 36)%N) ->
     generateRandomId rv' = generateRandomId rv).
Proof.
  destruct (generateRandomId_chars rv) as (l & Hl & Hall & E).
  assert (Hfree : forall prefix,
            R2.slash_free (generateId prefix rv) = R2.slash_free prefix).
  { intros prefix. unfold generateId. rewrite slash_free_append, E, (slash_free_chars l Hall).
    apply andb_true_r. }
  split; [rewrite E, length_of_chars; exact Hl|].
  split; [unfold all_chars; rewrite E, list_ascii_of_string_of_list_ascii; exact Hall|].
  split; [|split; [|split; [|split]]].
  - intros prefix. split; [apply prefix_append|]. split; [|apply Hfree].
    unfold generateId. rewrite length_append, E, length_of_chars, Hl. reflexivity.
  - unfold generateRunId. rewrite Hfree. reflexivity.
  - unfold generateEventId. rewrite Hfree. reflexivity.
  - unfold generateMessageId. rewrite Hfree. reflexivity.
  - intros rv' Hsame. unfold generateRandomId. rewrite !fold_append_chars. f_equal. f_equal.
    apply map_ext_in. intros i Hi. apply in_seq in Hi.
    change (N.of_nat (String.length chars)) with 36%N. rewrite Hsame by lia. reflexivity.
Qed.


Lemma hex_pair b :
  (b < 256)%N ->
  padStart2 (toString16 b) =
  String (JSON.hex_digit (b / 16)) (String (JSON.hex_digit (b mod 16)) EmptyString).
Proof.
  intros Hb. unfold toString16. destruct (N.ltb_spec b 16) as [Hlt|Hge]; [|reflexivity].
  cbn [padStart2]. rewrite N.div_small, N.mod_small by exact Hlt. reflexivity.
Qed.

Lemma hex_digit_spec n :
  (n < 16)%N ->
  is_hex_char (JSON.hex_digit n) = true /\
  N_of_ascii (JSON.hex_digit n) = (if (n <? 10)%N then 48 + n else 87 + n)%N.
Proof.
  intros Hn. unfold JSON.hex_digit, is_hex_char.
  destruct (N.ltb_spec n 10) as [Hlt|Hge]; rewrite N_ascii_embedding by lia.
  - split; [|reflexivity].
    apply orb_true_iff. right. apply andb_true_iff. rewrite !N.leb_le. lia.
  - split; [|reflexivity].
    apply orb_true_iff. left. apply andb_true_iff. rewrite !N.leb_le. lia.
Qed.

Lemma hex_digit_injective m n :
  (m < 16)%N -> (n < 16)%N -> JSON.hex_digit m = JSON.hex_digit n -> m = n.
Proof.
  intros Hm Hn E. apply (f_equal N_of_ascii) in E.
  rewrite (proj2 (hex_digit_spec m Hm)), (proj2 (hex_digit_spec n Hn)) in E.
  destruct (N.ltb_spec m 10), (N.ltb_spec n 10); lia.
Qed.

Lemma token_cons b rv :
  (b < 256)%N ->
  generateHookToken (b :: rv) =
  String (JSON.hex_digit (b / 16)) (String (JSON.hex_digit (b mod 16)) (generateHookToken rv)).
Proof.
  intros Hb. unfold generateHookToken. cbn [map]. rewrite concat_cons, (hex_pair b Hb).
  reflexivity.
Qed.

(** X25.  The hook token of a list of bytes has two characters for
    each byte, each a lower-case hexadecimal digit, and different lists
    of bytes give different tokens. *)
Theorem hook_token_is_hex rv :
  Forall (fun b => (b < 256)%N) rv ->
  String.length (generateHookToken rv) = (2 * length rv)%nat /\
  all_chars is_hex_char (generateHookToken rv) = true /\
  forall rv', Forall (fun b => (b < 256)%N) rv' ->
    generateHookToken rv' = generateHookToken rv -> rv' = rv.
Proof.
  intros Hrv. induction Hrv as [|b rv Hb Hrv IH].
  - split; [reflexivity|]. split; [reflexivity|].
    intros rv' Hrv' E. destruct Hrv' as [|b' rv' Hb' Hrv']; [reflexivity|].
    rewrite (token_cons b' rv' Hb') in E. discriminate.
  - destruct IH as (Hlen & Hall & Hinj).
    assert (Hhi : (b / 16 < 16)%N) by (apply N.Div0.div_lt_upper_bound; lia).
    assert (Hlo : (b mod 16 < 16)%N) by (apply N.mod_upper_bound; lia).
    rewrite (token_cons b rv Hb). split; [cbn [String.length]; rewrite Hlen; cbn; lia|].
    split.
    + unfold all_chars in *. cbn [list_ascii_of_string forallb].
      rewrite (proj1 (hex_digit_spec _ Hhi)), (proj1 (hex_digit_spec _ Hlo)), Hall. reflexivity.
    + intros rv' Hrv' E. destruct Hrv' as [|b' rv' Hb' Hrv']; [discriminate|].
      rewrite (token_cons b' rv' Hb') in E. injection E as E1 E2 E3.
      assert (Hhi' : (b' / 16 < 16)%N) by (apply N.Div0.div_lt_upper_bound; lia).
      assert (Hlo' : (b' mod 16 < 16)%N) by (apply N.mod_upper_bound; lia).
      apply (hex_digit_injective _ _ Hhi' Hhi) in E1.
      apply (hex_digit_injective _ _ Hlo' Hlo) in E2.
      rewrite (Hinj rv' Hrv' E3). f_equal.
      rewrite (N.div_mod b' 16), (N.div_mod b 16) by lia. rewrite E1, E2. reflexivity.
Qed.

Lemma hook_token_is_hex_witness :
  generateHookToken [0; 10; 255; 16]%N = "000aff10"%string /\
  String.length (generateHookToken [0; 10; 255; 16]%N) = 8%nat.
Proof.
  split; [reflexivity|].
  refine (proj1 (hook_token_is_hex [0; 10; 255; 16]%N _)).
  repeat constructor.
Defined.

End IdFacts.

(** ** The hook repository *)

Section HookMore.
Import HookRow Hooks.
Variables (owner project envt : string).

Lemma find_none_app {A} (p : A -> bool) l x :
  find p l = None -> p x = true -> find p (l ++ [x]) = Some x.
Proof.
  intros H Hx. induction l as [|y l IH]; cbn in *; [rewrite Hx; reflexivity|].
  destruct (p y); [discriminate | exact (IH H)].
Qed.

Lemma find_none_is_existsb_false {A} (p : A -> bool) l :
  find p l = None -> existsb p l = false.
Proof.
  induction l as [|y l IH]; cbn; [reflexivity|].
  destruct (p y); [discriminate | exact IH].
Qed.

Lemma find_none_not_in {A} (f : A -> string) k l :
  find (fun r => String.eqb (f r) k) l = None -> k ∉ map f l.
Proof.
  induction l as [|y l IH]; cbn; [intros _; apply not_elem_of_nil|].
  destruct (String.eqb_spec (f y) k) as [|Hne]; [discriminate|].
  intros H. apply not_elem_of_cons. split; [congruence | exact (IH H)].
Qed.

Lemma NoDup_snoc_new {A} (f : A -> string) l x :
  NoDup (map f l) -> f x ∉ map f l -> NoDup (map f (l ++ [x])).
Proof.
  intros Hnd Hx. rewrite map_app. apply NoDup_app. repeat split.
  - exact Hnd.
  - intros y Hy Hin. cbn in Hin. apply list_elem_of_singleton in Hin. subst y. exact (Hx Hy).
  - apply NoDup_singleton.
Qed.

(** X26.  A hook created with an id and a token no stored hook has, on
    a run that exists, is returned with the fields of the request, the
    owner, project and environment of the storage and the time of the
    call; [get] by its id and [getByToken] by its token then return the
    same hook.  Its metadata, a value of safe integers, strings, arrays
    and objects with distinct keys that begin with no digit, is the
    requested value when that is truthy and the data is resolved, and
    absent otherwise: a metadata of 0, false, null or the empty string
    is not stored.  One row is added and the keys stay unique. *)
Theorem hook_create_round_trip now rid data resolve db :
  find (fun r => String.eqb (hook_id r) (new_hookId data)) (workflow_hooks db) = None ->
  find (fun r => String.eqb (token r) (new_token data)) (workflow_hooks db) = None ->
  existsb (fun r => String.eqb (RunRow.run_id r) rid) (runs db) = true ->
  (forall v, new_metadata data = Some v -> JSON.exact v = true) ->
  exists h db',
    create owner project envt now rid data resolve db = (Returned h, db') /\
    get (new_hookId data) resolve db' = (Returned h, db') /\
    getByToken (new_token data) resolve db' = (Returned h, db') /\
    hookId h = new_hookId data /\ runId h = rid /\ hook_token h = new_token data /\
    ownerId h = owner /\ projectId h = project /\ hook_environment h = envt /\
    createdAt h = now /\
    hook_metadata h =
      match default resolve_all resolve, new_metadata data with
      | resolve_all, Some v => if truthy v then Some (JSON.Known v) else None
      | _, _ => None
      end /\
    length (workflow_hooks db') = S (length (workflow_hooks db)) /\
    (keys_unique db -> keys_unique db').
Proof.
  intros Hid Htok Hrun Hexact.
  set (row := {| hook_id := new_hookId data; run_id := rid; token := new_token data;
                 owner_id := owner; project_id := project; environment := envt;
                 metadata := match new_metadata data with
                             | Some v => if truthy v then Some (JSON.stringify v) else None
                             | None => None
                             end;
                 created_at := now |}).
  set (db' := set_workflow_hooks (workflow_hooks db ++ [row]) db).
  assert (Hins : insert_hook row db = Some db').
  { unfold insert_hook. cbn [hook_id token run_id row].
    rewrite (find_none_is_existsb_false _ _ Hid), (find_none_is_existsb_false _ _ Htok), Hrun.
    reflexivity. }
  assert (Hrow : exists h,
            rowToHook row resolve = Returned h /\
            hookId h = new_hookId data /\ runId h = rid /\ hook_token h = new_token data /\
            ownerId h = owner /\ projectId h = project /\ hook_environment h = envt /\
            createdAt h = now /\
            hook_metadata h =
              match default resolve_all resolve, new_metadata data with
              | resolve_all, Some v => if truthy v then Some (JSON.Known v) else None
              | _, _ => None
              end).
  { unfold rowToHook. cbn [metadata row].
    destruct (new_metadata data) as [v|].
    - destruct (truthy v).
      + destruct (stringify_nonempty v) as (c & text & E). rewrite E. cbn [truthy_string].
        rewrite <- E, (read_stringify v (Hexact v eq_refl)).
        destruct (default resolve_all resolve); eexists; repeat split.
      + cbn [truthy_string]. destruct (default resolve_all resolve); eexists; repeat split.
    - cbn [truthy_string]. destruct (default resolve_all resolve); eexists; repeat split. }
  destruct Hrow as (h & Hh & Hfields).
  exists h, db'. split; [|split; [|split]].
  - unfold create. fold row. rewrite Hins. unfold get. cbn [workflow_hooks db' set_workflow_hooks].
    rewrite (find_none_app _ _ row Hid) by apply String.eqb_refl. rewrite Hh. reflexivity.
  - unfold get. cbn [workflow_hooks db' set_workflow_hooks].
    rewrite (find_none_app _ _ row Hid) by apply String.eqb_refl. rewrite Hh. reflexivity.
  - unfold getByToken. cbn [workflow_hooks db' set_workflow_hooks].
    rewrite (find_none_app _ _ row Htok) by apply String.eqb_refl. rewrite Hh. reflexivity.
  - destruct Hfields as (? & ? & ? & ? & ? & ? & ? & ?). repeat split; try assumption.
    + cbn. rewrite length_app. cbn. lia.
    + apply NoDup_snoc_new; [apply H7 | apply (find_none_not_in hook_id), Hid].
    + apply NoDup_snoc_new; [apply H7 | apply (find_none_not_in token), Htok].
Qed.

Lemma find_filter_other {A} (f : A -> string) id id' (l : list A) :
  id' <> id ->
  find (fun r => String.eqb (f r) id') (List.filter (fun r => negb (String.eqb (f r) id)) l)
  = find (fun r => String.eqb (f r) id') l.
Proof.
  intros Hne. induction l as [|y l IH]; [reflexivity|]. cbn.
  destruct (String.eqb_spec (f y) id) as [E|E]; cbn.
  - destruct (String.eqb_spec (f y) id') as [E'|E']; [congruence | exact IH].
  - destruct (String.eqb (f y) id'); [reflexivity | exact IH].
Qed.

Lemma find_filter_self {A} (f : A -> string) id (l : list A) :
  find (fun r => String.eqb (f r) id) (List.filter (fun r => negb (String.eqb (f r) id)) l)
  = None.
Proof.
  induction l as [|y l IH]; [reflexivity|]. cbn.
  destruct (String.eqb (f y) id) eqn:E; cbn; [exact IH|]. rewrite E. exact IH.
Qed.

Lemma find_token_removed id row (l : list WorkflowHookRow) :
  NoDup (map token l) ->
  find (fun r => String.eqb (hook_id r) id) l = Some row ->
  find (fun r => String.eqb (token r) (token row))
    (List.filter (fun r => negb (String.eqb (hook_id r) id)) l) = None.
Proof.
  induction l as [|y l IH]; [discriminate|]. cbn [map find List.filter].
  intros Hnd. apply NoDup_cons in Hnd as [Hy Hnd].
  destruct (String.eqb (hook_id y) id) eqn:E; cbn [negb].
  - intros [= ->].
    destruct (find _ (List.filter _ l)) as [z|] eqn:Ez; [|reflexivity].
    exfalso. apply find_some in Ez as [Hin Hz]. apply filter_In in Hin as [Hin _].
    apply String.eqb_eq in Hz. apply Hy. rewrite <- Hz.
    apply list_elem_of_In, in_map, Hin.
  - intros Hfind. cbn [find]. 
    destruct (String.eqb_spec (token y) (token row)) as [Et|Et]; [|exact (IH Hnd Hfind)].
    exfalso. apply find_some in Hfind as [Hin _]. apply Hy. rewrite Et.
    apply list_elem_of_In, in_map, Hin.
Qed.

(** X27.  When the tokens of the stored hooks are distinct, [dispose]
    returns the hook [get] returns and deletes it: afterwards [get] and
    a second [dispose] throw `Hook not found`, its token is no longer
    found, every other hook reads as before and the runs are untouched.
    When [get] throws (no such hook, or stored metadata that is not
    JSON), [dispose] throws the same error and deletes nothing. *)
Theorem hook_dispose db id resolve :
  NoDup (map token (workflow_hooks db)) ->
  match get id resolve db with
  | (Returned h, _) =>
      exists db',
        dispose id resolve db = (Returned h, db') /\
        (forall r, get id r db' = (Failed (HookNotFound id), db')) /\
        (forall r, getByToken (hook_token h) r db'
                   = (Failed (HookNotFoundForToken (hook_token h)), db')) /\
        (forall r, dispose id r db' = (Failed (HookNotFound id), db')) /\
        (forall id' r, id' <> id -> fst (get id' r db') = fst (get id' r db)) /\
        runs db' = runs db
  | (Failed f, _) => dispose id resolve db = (Failed f, db)
  end.
Proof.
  intros Hnd. unfold dispose.
  destruct (get id resolve db) as [[h|f] db0] eqn:Hget.
  - unfold get in Hget.
    destruct (find _ (workflow_hooks db)) as [row|] eqn:Hfind; [|discriminate].
    injection Hget as Hh <-.
    assert (Htok : hook_token h = token row).
    { unfold rowToHook in Hh.
      destruct (truthy_string (metadata row)) as [text|];
        [destruct (default resolve_all resolve); try destruct (JSON.read text)|];
        first [discriminate Hh | injection Hh as <-; reflexivity]. }
    exists (delete_hook id db). split; [reflexivity|].
    assert (Hgone : forall r, get id r (delete_hook id db)
                              = (Failed (HookNotFound id), delete_hook id db)).
    { intros r. unfold get, delete_hook. cbn [workflow_hooks set_workflow_hooks].
      rewrite find_filter_self. reflexivity. }
    split; [exact Hgone|]. split; [|split; [|split]].
    + intros r. unfold getByToken, delete_hook. cbn [workflow_hooks set_workflow_hooks].
      rewrite Htok, (find_token_removed id row _ Hnd Hfind). reflexivity.
    + intros r. rewrite Hgone. reflexivity.
    + intros id' r Hne. unfold get, delete_hook. cbn [workflow_hooks set_workflow_hooks].
      rewrite (find_filter_other hook_id id id' _ Hne).
      destruct (find (fun r0 => String.eqb (hook_id r0) id') (workflow_hooks db)); reflexivity.
    + reflexivity.
  - unfold get in Hget.
    destruct (find (fun r => String.eqb (hook_id r) id) (workflow_hooks db));
      inversion Hget; reflexivity.
Qed.

End HookMore.

Section HookWitnesses.
Import HookRow Hooks.

Lemma hook_create_round_trip_witness :
  exists h db',
    create "owner" "project" "production" 1200 "wrun_a"
      {| new_hookId := "hook_2"; new_token := "tok_2";
         new_metadata := Some (JObj [("to", JStr "ops")]) |} None one_hook
    = (Returned h, db') /\
    getByToken "tok_2" None db' = (Returned h, db') /\
    hook_metadata h = Some (JSON.Known (JObj [("to", JStr "ops")])).
Proof.
  destruct (hook_create_round_trip "owner" "project" "production" 1200 "wrun_a"
              {| new_hookId := "hook_2"; new_token := "tok_2";
                 new_metadata := Some (JObj [("to", JStr "ops")]) |} None one_hook
              eq_refl eq_refl eq_refl)
    as (h & db' & Hc & _ & Ht & _ & _ & _ & _ & _ & _ & _ & Hm & _).
  - intros v [= <-]. reflexivity.
  - exists h, db'. split; [exact Hc|]. split; [exact Ht | exact Hm].
Defined.

Lemma hook_dispose_witness :
  exists h db',
    dispose "hook_1" None one_hook = (Returned h, db') /\
    get "hook_1" None db' = (Failed (HookNotFound "hook_1"), db').
Proof.
  assert (Hnd : NoDup (map token (workflow_hooks one_hook))).
  { apply NoDup_cons. split; [apply not_elem_of_nil | apply NoDup_nil_2]. }
  pose proof (hook_dispose one_hook "hook_1" None Hnd) as H.
  cbn in H. destruct H as (db' & Hd & Hg & _).
  eexists _, db'. split; [exact Hd | exact (Hg None)].
Defined.

End HookWitnesses.

(** ** The streamer *)

Section StreamFacts.
Import Streamer.

Lemma enqueued_concat startIndex body : forall bytesRead,
  concat (enqueued startIndex bytesRead body)
  = drop (Z.to_nat (startIndex - bytesRead)) (concat body).
Proof.
  induction body as [|value rest IH]; intros bytesRead; cbn [enqueued concat].
  - rewrite drop_nil. reflexivity.
  - destruct (Z.leb_spec (bytesRead + Z.of_nat (length value)) startIndex) as [Hle|Hgt].
    + rewrite IH, drop_app_ge by lia. f_equal. lia.
    + destruct (Z.ltb_spec bytesRead startIndex) as [Hlt|Hge]; cbn [concat]; rewrite IH.
      * rewrite drop_app_le by lia.
        replace (Z.to_nat (startIndex - (bytesRead + Z.of_nat (length value)))) with 0%nat by lia.
        reflexivity.
      * replace (Z.to_nat (startIndex - (bytesRead + Z.of_nat (length value)))) with 0%nat by lia.
        replace (Z.to_nat (startIndex - bytesRead)) with 0%nat by lia.
        reflexivity.
Qed.

Lemma enqueued_nonempty startIndex body : forall bytesRead,
  Forall (fun value => value <> []) body ->
  Forall (fun value => value <> []) (enqueued startIndex bytesRead body).
Proof.
  induction body as [|value rest IH]; intros bytesRead Hne; cbn [enqueued]; [constructor|].
  apply Forall_cons in Hne as [Hv Hrest].
  destruct (Z.leb_spec (bytesRead + Z.of_nat (length value)) startIndex) as [Hle|Hgt];
    [apply IH, Hrest|].
  destruct (Z.ltb_spec bytesRead startIndex) as [Hlt|Hge];
    (apply Forall_cons; split; [|apply IH, Hrest]); [|exact Hv].
  intros E. apply (f_equal length) in E. rewrite length_drop in E. cbn in E. lia.
Qed.

Lemma find_snoc {A} (p : A -> bool) l x :
  find p (l ++ [x]) =
  match find p l with
  | Some y => Some y
  | None => if p x then Some x else None
  end.
Proof.
  induction l as [|y l IH]; cbn; [reflexivity|]. destruct (p y); [reflexivity | exact IH].
Qed.

Lemma getStreamKey_injective a b : getStreamKey a = getStreamKey b -> a = b.
Proof. unfold getStreamKey. rewrite !append_cons, !append_nil. intros [= E]. exact E. Qed.

Lemma metadata_spec now name st :
  let '(row, st1) := getOrCreateStreamMetadata now name st in
  find (fun r => String.eqb (stream_name r) name) (streams st1) = Some row /\
  stream_name row = name /\
  objects st1 = objects st /\
  (well_keyed st -> well_keyed st1) /\
  (forall name', name' <> name ->
     find (fun r => String.eqb (stream_name r) name') (streams st1)
     = find (fun r => String.eqb (stream_name r) name') (streams st)) /\
  (forall row0, find (fun r => String.eqb (stream_name r) name) (streams st) = Some row0 ->
     row = row0 /\ st1 = st) /\
  (find (fun r => String.eqb (stream_name r) name) (streams st) = None ->
     r2_key row = getStreamKey name /\ is_closed row = 0).
Proof.
  unfold getOrCreateStreamMetadata.
  destruct (find (fun r => String.eqb (stream_name r) name) (streams st)) as [row|] eqn:Hfind.
  - split; [exact Hfind|]. split.
    { apply find_some in Hfind as [_ E]. apply String.eqb_eq, E. }
    split; [reflexivity|]. split; [tauto|]. split; [reflexivity|].
    split; [intros ? [= <-]; split; reflexivity | discriminate].
  - cbn [streams objects set_streams]. split.
    { rewrite find_snoc, Hfind. cbn [stream_name]. rewrite String.eqb_refl. reflexivity. }
    split; [reflexivity|]. split; [reflexivity|]. split.
    { intros Hk. apply Forall_app. split; [exact Hk|]. repeat constructor. }
    split.
    { intros name' Hne. rewrite find_snoc. cbn [stream_name].
      destruct (String.eqb_spec name name'); [congruence|].
      destruct (find (fun r => String.eqb (stream_name r) name') (streams st)); reflexivity. }
    split; [discriminate|]. intros _. split; reflexivity.
Qed.

Lemma row_key name st row :
  well_keyed st ->
  find (fun r => String.eqb (stream_name r) name) (streams st) = Some row ->
  r2_key row = getStreamKey name.
Proof.
  intros Hk Hfind. apply find_some in Hfind as [Hin E]. apply String.eqb_eq in E.
  rewrite <- E. unfold well_keyed in Hk. rewrite Forall_forall in Hk.
  apply Hk, list_elem_of_In, Hin.
Qed.

Section Reading.
Variable body_chunks : list byte -> list (list byte).
Hypothesis body_whole : forall object, concat (body_chunks object) = object.

Lemma read_concat t name i st :
  concat (fst (readFromStream body_chunks t name i st)) =
  drop (Z.to_nat (default 0 i))
    (let '(row, st1) := getOrCreateStreamMetadata t name st in
     default [] (objects st1 !! r2_key row)).
Proof.
  unfold readFromStream.
  destruct (getOrCreateStreamMetadata t name st) as [row st1].
  destruct (objects st1 !! r2_key row) as [object|]; cbn [default fst].
  - destruct (Z.ltb_spec 0 (default 0 i)) as [Hpos|Hnp]; cbn [fst].
    + rewrite enqueued_concat, body_whole, Z.sub_0_r. reflexivity.
    + rewrite body_whole. replace (Z.to_nat (default 0 i)) with 0%nat by lia. reflexivity.
  - rewrite drop_nil. reflexivity.
Qed.

(** X28.  Writing to a stream that is not closed returns, whether the
    stream existed or not, and whatever chunks the platform delivers an
    object in: reading the stream afterwards, from any start index,
    yields the bytes that were there before followed by the bytes of the
    chunk, less the first startIndex of them; when the platform
    delivers no empty chunk, none is enqueued.  When every row has the
    key the streamer gives it, this stays so and every other stream
    reads as before. *)
Theorem stream_write_then_read now name chunk st :
  (forall row, find (fun r => String.eqb (stream_name r) name) (streams st) = Some row ->
               is_closed row = 0) ->
  exists st',
    writeToStream now name chunk st = (Done, st') /\
    (forall t i,
       concat (fst (readFromStream body_chunks t name i st')) =
       drop (Z.to_nat (default 0 i))
         (concat (fst (readFromStream body_chunks now name None st)) ++ chunk_data chunk)) /\
    (forall t i,
       Forall (fun value => value <> []) (body_chunks
          (concat (fst (readFromStream body_chunks now name None st)) ++ chunk_data chunk)) ->
       Forall (fun value => value <> []) (fst (readFromStream body_chunks t name i st'))) /\
    (well_keyed st ->
     well_keyed st' /\
     forall t i name', name' <> name ->
       fst (readFromStream body_chunks t name' i st')
       = fst (readFromStream body_chunks t name' i st)).
Proof.
  intros Hopen.
  pose proof (metadata_spec now name st) as Hm.
  rewrite (read_concat now name None st). cbn [default Z.to_nat drop].
  unfold writeToStream.
  destruct (getOrCreateStreamMetadata now name st) as [row st1].
  destruct Hm as (Hfind & Hname & Hobj & Hkeyed & Hother & Hold & Hnew).
  assert (Hc : is_closed row = 0).
  { destruct (find (fun r => String.eqb (stream_name r) name) (streams st)) as [row0|] eqn:E.
    - destruct (Hold row0 eq_refl) as [-> _]. apply Hopen. reflexivity.
    - apply Hnew. reflexivity. }
  rewrite Hc. cbn [Z.eqb negb].
  change (match objects st1 !! r2_key row with Some e => e | None => [] end)
    with (default [] (objects st1 !! r2_key row)).
  set (combined := default [] (objects st1 !! r2_key row) ++ chunk_data chunk).
  set (st' := set_objects (<[r2_key row := combined]> (objects st1)) st1).
  assert (Hget : forall t, getOrCreateStreamMetadata t name st' = (row, st')).
  { intros t. unfold getOrCreateStreamMetadata. cbn [streams st' set_objects].
    rewrite Hfind. reflexivity. }
  exists st'. split; [reflexivity|]. split; [|split].
  - intros t i. rewrite read_concat, Hget. cbn [objects st' set_objects].
    rewrite lookup_insert_eq. reflexivity.
  - intros t i Hne. unfold readFromStream. rewrite Hget. cbn [objects st' set_objects].
    rewrite lookup_insert_eq.
    destruct (0 <? default 0 i); cbn [fst]; [apply enqueued_nonempty|]; exact Hne.
  - intros Hk. split; [exact (Hkeyed Hk)|].
    assert (Hkey : r2_key row = getStreamKey name).
    { destruct (find (fun r => String.eqb (stream_name r) name) (streams st)) as [row0|] eqn:E.
      - destruct (Hold row0 eq_refl) as [-> _]. apply (row_key name st row0 Hk E).
      - apply Hnew. reflexivity. }
    intros t i name' Hne. unfold readFromStream, getOrCreateStreamMetadata.
    cbn [streams st' set_objects]. rewrite (Hother name' Hne).
    destruct (find (fun r => String.eqb (stream_name r) name') (streams st)) as [row'|] eqn:E'.
    + cbn [objects st' set_objects]. rewrite Hobj.
      rewrite lookup_insert_ne.
      * destruct (objects st !! r2_key row'); [|reflexivity].
        destruct (0 <? default 0 i); reflexivity.
      * rewrite Hkey, (row_key name' st row' Hk E').
        intros E. apply getStreamKey_injective in E. congruence.
    + cbn [objects st' set_objects set_streams r2_key]. rewrite Hobj.
      rewrite lookup_insert_ne.
      * destruct (objects st !! getStreamKey name'); [|reflexivity].
        destruct (0 <? default 0 i); reflexivity.
      * rewrite Hkey. intros E. apply getStreamKey_injective in E. congruence.
Qed.

End Reading.

Lemma find_map_same (f : StreamRow -> StreamRow) name l :
  (forall r, stream_name (f r) = stream_name r) ->
  find (fun r => String.eqb (stream_name r) name) (map f l)
  = option_map f (find (fun r => String.eqb (stream_name r) name) l).
Proof.
  intros Hf. induction l as [|y l IH]; [reflexivity|]. cbn. rewrite Hf.
  destruct (String.eqb (stream_name y) name); [reflexivity | exact IH].
Qed.

(** X29.  After closeStream, whether the stream existed, was open
    or was closed already, every write to it throws `Stream ... is
    closed and cannot be written to` and changes nothing, closing it
    again changes nothing, and it reads as it did before it was closed:
    closing leaves the objects alone. *)
Theorem closed_stream_refuses_writes now now' name st :
  let st1 := closeStream now now' name st in
  (forall t chunk, writeToStream t name chunk st1 = (StreamClosed name, st1)) /\
  (forall t t', closeStream t t' name st1 = st1) /\
  (forall body_chunks t t' i,
     fst (readFromStream body_chunks t name i st1)
     = fst (readFromStream body_chunks t' name i st)) /\
  objects st1 = objects st /\
  (well_keyed st -> well_keyed st1).
Proof.
  intros st1.
  assert (H : exists row,
             find (fun r => String.eqb (stream_name r) name) (streams st1) = Some row /\
             is_closed row <> 0 /\
             objects st1 = objects st /\
             (forall t, r2_key row = r2_key (fst (getOrCreateStreamMetadata t name st))) /\
             (well_keyed st -> well_keyed st1)).
  { subst st1. unfold closeStream.
    pose proof (metadata_spec now name st) as Hm.
    destruct (getOrCreateStreamMetadata now name st) as [row st0] eqn:Hg.
    destruct Hm as (Hfind & Hname & Hobj & Hkeyed & _ & Hold & Hnew).
    assert (Hkey : forall t, r2_key row = r2_key (fst (getOrCreateStreamMetadata t name st))).
    { intros t. unfold getOrCreateStreamMetadata in *.
      destruct (find (fun r => String.eqb (stream_name r) name) (streams st)) as [row0|];
        injection Hg as <- _; reflexivity. }
    destruct (Z.eqb_spec (is_closed row) 0) as [Hz|Hnz]; cbn [negb].
    - eexists. split.
      { cbn [streams set_streams]. rewrite find_map_same.
        - rewrite Hfind. cbn [option_map]. rewrite Hname, String.eqb_refl. reflexivity.
        - intros r. destruct (String.eqb (stream_name r) name); reflexivity. }
      split; [cbn; discriminate|]. split; [exact Hobj|]. split; [exact Hkey|].
      intros Hk. specialize (Hkeyed Hk). unfold well_keyed in *. cbn [streams set_streams].
      apply Forall_map. eapply Forall_impl; [exact Hkeyed|].
      intros r Hr. cbn beta. destruct (String.eqb (stream_name r) name); exact Hr.
    - exists row. repeat split; assumption. }
  destruct H as (row & Hfind & Hclosed & Hobj & Hkey & Hk).
  assert (Hget : forall t, getOrCreateStreamMetadata t name st1 = (row, st1)).
  { intros t. unfold getOrCreateStreamMetadata. rewrite Hfind. reflexivity. }
  assert (Hb : negb (is_closed row =? 0) = true).
  { destruct (Z.eqb_spec (is_closed row) 0); [contradiction | reflexivity]. }
  split; [|split; [|split; [|split]]].
  - intros t chunk. unfold writeToStream. rewrite Hget, Hb. reflexivity.
  - intros t t'. unfold closeStream. rewrite Hget, Hb. reflexivity.
  - intros body_chunks t t' i. unfold readFromStream. rewrite Hget, Hobj, (Hkey t').
    pose proof (metadata_spec t' name st) as Hm.
    destruct (getOrCreateStreamMetadata t' name st) as [row' st'].
    destruct Hm as (_ & _ & -> & _). cbn [fst].
    destruct (objects st !! r2_key row'); [|reflexivity].
    destruct (0 <? default 0 i); reflexivity.
  - exact Hobj.
  - exact Hk.
Qed.

Lemma in_pairs_whole : forall object, concat (in_pairs object) = object.
Proof.
  assert (H : forall n object, (length object <= n)%nat -> concat (in_pairs object) = object).
  { induction n as [|n IH]; intros object Hlen.
    - destruct object; [reflexivity | cbn in Hlen; lia].
    - destruct object as [|x [|y r]]; [reflexivity | reflexivity |].
      cbn [in_pairs concat app]. rewrite IH; [reflexivity | cbn in Hlen; lia]. }
  intros object. apply (H (length object)). lia.
Qed.

Lemma stream_write_then_read_witness :
  exists st',
    writeToStream 2000 "log" (Text "!") one_stream = (Done, st') /\
    concat (fst (readFromStream in_pairs 3000 "log" (Some 3) st')) = [x6c; x6f; x21]%byte.
Proof.
  destruct (stream_write_then_read in_pairs in_pairs_whole 2000 "log" (Text "!") one_stream)
    as (st' & Hw & Hr & _).
  - intros row [= <-]. reflexivity.
  - exists st'. split; [exact Hw|]. rewrite Hr. reflexivity.
Defined.

End StreamFacts.

(** ** The router *)

Section RouterFacts.
Import Worker.

Lemma take_segment_slash_free id :
  R2.slash_free id = true -> take_segment id = (id, EmptyString).
Proof.
  induction id as [|c id IH]; cbn [R2.slash_free take_segment]; [reflexivity|].
  destruct (Ascii.eqb c "/"); cbn [negb andb]; [discriminate|].
  intros H. rewrite (IH H). reflexivity.
Qed.

Lemma split_slash_slash_free id :
  R2.slash_free id = true -> split_slash id = [id].
Proof.
  induction id as [|c id IH]; cbn [R2.slash_free split_slash]; [reflexivity|].
  destruct (Ascii.eqb c "/"); cbn [negb andb]; [discriminate|].
  intros H. rewrite (IH H). reflexivity.
Qed.

Lemma first_return_cases blocks method otherwise :
  first_return blocks method otherwise = otherwise \/
  exists b, In b blocks /\ b method = Some (first_return blocks method otherwise).
Proof.
  induction blocks as [|b blocks IH]; cbn [first_return]; [left; reflexivity|].
  destruct (b method) as [r|] eqn:E.
  - right. exists b. split; [left; reflexivity | exact E].
  - destruct IH as [IH|(b' & Hin & Hb')]; [left; exact IH|].
    right. exists b'. split; [right; exact Hin | exact Hb'].
Qed.

Lemma on_returns cond methods method r :
  on cond methods method = Some r -> cond = true /\ In (method, r) methods.
Proof.
  unfold on. destruct cond; [|discriminate].
  destruct (find (fun mb => String.eqb method (fst mb)) methods) as [[m r']|] eqn:E;
    [|discriminate].
  intros [= <-]. apply find_some in E as [Hin Hm]. apply String.eqb_eq in Hm.
  cbn in Hm. subst m. split; [reflexivity | exact Hin].
Qed.

Lemma hooks_path id :
  ("/api/hooks/" +:+ id)%string
  = String "/" (String "a" (String "p" (String "i" (String "/" (String "h" (String "o"
      (String "o" (String "k" (String "s" (String "/" id)))))))))).
Proof. reflexivity. Qed.

(** X30.  No request is answered by the branch for
    /api/hooks/by-token.  A GET or DELETE of /api/hooks/ followed by a
    non-empty segment without a slash is answered by hooks.get or
    hooks.dispose on that segment, and 'by-token' is such a segment:
    GET /api/hooks/by-token is answered by hooks.get('by-token'), and
    the test for that path, which comes later, is reached only where it
    has no branch to offer. *)
Theorem hooks_by_token_is_never_reached :
  (forall method pathname, route method pathname <> HooksByToken) /\
  (forall id, id <> EmptyString -> R2.slash_free id = true ->
     route "GET" ("/api/hooks/" +:+ id) = HooksGet (Some id) /\
     route "DELETE" ("/api/hooks/" +:+ id) = HooksDispose (Some id)) /\
  route "GET" "/api/hooks/by-token" = HooksGet (Some "by-token"%string).
Proof.
  split; [|split].
  - intros method pathname H. unfold route in H.
    destruct (String.eqb pathname "/health"); [discriminate|].
    destruct (String.eqb pathname "/auth"); [discriminate|].
    destruct (startsWith "/api/" pathname); [|discriminate].
    pose proof H as Hapi. unfold api in H.
    match type of H with first_return ?bs _ _ = _ =>
      destruct (first_return_cases bs method NotFound) as [E|(b & Hin & Hb)]
    end.
    + rewrite E in H. discriminate.
    + rewrite H in Hb. cbn [In] in Hin.
      repeat (destruct Hin as [<-|Hin];
              [apply on_returns in Hb as [Hc Hm]; cbn [In] in Hm;
               repeat (destruct Hm as [Hm|Hm]; [try discriminate|]); try contradiction|]);
        try contradiction.
      apply String.eqb_eq in Hc. injection Hm as <-. subst pathname.
      vm_compute in Hapi. discriminate.
  - intros id Hne Hfree. rewrite hooks_path. unfold route, api, startsWith.
    cbn [String.eqb Ascii.eqb Bool.eqb strip first_return on matches nth_error split_slash].
    rewrite (take_segment_slash_free id Hfree), (split_slash_slash_free id Hfree).
    destruct (String.eqb_spec id EmptyString) as [E|_]; [contradiction|].
    split; reflexivity.
  - vm_compute. reflexivity.
Qed.

Lemma hooks_by_token_is_never_reached_witness :
  route "GET" "/api/hooks/hook_1" = HooksGet (Some "hook_1"%string) /\
  route "DELETE" "/api/hooks/hook_1" = HooksDispose (Some "hook_1"%string).
Proof.
  destruct hooks_by_token_is_never_reached as (_ & H & _).
  apply (H "hook_1"%string); [discriminate | reflexivity].
Defined.
End RouterFacts.
